(** * ESP32-CAM detection scripts: frame extraction, detectors, report rules,
      reporter and detection loop.

    Shallow embedding of
      - examples/face_detection_script.py    (class FaceDetector)
      - examples/motion_detection_script.py  (class MotionDetector)
      - server/scripts/script_0dab3cf3-....py (minimal face script)

    Conventions.
    - Python [bytes] are [list byte]; Python [int] is [Z]; [bytes.find]
      returns [-1] when the pattern is absent.
    - Python floats (time stamps, confidences, contour areas) are embedded as
      exact rationals [Q]: the arithmetic of the scripts is kept, IEEE
      rounding is not represented.
    - A call that can raise returns an [outcome]; every function that prints,
      posts or sleeps returns the trace of these effects next to its outcome
      (the monad [M]).
    - OpenCV primitives whose pixel algorithms are outside the scripts are the
      fields of the class [OpenCV]. *)

From Stdlib Require Import List ZArith QArith Qround Qminmax Qfield Bool Lia Lqa.
From Stdlib Require Import Strings.Byte Strings.String.
Import ListNotations.
Open Scope Z_scope.

(* ================================================================== *)
(** * Part I: definitions                                              *)
(* ================================================================== *)

(** ** Python exceptions and effect traces *)

(** The exceptions the scripts name or can meet.  [KeyboardInterrupt] is the
    only one that is not a subclass of [Exception]. *)
Inductive exn : Type :=
| KeyboardInterrupt
| URLError
| SocketTimeout
| ConnectionResetError
| RequestsTimeout
| RequestsConnectionError
| ValueError
| AttributeError
| CvError
| OtherException.

(** [isinstance(e, Exception)] *)
Definition is_Exception (e : exn) : bool :=
  match e with
  | KeyboardInterrupt => false
  | _ => true
  end.

(** [isinstance(e, requests.exceptions.Timeout)] *)
Definition is_requests_Timeout (e : exn) : bool :=
  match e with
  | RequestsTimeout => true
  | _ => false
  end.

(** [isinstance(e, requests.exceptions.ConnectionError)] *)
Definition is_requests_ConnectionError (e : exn) : bool :=
  match e with
  | RequestsConnectionError => true
  | _ => false
  end.

Inductive outcome (A : Type) : Type :=
| Returned (a : A)
| Raised (e : exn).
Arguments Returned {A} a.
Arguments Raised {A} e.

Inductive detection_type : Type := Face | Motion.

(** The JSON body of the POST to [/analytics/log] (identifiers come from the
    environment and are left out; the metadata map is left out). *)
Record AnalyticsEvent : Type := {
  detectionType : detection_type;
  detectedCount : Z;
  confidence : Q
}.

(** One constructor per [print] of the scripts that the properties refer to. *)
Inductive message : Type :=
| MsgFrameError (e : exn)              (* "Error getting frame from stream: {e}" *)
| MsgDetectError (e : exn)             (* "Error detecting faces/motion: {e}" *)
| MsgLogged (id : string)              (* "Logged ... - ID: {id}" *)
| MsgLoggedPlain                       (* "Logged {count} faces detected" *)
| MsgHttpFailed (status : Z)           (* "Failed to log detection: HTTP {status}" *)
| MsgErrorDetail (err : string)        (* "   Error: {error}" *)
| MsgResponseText (text : string)      (* "   Response: {text}" *)
| MsgLogTimeout                        (* "Timeout logging detection data" *)
| MsgLogConnection                     (* "Connection error logging detection data" *)
| MsgLogError (e : exn)                (* "Error logging detection: {e}" *)
| MsgLowConfidence (count : Z)         (* "Detected ... but confidence too low" *)
| MsgCooldown                          (* "Motion detected ... - cooldown active" *)
| MsgNoMotion                          (* "No motion detected ..." *)
| MsgFrameFailed (errors : Z)          (* "Failed to get frame from stream (error n/max)" *)
| MsgTooManyErrors (errors : Z)        (* "Too many consecutive errors (n), exiting..." *)
| MsgStoppedByUser                     (* "Detection stopped by user" *)
| MsgUnexpected (e : exn)              (* "Unexpected error in detection loop: {e}" *)
| MsgLoopEnded.                        (* "... detection loop ended" *)

Inductive event : Type :=
| Printed (m : message)
| Post (data : AnalyticsEvent)         (* requests.post(.../analytics/log, json=data) *)
| Sleep (seconds : Z)                  (* time.sleep(seconds) *)
| StreamOpen                           (* urlopen(stream_url) succeeded *)
| StreamClose.                         (* stream.close() *)

(** The variables the scripts mutate: the attributes of the detector object
    and the locals of [run_detection_loop]. *)
Record Gray : Type := {
  rows : Z;
  cols : Z;
  intensity : list Z
}.

Record state : Type := {
  previous_frame : option Gray;        (* self.previous_frame *)
  motion_detected_time : option Q;     (* self.motion_detected_time *)
  consecutive_errors : Z;
  last_motion_log_time : Q
}.

(** A computation: from the state it starts in, the effects it performed,
    the state it left, and how it ended. *)
Definition M (A : Type) : Type := state -> (list event * state * outcome A).

Definition ret {A : Type} (a : A) : M A := fun s => ([], s, Returned a).

Definition raise {A : Type} (e : exn) : M A := fun s => ([], s, Raised e).

Definition emit (ev : event) : M unit := fun s => ([ev], s, Returned tt).

Definition get : M state := fun s => ([], s, Returned s).

Definition put (s' : state) : M unit := fun _ => ([], s', Returned tt).

Definition bind {A B : Type} (m : M A) (f : A -> M B) : M B :=
  fun s =>
    match m s with
    | (t, s', Returned a) => let '(t', s'', r) := f a s' in (t ++ t', s'', r)
    | (t, s', Raised e) => (t, s', Raised e)
    end.

(** One [except <class> as e: h e] clause. *)
Definition clause (A : Type) : Type := ((exn -> bool) * (exn -> M A))%type.

(** The first clause whose class matches handles the exception; with no
    match it goes on to the caller. *)
Fixpoint handle {A : Type} (cs : list (clause A)) (e : exn) : M A :=
  match cs with
  | [] => raise e
  | (cls, h) :: cs' => if cls e then h e else handle cs' e
  end.

(** [try: m  except ...]: the handler runs in the state the body left. *)
Definition try_ {A : Type} (m : M A) (cs : list (clause A)) : M A :=
  fun s =>
    match m s with
    | (t, s', Raised e) => let '(t', s'', r) := handle cs e s' in (t ++ t', s'', r)
    | (t, s', Returned a) => (t, s', Returned a)
    end.

Declare Scope py_scope.
Delimit Scope py_scope with py.
Notation "x <- m ;; k" := (bind m (fun x => k))
  (at level 61, m at next level, right associativity) : py_scope.
Notation "m ;; k" := (bind m (fun _ => k))
  (at level 61, right associativity) : py_scope.
Open Scope py_scope.

Definition trace {A : Type} (r : list event * state * outcome A) : list event :=
  fst (fst r).

Definition final {A : Type} (r : list event * state * outcome A) : state :=
  snd (fst r).

Definition result {A : Type} (r : list event * state * outcome A) : outcome A :=
  snd r.

Definition is_Post (ev : event) : bool :=
  match ev with
  | Post _ => true
  | _ => false
  end.

(** The reports sent during a computation. *)
Definition posts (t : list event) : list event := filter is_Post t.

(** ** Python built-ins *)

(** [bs.startswith(sub)] *)
Fixpoint starts_with (sub bs : list byte) : bool :=
  match sub, bs with
  | [], _ => true
  | _ :: _, [] => false
  | a :: sub', b :: bs' => Byte.eqb a b && starts_with sub' bs'
  end.

Fixpoint find_from (sub bs : list byte) (i : Z) : Z :=
  if starts_with sub bs then i
  else match bs with
       | [] => -1
       | _ :: bs' => find_from sub bs' (i + 1)
       end.

(** [bs.find(sub)]: lowest index where [sub] occurs, [-1] if it does not. *)
Definition find (bs sub : list byte) : Z := find_from sub bs 0.

(** [bs[lo:hi]] for non-negative [lo] and [hi] (empty when [hi <= lo]). *)
Definition slice (bs : list byte) (lo hi : Z) : list byte :=
  firstn (Z.to_nat (hi - lo)) (skipn (Z.to_nat lo) bs).

(** [bs[lo:]] for non-negative [lo]. *)
Definition slice_from (bs : list byte) (lo : Z) : list byte :=
  skipn (Z.to_nat lo) bs.

(** [int(x)] on a float: truncation toward zero. *)
Definition py_int (x : Q) : Z := Z.quot (Qnum x) (Zpos (Qden x)).

(** [min(a, b)]: [b] when [b < a], else [a]. *)
Definition py_min (a b : Q) : Q :=
  match b ?= a with
  | Lt => b
  | _ => a
  end%Q.

Definition Qge_bool (a b : Q) : bool := Qle_bool b a.

Definition Qgt_bool (a b : Q) : bool := negb (Qle_bool a b).

(** The value a numpy [int32] holds for the integer [z]: two's complement
    on 32 bits, so that a result out of range wraps around. *)
Definition int32 (z : Z) : Z :=
  (z + 2147483648) mod 4294967296 - 2147483648.

(** ** Frames and the OpenCV capability *)

(** A decoded frame: [shape[0]] rows, [shape[1]] columns, BGR pixel data. *)
Record Image : Type := {
  shape0 : Z;
  shape1 : Z;
  pixels : list byte
}.

(** A face rectangle [(x, y, w, h)]. *)
Record Rect : Type := {
  rect_x : Z;
  rect_y : Z;
  rect_w : Z;
  rect_h : Z
}.

(** The pixel algorithms the scripts call and do not define.
    [imdecode] is the decoder: [None] on data it cannot decode, and it
    decodes nothing out of no data ([cv2.imdecode] itself raises on an empty
    buffer, see [cv2_imdecode]); the rows of [detectMultiScale] are [int32]
    values; the grayscale conversion and the blur are defined on every
    decoded frame; for the other calls [None] stands for a raised
    [cv2.error]. *)
Class OpenCV (Contour : Type) : Type := {
  imdecode : list byte -> option Image;
  imdecode_empty : imdecode [] = None;
  cvtColor_gray : Image -> Gray;
  GaussianBlur : Gray -> Z -> Gray;
  detectMultiScale : Gray -> option (list Rect);
  dilate : Gray -> Z -> option Gray;
  findContours : Gray -> option (list Contour);
  contourArea : Contour -> Q
}.

(** A call into OpenCV that can fail: [None] is a raised [cv2.error]. *)
Definition cv {A : Type} (r : option A) : M A :=
  match r with
  | Some a => ret a
  | None => raise CvError
  end.

(** ** FrameSource *)

Definition SOI : list byte := [xff; xd8].

Definition EOI : list byte := [xff; xd9].

(** What one [stream.read(1024)] gives. *)
Inductive read_result : Type :=
| Chunk (data : list byte)
| ReadRaises (e : exn).

(** What the camera URL does during one call: [urlopen] raises, or it opens
    and the reads follow; after the listed reads the stream is at its end
    ([read] gives [b'']). *)
Inductive connection : Type :=
| OpenRaises (e : exn)
| Opened (reads : list read_result).

Definition is_empty (bs : list byte) : bool :=
  match bs with
  | [] => true
  | _ => false
  end.

(** [cv2.imdecode(np.frombuffer(data, dtype=np.uint8), cv2.IMREAD_COLOR)]:
    [cv2.error] on an empty buffer, [None] on data that is not an image. *)
Definition cv2_imdecode {C : Type} `{OpenCV C} (data : list byte)
  : M (option Image) :=
  if is_empty data then raise CvError else ret (imdecode data).

(** The scan of the example scripts (face lines 200-205, motion 217-222):
    the JPEG bytes when a frame is cut out of [bytes_data]. *)
Definition scan_frame (bytes_data : list byte) : option (list byte) :=
  let jpeg_start := find bytes_data SOI in
  let jpeg_end := find bytes_data EOI in
  if negb (jpeg_start =? -1) && negb (jpeg_end =? -1) && (jpeg_end >? jpeg_start)
  then Some (slice bytes_data jpeg_start (jpeg_end + 2))
  else None.

(** The [while True] of [get_frame_from_stream], one iteration per read.
    The bytes cut out are never empty (they begin with the start marker),
    so that [cv2.imdecode] does not raise on them. *)
Fixpoint read_until_frame {C : Type} `{OpenCV C} (reads : list read_result)
  (bytes_data : list byte) : M (option Image) :=
  match reads with
  | [] => emit StreamClose ;; ret None
  | ReadRaises e :: _ => raise e
  | Chunk chunk :: rest =>
      if is_empty chunk then emit StreamClose ;; ret None
      else
        let bytes_data := bytes_data ++ chunk in
        match scan_frame bytes_data with
        | Some jpeg_data =>
            let image := imdecode jpeg_data in
            emit StreamClose ;; ret image
        | None => read_until_frame rest bytes_data
        end
  end.

(** [FaceDetector.get_frame_from_stream] and
    [MotionDetector.get_frame_from_stream] (the two are the same text). *)
Definition get_frame_from_stream {C : Type} `{OpenCV C} (c : connection)
  : M (option Image) :=
  try_
    (match c with
     | OpenRaises e => raise e
     | Opened reads => emit StreamOpen ;; read_until_frame reads []
     end)
    [(is_Exception, fun e => emit (Printed (MsgFrameError e)) ;; ret None)].

(** The scan of the minimal server script (lines 51-56): the JPEG bytes and
    the new value of [bytes_data]. *)
Definition server_scan (bytes_data : list byte)
  : option (list byte * list byte) :=
  let a := find bytes_data SOI in
  let b := find bytes_data EOI in
  if negb (a =? -1) && negb (b =? -1)
  then Some (slice bytes_data a (b + 2), slice_from bytes_data (b + 2))
  else None.

(** The inner [while True] of the server script over the chunks read on one
    connection: the JPEG slices cut out, in order, and the final buffer,
    when what is done with each decodable slice completes.  An empty slice
    is the last one: [cv2.imdecode] raises on it, which ends the loop. *)
Fixpoint server_frames (chunks : list (list byte)) (bytes_data : list byte)
  : list (list byte) * list byte :=
  match chunks with
  | [] => ([], bytes_data)
  | chunk :: rest =>
      let bytes_data := bytes_data ++ chunk in
      match server_scan bytes_data with
      | Some (jpg, bytes_data') =>
          if is_empty jpg then ([jpg], bytes_data')
          else
            let (frames, final) := server_frames rest bytes_data' in
            (jpg :: frames, final)
      | None => server_frames rest bytes_data
      end
  end.

(** ** Reporter *)

(** What [response.json()] parses to: an object, or some other JSON value. *)
Inductive json_value : Type :=
| JObject (fields : list (string * string))
| JOther.

(** An HTTP response; [json_body = None] when the body is not JSON. *)
Record Response : Type := {
  status_code : Z;
  json_body : option json_value;
  text : string
}.

(** What [requests.post] does. *)
Inductive post_result : Type :=
| Responds (r : Response)
| PostRaises (e : exn).

Definition requests_post (data : AnalyticsEvent) (net : post_result)
  : M Response :=
  emit (Post data) ;;
  match net with
  | Responds r => ret r
  | PostRaises e => raise e
  end.

(** [response.json()] *)
Definition response_json (r : Response) : M json_value :=
  match json_body r with
  | Some j => ret j
  | None => raise ValueError
  end.

Fixpoint lookup (key : string) (fields : list (string * string))
  : option string :=
  match fields with
  | [] => None
  | (k, v) :: rest => if String.eqb k key then Some v else lookup key rest
  end.

(** [j.get(key, default)]: only an object has [get]. *)
Definition json_get (j : json_value) (key default : string) : M string :=
  match j with
  | JObject fields =>
      ret (match lookup key fields with
           | Some v => v
           | None => default
           end)
  | JOther => raise AttributeError
  end.

(** The clauses that close [log_detection] in the example scripts. *)
Definition log_clauses : list (clause bool) :=
  [(is_requests_Timeout,
     fun _ => emit (Printed MsgLogTimeout) ;; ret false);
   (is_requests_ConnectionError,
     fun _ => emit (Printed MsgLogConnection) ;; ret false);
   (is_Exception,
     fun e => emit (Printed (MsgLogError e)) ;; ret false)].

(** Lines 147-165 of the face script, 164-182 of the motion script. *)
Definition post_and_classify (data : AnalyticsEvent) (net : post_result)
  : M bool :=
  response <- requests_post data net ;;
  if status_code response =? 200 then
    result <- response_json response ;;
    id <- json_get result "id" "unknown" ;;
    emit (Printed (MsgLogged id)) ;;
    ret true
  else
    emit (Printed (MsgHttpFailed (status_code response))) ;;
    try_
      (error_data <- response_json response ;;
       err <- json_get error_data "error" "Unknown error" ;;
       emit (Printed (MsgErrorDetail err)))
      [(fun _ => true,
        fun _ => emit (Printed (MsgResponseText (text response))))] ;;
    ret false.

(** ** The face detector script *)

Module FaceDetector.

Definition DETECTION_INTERVAL : Z := 2.

Definition CONFIDENCE_THRESHOLD : Q := 7 # 10.

(** [np.mean(xs)] *)
Definition mean (xs : list Q) : Q :=
  fold_right Qplus 0%Q xs / inject_Z (Z.of_nat (List.length xs)).

Definition detect_faces {C : Type} `{OpenCV C} (image : Image)
  : M (Z * Q * list Rect) :=
  try_
    (let gray := cvtColor_gray image in
     faces <- cv (detectMultiScale gray) ;;
     let face_count := Z.of_nat (List.length faces) in
     let confidence :=
       if face_count >? 0 then
         let avg_face_area :=
           mean (map (fun r => inject_Z (int32 (rect_w r * rect_h r)))
                   faces) in
         let image_area := inject_Z (shape0 image * shape1 image) in
         py_min (9 # 10) ((5 # 10) + (avg_face_area / image_area) * 2)
       else 0
     in
     ret (face_count, confidence, faces))%Q
    [(is_Exception,
      fun e => emit (Printed (MsgDetectError e)) ;; ret (0, 0%Q, []))].

Definition log_detection (net : post_result) (face_count : Z) (confidence : Q)
  : M bool :=
  try_
    (let data := {| detectionType := Face;
                    detectedCount := face_count;
                    confidence := confidence |} in
     post_and_classify data net)
    log_clauses.

End FaceDetector.

(** ** The motion detector script *)

Module MotionDetector.

Definition DETECTION_INTERVAL : Z := 1.

Definition MOTION_THRESHOLD : Q := 5000.

Definition BLUR_SIZE : Z := 21.

Definition DILATE_ITERATIONS : Z := 2.

Definition FRAME_DELTA_THRESHOLD : Z := 25.

Definition MIN_CONTOUR_AREA : Q := 500.

Fixpoint zip_with (f : Z -> Z -> Z) (xs ys : list Z) : list Z :=
  match xs, ys with
  | x :: xs', y :: ys' => f x y :: zip_with f xs' ys'
  | _, _ => []
  end.

(** [cv2.absdiff]: defined on two images of one size, [cv2.error] otherwise
    (frames have more than one row and one column, so that OpenCV never
    takes one of them for a scalar). *)
Definition absdiff (a b : Gray) : option Gray :=
  if (rows a =? rows b) && (cols a =? cols b)
  then Some {| rows := rows a; cols := cols a;
               intensity := zip_with (fun x y => Z.abs (x - y))
                              (intensity a) (intensity b) |}
  else None.

(** [cv2.threshold(src, thresh, maxval, cv2.THRESH_BINARY)[1]] *)
Definition threshold (src : Gray) (thresh maxval : Z) : Gray :=
  {| rows := rows src; cols := cols src;
     intensity := map (fun p => if p >? thresh then maxval else 0)
                    (intensity src) |}.

Definition set_previous_frame (g : Gray) : M unit :=
  s <- get ;;
  put {| previous_frame := Some g;
         motion_detected_time := motion_detected_time s;
         consecutive_errors := consecutive_errors s;
         last_motion_log_time := last_motion_log_time s |}.

(** The [for contour in contours] of [detect_motion]. *)
Fixpoint significant {C : Type} `{OpenCV C} (contours : list C)
  (motion_level : Q) (significant_contours : list C) : Q * list C :=
  match contours with
  | [] => (motion_level, significant_contours)
  | contour :: rest =>
      let area := contourArea contour in
      if Qgt_bool area MIN_CONTOUR_AREA
      then significant rest (motion_level + area)%Q
             (significant_contours ++ [contour])
      else significant rest motion_level significant_contours
  end.

Definition detect_motion {C : Type} `{OpenCV C} (current_frame : Image)
  : M (bool * Q * list C) :=
  try_
    (let gray := cvtColor_gray current_frame in
     let gray := GaussianBlur gray BLUR_SIZE in
     s <- get ;;
     match previous_frame s with
     | None =>
         set_previous_frame gray ;;
         ret (false, 0%Q, [])
     | Some previous =>
         frame_delta <- cv (absdiff previous gray) ;;
         let thresh := threshold frame_delta FRAME_DELTA_THRESHOLD 255 in
         thresh <- cv (dilate thresh DILATE_ITERATIONS) ;;
         contours <- cv (findContours thresh) ;;
         let '(motion_level, significant_contours) :=
           significant contours 0%Q [] in
         set_previous_frame gray ;;
         let motion_detected := Qgt_bool motion_level MOTION_THRESHOLD in
         ret (motion_detected, motion_level, significant_contours)
     end)
    [(is_Exception,
      fun e => emit (Printed (MsgDetectError e)) ;; ret (false, 0%Q, []))].

Definition log_detection (net : post_result) (motion_level : Q)
  (contour_count : Z) : M bool :=
  try_
    (let confidence :=
       py_min (95 # 100) (motion_level / (MOTION_THRESHOLD * 10))%Q in
     let data := {| detectionType := Motion;
                    detectedCount := 1;
                    confidence := confidence |} in
     post_and_classify data net)
    log_clauses.

End MotionDetector.

(** ** The minimal server script *)

Module ServerScript.

Definition log_detection (net : post_result) (count : Z) (confidence : Q)
  : M unit :=
  try_
    (let data := {| detectionType := Face;
                    detectedCount := count;
                    confidence := confidence |} in
     response <- requests_post data net ;;
     if status_code response =? 200
     then emit (Printed MsgLoggedPlain)
     else emit (Printed (MsgHttpFailed (status_code response))))
    [(is_Exception, fun e => emit (Printed (MsgLogError e)))].

End ServerScript.

(** ** DetectionLoop *)

(** [isinstance(e, KeyboardInterrupt)] *)
Definition is_KeyboardInterrupt (e : exn) : bool :=
  match e with
  | KeyboardInterrupt => true
  | _ => false
  end.

(** What the outside world does during one pass of the [while True]: the
    camera connection, the value of [time.time()], the answer of the
    analytics server if a report is posted, and an exception that arrives
    during the closing [time.sleep], if any. *)
Record iteration : Type := {
  conn : connection;
  now : Q;
  net : post_result;
  sleep_raises : option exn
}.

Definition time_sleep (seconds : Z) (raises : option exn) : M unit :=
  emit (Sleep seconds) ;;
  match raises with
  | Some e => raise e
  | None => ret tt
  end.

Definition max_consecutive_errors : Z := 10.

Definition motion_cooldown : Q := 5.

Definition set_consecutive_errors (n : Z) : M unit :=
  s <- get ;;
  put {| previous_frame := previous_frame s;
         motion_detected_time := motion_detected_time s;
         consecutive_errors := n;
         last_motion_log_time := last_motion_log_time s |}.

Definition set_last_motion_log_time (t : Q) : M unit :=
  s <- get ;;
  put {| previous_frame := previous_frame s;
         motion_detected_time := motion_detected_time s;
         consecutive_errors := consecutive_errors s;
         last_motion_log_time := t |}.

Definition set_motion_detected_time (t : Q) : M unit :=
  s <- get ;;
  put {| previous_frame := previous_frame s;
         motion_detected_time := Some t;
         consecutive_errors := consecutive_errors s;
         last_motion_log_time := last_motion_log_time s |}.

(** How one pass of the loop body ends. *)
Inductive control : Type := Continue | Break.

(** [consecutive_errors += 1], the print that follows it, and the test
    against the ceiling (face lines 271-276 and 285-290). *)
Definition count_error (m : Z -> message) : M control :=
  s <- get ;;
  let n := consecutive_errors s + 1 in
  set_consecutive_errors n ;;
  emit (Printed (m n)) ;;
  if n >=? max_consecutive_errors
  then emit (Printed (MsgTooManyErrors n)) ;; ret Break
  else ret Continue.

(** The [except] clauses of the loop body (the same in both scripts). *)
Definition loop_clauses : list (clause control) :=
  [(is_KeyboardInterrupt,
     fun _ => emit (Printed MsgStoppedByUser) ;; ret Break);
   (is_Exception,
     fun e =>
       c <- count_error (fun _ => MsgUnexpected e) ;;
       match c with
       | Break => ret Break
       | Continue => time_sleep 5 None ;; ret Continue
       end)].

(** The part of the [try] after the branch on [image]: a [break] leaves the
    loop, otherwise the pass ends with [time.sleep(DETECTION_INTERVAL)]. *)
Definition end_of_pass (c : control) (interval : Z) (it : iteration)
  : M control :=
  match c with
  | Break => ret Break
  | Continue => time_sleep interval (sleep_raises it) ;; ret Continue
  end.

Inductive loop_status : Type := Running | Stopped.

(** [while True: body], run on the passes the environment provides;
    [Running] when these are used up and no [break] was met. *)
Fixpoint while_true (body : iteration -> M control) (its : list iteration)
  : M loop_status :=
  match its with
  | [] => ret Running
  | it :: rest =>
      c <- body it ;;
      match c with
      | Break => emit (Printed MsgLoopEnded) ;; ret Stopped
      | Continue => while_true body rest
      end
  end.

Module FaceLoop.
Import FaceDetector.

(** The report rule of the face loop (lines 248-254). *)
Definition should_report (face_count : Z) (confidence : Q) (current_time : Q)
  : bool :=
  let should_log :=
    (face_count >? 0) || (py_int current_time mod 30 =? 0) in
  should_log && Qge_bool confidence CONFIDENCE_THRESHOLD.

(** Lines 241-268: the branch taken when a frame was acquired. *)
Definition process_frame {C : Type} `{OpenCV C} (image : Image)
  (it : iteration) : M control :=
  set_consecutive_errors 0 ;;
  r <- detect_faces image ;;
  let '(face_count, confidence, faces) := r in
  let current_time := now it in
  if should_report face_count confidence current_time then
    log_detection (net it) face_count confidence ;;
    ret Continue
  else if face_count >? 0 then
    emit (Printed (MsgLowConfidence face_count)) ;;
    ret Continue
  else ret Continue.

Definition loop_body {C : Type} `{OpenCV C} (it : iteration) : M control :=
  try_
    (image <- get_frame_from_stream (conn it) ;;
     c <- match image with
          | Some image => process_frame image it
          | None => count_error MsgFrameFailed
          end ;;
     end_of_pass c DETECTION_INTERVAL it)
    loop_clauses.

Definition run_detection_loop {C : Type} `{OpenCV C} (its : list iteration)
  : M loop_status :=
  set_consecutive_errors 0 ;;
  while_true loop_body its.

End FaceLoop.

Module MotionLoop.
Import MotionDetector.

(** Lines 262-293: the branch taken when a frame was acquired. *)
Definition process_frame {C : Type} `{OpenCV C} (image : Image)
  (it : iteration) : M control :=
  set_consecutive_errors 0 ;;
  r <- detect_motion image ;;
  let '(motion_detected, motion_level, contours) := r in
  let current_time := now it in
  if motion_detected : bool then
    s <- get ;;
    if Qge_bool (current_time - last_motion_log_time s) motion_cooldown then
      log_detection (net it) motion_level (Z.of_nat (List.length contours)) ;;
      set_last_motion_log_time current_time ;;
      set_motion_detected_time current_time ;;
      ret Continue
    else
      emit (Printed MsgCooldown) ;;
      ret Continue
  else if py_int current_time mod 60 =? 0 then
    emit (Printed MsgNoMotion) ;;
    ret Continue
  else ret Continue.

Definition loop_body {C : Type} `{OpenCV C} (it : iteration) : M control :=
  try_
    (image <- get_frame_from_stream (conn it) ;;
     c <- match image with
          | Some image => process_frame image it
          | None => count_error MsgFrameFailed
          end ;;
     end_of_pass c DETECTION_INTERVAL it)
    loop_clauses.

Definition run_detection_loop {C : Type} `{OpenCV C} (its : list iteration)
  : M loop_status :=
  set_consecutive_errors 0 ;;
  set_last_motion_log_time 0 ;;
  while_true loop_body its.

End MotionLoop.

(** ** A stand-in for OpenCV

    A small implementation of the capability, used to run the scripts on
    concrete inputs: every JPEG decodes to a 640x480 frame, the classifier
    answers [faces], the contour finder answers contours of areas
    [contours], blur and dilation change nothing. *)
Fixpoint gray_of_bgr (px : list byte) : list Z :=
  match px with
  | b :: g :: r :: rest =>
      (Z.of_N (Byte.to_N b) + Z.of_N (Byte.to_N g) + Z.of_N (Byte.to_N r)) / 3
      :: gray_of_bgr rest
  | _ => []
  end.

Definition sample_cv (faces : list Rect) (contours : list Q) : OpenCV Q :=
  {| imdecode := fun data =>
       if starts_with SOI data
       then Some {| shape0 := 480; shape1 := 640; pixels := data |}
       else None;
     imdecode_empty := eq_refl;
     cvtColor_gray := fun image =>
       {| rows := shape0 image; cols := shape1 image;
          intensity := gray_of_bgr (pixels image) |};
     GaussianBlur := fun g _ => g;
     detectMultiScale := fun _ => Some faces;
     dilate := fun g _ => Some g;
     findContours := fun _ => Some contours;
     contourArea := fun c => c |}.

(** A face as large as the frames of [sample_cv]. *)
Definition full_frame_face : Rect :=
  {| rect_x := 0; rect_y := 0; rect_w := 640; rect_h := 480 |}.

(** A read that delivers one whole JPEG. *)
Definition jpeg_chunk : list byte := [xff; xd8; x00; xff; xd9].

(** A read that delivers the end marker of a frame whose beginning was
    missed. *)
Definition stray_end_chunk : list byte := [xff; xd9].

(** The answer [200] with an empty JSON object. *)
Definition ok_response : Response :=
  {| status_code := 200; json_body := Some (JObject []); text := "{}" |}.

(** A pass at time [t] in which the camera delivers one JPEG and the sleep
    is not disturbed. *)
Definition sample_pass (t : Q) (answer : post_result) : iteration :=
  {| conn := Opened [Chunk jpeg_chunk]; now := t; net := answer;
     sleep_raises := None |}.

(** The state of a detector object before [run_detection_loop]. *)
Definition initial_state : state :=
  {| previous_frame := None;
     motion_detected_time := None;
     consecutive_errors := 0;
     last_motion_log_time := 0 |}.

(** ** Vocabulary of the properties and sample inputs *)

(** [m] occurs in [bs] at index [i]. *)
Definition marker_at (m bs : list byte) (i : Z) : Prop :=
  exists pre post, bs = pre ++ m ++ post /\ Z.of_nat (List.length pre) = i.

(** [i] is the lowest index at which [m] occurs in [bs]. *)
Definition first_marker (m bs : list byte) (i : Z) : Prop :=
  marker_at m bs i /\ forall j, marker_at m bs j -> i <= j.

(** The property as the specification words it: a frame is cut out exactly
    when some start marker lies before some end marker. *)
Definition extracts_iff_marker_pair (extract : list byte -> option (list byte))
  (bs : list byte) : Prop :=
  (exists jpeg, extract bs = Some jpeg) <->
  (exists s e, marker_at SOI bs s /\ marker_at EOI bs e /\ s < e).

(** An error that the connection raises during the call. *)
Definition raised_by (c : connection) (e : exn) : Prop :=
  match c with
  | OpenRaises e' => e' = e
  | Opened reads => In (ReadRaises e) reads
  end.

(** The cause of a failed acquisition is printed. *)
Definition logs_cause (t : list event) : Prop :=
  exists e, In (Printed (MsgFrameError e)) t.

(** No frame is complete after any of the reads of [chunks], the buffer
    holding [buf] before them. *)
Definition no_frame_in (buf : list byte) (chunks : list (list byte)) : Prop :=
  forall k, scan_frame (buf ++ List.concat (firstn k chunks)) = None.

Definition printed (m : message) (t : list event) : Prop := In (Printed m) t.

(** What the example scripts promise about [log_detection]. *)
Definition example_reporter_contract (send : post_result -> M bool) : Prop :=
  forall (net : post_result) (s0 : state),
    ((forall e, net = PostRaises e -> is_Exception e = true) ->
     exists t b, send net s0 = (t, s0, Returned b)) /\
    (forall r fields,
       net = Responds r -> status_code r = 200 ->
       json_body r = Some (JObject fields) ->
       result (send net s0) = Returned true /\
       printed (MsgLogged (match lookup "id" fields with
                           | Some v => v
                           | None => "unknown"%string
                           end)) (trace (send net s0))) /\
    (forall r,
       net = Responds r -> status_code r = 200 ->
       (forall fields, json_body r <> Some (JObject fields)) ->
       result (send net s0) = Returned false /\
       exists e, printed (MsgLogError e) (trace (send net s0))) /\
    (forall r,
       net = Responds r -> status_code r <> 200 ->
       result (send net s0) = Returned false /\
       printed (MsgHttpFailed (status_code r)) (trace (send net s0))) /\
    (net = PostRaises RequestsTimeout ->
     result (send net s0) = Returned false /\
     printed MsgLogTimeout (trace (send net s0))) /\
    (net = PostRaises RequestsConnectionError ->
     result (send net s0) = Returned false /\
     printed MsgLogConnection (trace (send net s0))) /\
    (forall e,
       net = PostRaises e -> is_Exception e = true ->
       is_requests_Timeout e = false ->
       is_requests_ConnectionError e = false ->
       result (send net s0) = Returned false /\
       printed (MsgLogError e) (trace (send net s0))).

(** What the server script promises about its [log_detection], which
    returns nothing. *)
Definition server_reporter_contract (send : post_result -> M unit) : Prop :=
  forall (net : post_result) (s0 : state),
    ((forall e, net = PostRaises e -> is_Exception e = true) ->
     exists t, send net s0 = (t, s0, Returned tt)) /\
    (forall r,
       net = Responds r -> status_code r = 200 ->
       printed MsgLoggedPlain (trace (send net s0))) /\
    (forall r,
       net = Responds r -> status_code r <> 200 ->
       printed (MsgHttpFailed (status_code r)) (trace (send net s0))) /\
    (forall e,
       net = PostRaises e -> is_Exception e = true ->
       printed (MsgLogError e) (trace (send net s0))).

(** The answer [200] with a body that is not JSON. *)
Definition ok_without_json : Response :=
  {| status_code := 200; json_body := None; text := "" |}.

(** The property as the specification words it: every 200 answer is a
    success. *)
Definition ok_is_success (send : post_result -> M bool) : Prop :=
  forall r s0, status_code r = 200 -> result (send (Responds r) s0) = Returned true.

(** The area [w * h] of a box, in pixels. *)
Definition box_area (r : Rect) : Q := inject_Z (rect_w r * rect_h r).

(** [w * h] of a box as the script computes it, on [int32] values, and as
    [np.mean] sees it. *)
Definition int32_area (r : Rect) : Q :=
  inject_Z (int32 (rect_w r * rect_h r)).

(** The area of the box is in the range of an [int32]. *)
Definition area_fits (r : Rect) : Prop :=
  -2147483648 <= rect_w r * rect_h r <= 2147483647.

(** The state with [self.previous_frame] replaced. *)
Definition with_previous_frame (s : state) (g : Gray) : state :=
  {| previous_frame := Some g;
     motion_detected_time := motion_detected_time s;
     consecutive_errors := consecutive_errors s;
     last_motion_log_time := last_motion_log_time s |}.

(** The blurred grayscale of a frame, as [detect_motion] computes it. *)
Definition blurred {C : Type} `{OpenCV C} (frame : Image) : Gray :=
  GaussianBlur (cvtColor_gray frame) MotionDetector.BLUR_SIZE.

(** The contours found between two blurred frames, when no call fails. *)
Definition compared {C : Type} `{OpenCV C} (previous gray : Gray)
  : option (list C) :=
  match MotionDetector.absdiff previous gray with
  | None => None
  | Some frame_delta =>
      match dilate (MotionDetector.threshold frame_delta
                      MotionDetector.FRAME_DELTA_THRESHOLD 255)
              MotionDetector.DILATE_ITERATIONS with
      | None => None
      | Some thresh => findContours thresh
      end
  end.

(** A stored previous frame of 2x2 pixels. *)
Definition stored_2x2 : Gray :=
  {| rows := 2; cols := 2; intensity := [10; 10; 10; 10] |}.

(** A frame of 2 rows and 3 columns, as after a change of resolution. *)
Definition frame_2x3 : Image :=
  {| shape0 := 2; shape1 := 3; pixels := repeat x20 18 |}.

(** The state with the error counter replaced. *)
Definition with_consecutive_errors (s : state) (n : Z) : state :=
  {| previous_frame := previous_frame s;
     motion_detected_time := motion_detected_time s;
     consecutive_errors := n;
     last_motion_log_time := last_motion_log_time s |}.

(** The loop body of the two example scripts, with the branch of an acquired
    frame and the interval left open. *)
Definition pass {C : Type} `{OpenCV C}
  (process : Image -> iteration -> M control) (interval : Z) (it : iteration)
  : M control :=
  try_
    (image <- get_frame_from_stream (conn it) ;;
     c <- match image with
          | Some image => process image it
          | None => count_error MsgFrameFailed
          end ;;
     end_of_pass c interval it)
    loop_clauses.

(** The branch of an acquired frame leaves the error counter at zero and
    lets out no error of class [Exception]. *)
Definition resets_counter (process : Image -> iteration -> M control) : Prop :=
  forall image it s, exists t s' r,
    process image it s = (t, s', r) /\
    consecutive_errors s' = 0 /\
    forall e, r = Raised e -> is_Exception e = false.

(** The report rule of the face loop, as the specification words it. *)
Definition face_rule (face_count : Z) (conf : Q) (t : Q) : Prop :=
  (FaceDetector.CONFIDENCE_THRESHOLD <= conf)%Q /\
  (0 < face_count \/ Qfloor t mod 30 = 0).

(** The report of the motion loop for a motion level. *)
Definition motion_report (motion_level : Q) : AnalyticsEvent :=
  {| detectionType := Motion;
     detectedCount := 1;
     confidence :=
       py_min (95 # 100)
         (motion_level / (MotionDetector.MOTION_THRESHOLD * 10))%Q |}.

(** The report rule of the motion loop, as the specification words it. *)
Definition motion_rule (significant : bool) (t last : Q) : Prop :=
  significant = true /\ (motion_cooldown <= t - last)%Q.

(** The answer to a report does not interrupt the script. *)
Definition uninterrupted (answer : post_result) : Prop :=
  forall e, answer = PostRaises e -> is_Exception e = true.

(** The report rule of the motion loop, as the script computes it. *)
Definition motion_reports (significant : bool) (t last : Q) : bool :=
  significant && Qge_bool (t - last) motion_cooldown.

(** A stored previous frame of the size of the frames of [sample_cv]. *)
Definition stored_480x640 : Gray :=
  {| rows := 480; cols := 640; intensity := [0] |}.

(** The camera gives no frame during this pass. *)
Definition fetch_fails {C : Type} `{OpenCV C} (it : iteration) : Prop :=
  forall s, result (get_frame_from_stream (conn it) s) = Returned None.

(** What the specification says of the error counter of a detection loop
    with body [body], started by [run]. *)
Definition counts_errors {C : Type} `{OpenCV C}
  (body : iteration -> M control) (run : list iteration -> M loop_status)
  : Prop :=
  (forall it s,
     result (get_frame_from_stream (conn it) s) = Returned None ->
     consecutive_errors s + 1 <= consecutive_errors (final (body it s)) /\
     posts (trace (body it s)) = [] /\
     (sleep_raises it = None ->
      consecutive_errors (final (body it s)) = consecutive_errors s + 1 /\
      result (body it s) =
      Returned (if consecutive_errors s + 1 >=? max_consecutive_errors
                then Break else Continue))) /\
  (forall it s image,
     result (get_frame_from_stream (conn it) s) = Returned (Some image) ->
     sleep_raises it = None ->
     consecutive_errors (final (body it s)) = 0) /\
  (forall it rest s,
     result (body it s) = Returned Break ->
     while_true body (it :: rest) s =
     (trace (body it s) ++ [Printed MsgLoopEnded], final (body it s),
      Returned Stopped)) /\
  (forall fails rest s,
     Forall fetch_fails fails ->
     max_consecutive_errors <= Z.of_nat (List.length fails) ->
     result (run (fails ++ rest) s) = Returned Stopped /\
     posts (trace (run (fails ++ rest) s)) = [] /\
     run (fails ++ rest) s = run fails s).

(** A pass in which the camera cannot be reached. *)
Definition failing_pass : iteration :=
  {| conn := OpenRaises URLError; now := 1000;
     net := Responds ok_response; sleep_raises := None |}.

(** ** Vocabulary of the further properties *)

(** What a report of the face loop looks like. *)
Definition face_report_ok (ev : event) : Prop :=
  match ev with
  | Post d =>
      detectionType d = Face /\ 1 <= detectedCount d /\
      (7 # 10 <= confidence d)%Q /\ (confidence d <= 9 # 10)%Q
  | _ => True
  end.

(** What a report of the motion loop looks like. *)
Definition motion_report_ok (ev : event) : Prop :=
  match ev with
  | Post d =>
      detectionType d = Motion /\ detectedCount d = 1 /\
      (1 # 10 < confidence d)%Q /\ (confidence d <= 95 # 100)%Q
  | _ => True
  end.

(** A loop with body [body] ends at once when the user interrupts the
    script while a frame is fetched or during the sleep that closes a
    pass. *)
Definition stops_on_interrupt {C : Type} `{OpenCV C}
  (body : iteration -> M control) : Prop :=
  forall it rest s,
    (result (get_frame_from_stream (conn it) s) = Raised KeyboardInterrupt ->
     result (while_true body (it :: rest) s) = Returned Stopped /\
     final (while_true body (it :: rest) s) = s /\
     posts (trace (while_true body (it :: rest) s)) = [] /\
     In (Printed MsgStoppedByUser) (trace (while_true body (it :: rest) s))) /\
    (sleep_raises it = Some KeyboardInterrupt ->
     result (while_true body (it :: rest) s) = Returned Stopped /\
     while_true body (it :: rest) s = while_true body [it] s).

(** The clock readings of the passes of a run that post a report, in
    order, for a loop with body [body] started in state [s]. *)
Fixpoint report_times (body : iteration -> M control) (its : list iteration)
  (s : state) : list Q :=
  match its with
  | [] => []
  | it :: rest =>
      let here :=
        match posts (trace (body it s)) with
        | [] => []
        | _ :: _ => [now it]
        end in
      match result (body it s) with
      | Returned Continue => here ++ report_times body rest (final (body it s))
      | _ => here
      end
  end.

(** Each time of the list is at least the cooldown after the one before
    it, the first one after [last]. *)
Fixpoint spaced_from (last : Q) (times : list Q) : Prop :=
  match times with
  | [] => True
  | t :: rest => (motion_cooldown <= t - last)%Q /\ spaced_from t rest
  end.

(** [detect_motion] called on the frames of a list, one after the other:
    the answers, in order. *)
Fixpoint detect_all {C : Type} `{OpenCV C} (frames : list Image)
  : M (list (bool * Q * list C)) :=
  match frames with
  | [] => ret []
  | frame :: rest =>
      answer <- MotionDetector.detect_motion frame ;;
      answers <- detect_all rest ;;
      ret (answer :: answers)
  end.

(** The two single-channel images have the same number of rows and of
    columns. *)
Definition same_size (a b : Gray) : Prop :=
  rows a = rows b /\ cols a = cols b.

(** ** The entry points of the example scripts *)

(** How [main] ends: [sys.exit(code)], or a normal return after the loop
    ([Returns Running] when the passes given are used up before the loop
    ends). *)
Inductive ending : Type :=
| Exits (code : Z)
| Returns (status : loop_status).

(** The value of [VIEWER_API_KEY] that the scripts ship with. *)
Definition PLACEHOLDER_KEY : string := "YOUR_VIEWER_API_KEY_HERE".

Module FaceMain.

(** [FaceDetector.__init__] (lines 57-74); [cascade_empty] is what
    [self.face_cascade.empty()] answers; [Some code] stands for
    [sys.exit(code)]. *)
Definition init (cascade_empty : bool) : M (option Z) :=
  try_
    (if cascade_empty then raise OtherException else ret None)
    [(is_Exception, fun _ => ret (Some 1))].

(** [main] (lines 296-314), for a value of [VIEWER_API_KEY]. *)
Definition main {C : Type} `{OpenCV C} (VIEWER_API_KEY : string)
  (cascade_empty : bool) (its : list iteration) : M ending :=
  if String.eqb VIEWER_API_KEY PLACEHOLDER_KEY then ret (Exits 1)
  else
    exit <- init cascade_empty ;;
    match exit with
    | Some code => ret (Exits code)
    | None =>
        try_
          (status <- FaceLoop.run_detection_loop its ;; ret (Returns status))
          [(is_Exception, fun _ => ret (Exits 1))]
    end.

End FaceMain.

Module MotionMain.

(** [MotionDetector.__init__] (lines 58-70). *)
Definition init : M (option Z) :=
  try_
    (s <- get ;;
     put {| previous_frame := None;
            motion_detected_time := None;
            consecutive_errors := consecutive_errors s;
            last_motion_log_time := last_motion_log_time s |} ;;
     ret None)
    [(is_Exception, fun _ => ret (Some 1))].

(** [main] (lines 321-339), for a value of [VIEWER_API_KEY]. *)
Definition main {C : Type} `{OpenCV C} (VIEWER_API_KEY : string)
  (its : list iteration) : M ending :=
  if String.eqb VIEWER_API_KEY PLACEHOLDER_KEY then ret (Exits 1)
  else
    exit <- init ;;
    match exit with
    | Some code => ret (Exits code)
    | None =>
        try_
          (status <- MotionLoop.run_detection_loop its ;; ret (Returns status))
          [(is_Exception, fun _ => ret (Exits 1))]
    end.

End MotionMain.

(** ** The loop of the minimal server script *)

Module ServerLoop.

(** What the outside world does around one [stream.read(1024)] of the
    server script: the read itself, the answer of the analytics server if a
    report is posted for the frame this read completes, and an exception
    that arrives during the [time.sleep(2)] after a decoded frame, if any. *)
Record server_read : Type := {
  the_read : read_result;
  answer : post_result;
  nap : option exn
}.

(** [stream.read(1024)] *)
Definition stream_read (r : read_result) : M (list byte) :=
  match r with
  | Chunk data => ret data
  | ReadRaises e => raise e
  end.

(** Lines 59-74: what is done with the bytes cut out of the buffer (the
    print of the number of faces is not recorded). *)
Definition process_jpg {C : Type} `{OpenCV C} (jpg : list byte)
  (rd : server_read) : M unit :=
  img <- cv2_imdecode jpg ;;
  match img with
  | Some img =>
      let gray := cvtColor_gray img in
      faces <- cv (detectMultiScale gray) ;;
      let face_count := Z.of_nat (List.length faces) in
      (if face_count >? 0
       then ServerScript.log_detection (answer rd) face_count (8 # 10)
       else ret tt) ;;
      time_sleep 2 (nap rd)
  | None => ret tt
  end.

(** The inner [while True] (lines 49-74), one iteration per read; it has no
    exit of its own, and returns here when the reads given are used up. *)
Fixpoint inner_loop {C : Type} `{OpenCV C} (reads : list server_read)
  (bytes_data : list byte) : M unit :=
  match reads with
  | [] => ret tt
  | rd :: rest =>
      chunk <- stream_read (the_read rd) ;;
      let bytes_data := bytes_data ++ chunk in
      match server_scan bytes_data with
      | Some (jpg, bytes_data') =>
          process_jpg jpg rd ;;
          inner_loop rest bytes_data'
      | None => inner_loop rest bytes_data
      end
  end.

(** One pass of the outer [while True] (lines 44-78): a connection attempt
    and what follows it; [open_raises] is the exception of [urlopen], if
    any (the print of the stream error is not recorded). *)
Definition attempt {C : Type} `{OpenCV C} (open_raises : option exn)
  (reads : list server_read) : M unit :=
  try_
    (match open_raises with
     | Some e => raise e
     | None => emit StreamOpen ;; inner_loop reads []
     end)
    [(is_Exception, fun _ => time_sleep 5 None)].

End ServerLoop.

(** What a report of the server script looks like. *)
Definition server_report_ok (ev : event) : Prop :=
  match ev with
  | Post d =>
      detectionType d = Face /\ 1 <= detectedCount d /\ confidence d = 8 # 10
  | _ => True
  end.

(* ================================================================== *)
(** * Part II: properties                                              *)
(* ================================================================== *)

(** ** Occurrences of a marker in a buffer *)

Lemma starts_with_prefix (m bs : list byte) :
  starts_with m bs = true <-> exists post, bs = m ++ post.
Proof.
  revert bs. induction m as [|a m IH]; intros bs; simpl.
  - split; [intros _; now exists bs | reflexivity].
  - destruct bs as [|b bs].
    + split; [discriminate | intros [post Hp]; discriminate].
    + rewrite andb_true_iff, IH. split.
      * intros [Hab [post ->]]. apply byte_dec_bl in Hab. subst. now exists post.
      * intros [post Hp]. injection Hp as -> ->. split.
        -- now apply byte_dec_lb.
        -- now exists post.
Qed.

Lemma marker_at_skipn (m bs : list byte) (k : nat) :
  marker_at m bs (Z.of_nat k) <->
  (k <= List.length bs)%nat /\ starts_with m (skipn k bs) = true.
Proof.
  rewrite starts_with_prefix. split.
  - intros (pre & post & -> & Hlen). apply Nat2Z.inj in Hlen. subst k. split.
    + rewrite length_app. lia.
    + exists post. rewrite skipn_app, skipn_all, Nat.sub_diag. reflexivity.
  - intros [Hk [post Hp]]. exists (firstn k bs), post. split.
    + rewrite <- Hp. symmetry. apply firstn_skipn.
    + rewrite firstn_length_le by exact Hk. reflexivity.
Qed.

Lemma marker_at_nonneg (m bs : list byte) (i : Z) : marker_at m bs i -> 0 <= i.
Proof. intros (pre & post & _ & <-). lia. Qed.

(** What the recursion of [find] computes. *)
Lemma find_from_spec (sub bs : list byte) (i : Z) :
  (find_from sub bs i = -1 /\
   forall j, starts_with sub (skipn j bs) = false) \/
  (exists k, find_from sub bs i = i + Z.of_nat k /\
     (k <= List.length bs)%nat /\
     starts_with sub (skipn k bs) = true /\
     forall j, (j < k)%nat -> starts_with sub (skipn j bs) = false).
Proof.
  revert i. induction bs as [|b bs IH]; intros i.
  - cbn [find_from]. destruct (starts_with sub []) eqn:E.
    + right. exists 0%nat. cbn. repeat split; try lia. exact E.
    + left. split; [reflexivity|]. intros j. now rewrite skipn_nil.
  - cbn [find_from]. destruct (starts_with sub (b :: bs)) eqn:E.
    + right. exists 0%nat. cbn [skipn List.length]. repeat split; try lia. exact E.
    + destruct (IH (i + 1)) as [[Hn Habs] | (k & Hk & Hle & Hat & Hmin)].
      * left. split; [exact Hn|]. intros [|j]; [exact E | apply Habs].
      * right. exists (S k). cbn [skipn List.length]. repeat split; try lia; try exact Hat.
        intros [|j] Hj; [exact E | apply Hmin; lia].
Qed.

Lemma find_absent (m bs : list byte) :
  find bs m = -1 <-> forall i, ~ marker_at m bs i.
Proof.
  unfold find. destruct (find_from_spec m bs 0) as [[Hn Habs] | (k & Hk & Hle & Hat & _)].
  - split; [|intros _; exact Hn]. intros _ i Hi.
    pose proof (marker_at_nonneg _ _ _ Hi) as Hnn.
    rewrite <- (Z2Nat.id i Hnn) in Hi. apply marker_at_skipn in Hi.
    destruct Hi as [_ Hi]. rewrite Habs in Hi. discriminate.
  - split.
    + intros Hf. rewrite Hf in Hk. lia.
    + intros Hno. exfalso. apply (Hno (Z.of_nat k)). apply marker_at_skipn. auto.
Qed.

Lemma find_first (m bs : list byte) (i : Z) :
  0 <= i -> (find bs m = i <-> first_marker m bs i).
Proof.
  intros Hi. unfold find, first_marker.
  destruct (find_from_spec m bs 0) as [[Hn Habs] | (k & Hk & Hle & Hat & Hmin)].
  - split; [lia|]. intros [Hm _]. exfalso.
    rewrite <- (Z2Nat.id i Hi) in Hm. apply marker_at_skipn in Hm.
    destruct Hm as [_ Hm]. rewrite Habs in Hm. discriminate.
  - assert (Hfirst : forall j, marker_at m bs j -> Z.of_nat k <= j).
    { intros j Hj. pose proof (marker_at_nonneg _ _ _ Hj) as Hnn.
      rewrite <- (Z2Nat.id j Hnn) in Hj. apply marker_at_skipn in Hj.
      destruct Hj as [_ Hj].
      destruct (Z_lt_le_dec j (Z.of_nat k)) as [Hlt|]; [|assumption].
      rewrite Hmin in Hj by lia. discriminate. }
    assert (Hk_at : marker_at m bs (Z.of_nat k)) by (apply marker_at_skipn; auto).
    rewrite Hk. split.
    + intros <-. split; [exact Hk_at | exact Hfirst].
    + intros [Hm Hlow]. apply Hfirst in Hm. apply Hlow in Hk_at. lia.
Qed.

Lemma find_range (m bs : list byte) : find bs m = -1 \/ 0 <= find bs m.
Proof.
  unfold find. destruct (find_from_spec m bs 0) as [[Hn _] | (k & Hk & _)].
  - now left.
  - right. lia.
Qed.

Lemma marker_at_end (m bs : list byte) (i : Z) :
  marker_at m bs i -> i + Z.of_nat (List.length m) <= Z.of_nat (List.length bs).
Proof.
  intros (pre & post & -> & <-). rewrite !length_app. lia.
Qed.

(** ** Slices *)

Lemma slice_cut (bs : list byte) (lo hi : Z) :
  0 <= lo <= hi -> hi <= Z.of_nat (List.length bs) ->
  bs = firstn (Z.to_nat lo) bs ++ slice bs lo hi ++ slice_from bs hi /\
  Z.of_nat (List.length (firstn (Z.to_nat lo) bs)) = lo /\
  Z.of_nat (List.length (slice bs lo hi)) = hi - lo.
Proof.
  intros Hlo Hhi. unfold slice, slice_from. repeat split.
  - replace (skipn (Z.to_nat hi) bs)
      with (skipn (Z.to_nat (hi - lo)) (skipn (Z.to_nat lo) bs)).
    + now rewrite !firstn_skipn.
    + rewrite skipn_skipn. f_equal. lia.
  - rewrite firstn_length_le by lia. lia.
  - rewrite firstn_length_le; [lia|]. rewrite length_skipn. lia.
Qed.

Lemma slice_of_cut (pre mid post : list byte) (lo hi : Z) :
  Z.of_nat (List.length pre) = lo ->
  Z.of_nat (List.length mid) = hi - lo ->
  slice (pre ++ mid ++ post) lo hi = mid /\
  slice_from (pre ++ mid ++ post) hi = post.
Proof.
  intros Hpre Hmid. unfold slice, slice_from.
  assert (Hlo : Z.to_nat lo = List.length pre) by lia.
  assert (Hd : Z.to_nat (hi - lo) = List.length mid) by lia.
  assert (Hhi : Z.to_nat hi = (List.length pre + List.length mid)%nat) by lia.
  split.
  - rewrite Hlo, Hd, skipn_app, skipn_all, Nat.sub_diag. cbn [skipn app].
    rewrite firstn_app, firstn_all, Nat.sub_diag. cbn [firstn]. apply app_nil_r.
  - rewrite Hhi, app_assoc, skipn_app, skipn_all2 by (rewrite length_app; lia).
    rewrite length_app, Nat.sub_diag. reflexivity.
Qed.

Lemma scan_frame_some (bs jpeg : list byte) :
  scan_frame bs = Some jpeg <->
  0 <= find bs SOI /\ find bs SOI < find bs EOI /\
  jpeg = slice bs (find bs SOI) (find bs EOI + 2).
Proof.
  unfold scan_frame.
  destruct (find_range SOI bs) as [Hs|Hs], (find_range EOI bs) as [He|He];
    destruct (find bs SOI =? -1) eqn:E1, (find bs EOI =? -1) eqn:E2,
      (find bs EOI >? find bs SOI) eqn:E3; cbn [negb andb];
    try lia; (split; [intros Heq; try discriminate | intros (H1 & H2 & H3); try lia]).
  - injection Heq as <-. repeat split; lia.
  - now subst.
Qed.

Lemma server_scan_some (bs : list byte) :
  0 <= find bs SOI -> 0 <= find bs EOI ->
  server_scan bs =
  Some (slice bs (find bs SOI) (find bs EOI + 2), slice_from bs (find bs EOI + 2)).
Proof.
  intros Hs He. unfold server_scan.
  destruct (find bs SOI =? -1) eqn:E1; [lia|].
  destruct (find bs EOI =? -1) eqn:E2; [lia|]. reflexivity.
Qed.

Lemma scans_none (bs : list byte) :
  find bs SOI = -1 \/ find bs EOI = -1 ->
  scan_frame bs = None /\ server_scan bs = None.
Proof.
  unfold scan_frame, server_scan. intros [-> | ->]; cbn [Z.eqb negb andb].
  - now split.
  - rewrite !andb_false_r. now split.
Qed.

(** ** FrameSource: extraction of one frame *)

Lemma first_marker_find (m bs : list byte) (i : Z) :
  first_marker m bs i -> find bs m = i /\ 0 <= i.
Proof.
  intros Hf. pose proof (marker_at_nonneg _ _ _ (proj1 Hf)) as Hi.
  split; [now apply find_first | exact Hi].
Qed.

(** The scan as the code has it.  With [s] the first start marker and [e]
    the first end marker of the buffer: the example scripts cut a frame out
    exactly when both exist and [s < e], the frame being the bytes [s]
    through [e + 1]; the buffer is local to the call, so nothing is kept.
    The server script, when both exist and [s < e], cuts out the same bytes
    and keeps exactly the bytes after the end marker.  With one of the
    markers absent neither script cuts out a frame.  The frame that
    [get_frame_from_stream] returns is the decoding of the bytes cut out
    after the first read that completes them. *)
Theorem frame_extraction_first_markers {C : Type} `{OpenCV C}
  (bytes_data : list byte) :
  (forall jpeg,
     scan_frame bytes_data = Some jpeg <->
     exists s e pre post,
       first_marker SOI bytes_data s /\ first_marker EOI bytes_data e /\
       s < e /\
       bytes_data = pre ++ jpeg ++ post /\
       Z.of_nat (List.length pre) = s /\
       Z.of_nat (List.length jpeg) = e + 2 - s) /\
  (forall s e,
     first_marker SOI bytes_data s -> first_marker EOI bytes_data e ->
     s < e ->
     exists pre jpg rest,
       server_scan bytes_data = Some (jpg, rest) /\
       bytes_data = pre ++ jpg ++ rest /\
       Z.of_nat (List.length pre) = s /\
       Z.of_nat (List.length jpg) = e + 2 - s) /\
  ((forall i, ~ marker_at SOI bytes_data i) \/
   (forall i, ~ marker_at EOI bytes_data i) ->
   scan_frame bytes_data = None /\ server_scan bytes_data = None) /\
  (forall chunk rest buf s0,
     chunk <> [] -> bytes_data = buf ++ chunk ->
     result (read_until_frame (Chunk chunk :: rest) buf s0) =
     match scan_frame bytes_data with
     | Some jpeg => Returned (imdecode jpeg)
     | None => result (read_until_frame rest bytes_data s0)
     end).
Proof.
  split; [|split; [|split]].
  - intros jpeg. split.
    + rewrite scan_frame_some. intros (Hs & Hlt & ->).
      set (s := find bytes_data SOI) in *. set (e := find bytes_data EOI) in *.
      assert (Hfs : first_marker SOI bytes_data s) by (apply find_first; auto).
      assert (Hfe : first_marker EOI bytes_data e)
        by (apply find_first; [lia | auto]).
      pose proof (marker_at_end _ _ _ (proj1 Hfe)) as Hend.
      cbn [List.length EOI] in Hend.
      destruct (slice_cut bytes_data s (e + 2)) as (Hcut & Hl1 & Hl2); try lia.
      exists s, e, (firstn (Z.to_nat s) bytes_data),
        (slice_from bytes_data (e + 2)).
      repeat split; try apply Hfs; try apply Hfe; auto.
    + intros (s & e & pre & post & Hfs & Hfe & Hlt & Hcut & Hl1 & Hl2).
      apply first_marker_find in Hfs, Hfe.
      destruct Hfs as [Hs Hs0], Hfe as [He He0].
      apply scan_frame_some. rewrite Hs, He. repeat split; try lia.
      rewrite Hcut. symmetry. now apply slice_of_cut.
  - intros s e Hfs Hfe Hlt.
    pose proof (marker_at_end _ _ _ (proj1 Hfe)) as Hend.
    cbn [List.length EOI] in Hend.
    apply first_marker_find in Hfs, Hfe.
    destruct Hfs as [Hs Hs0], Hfe as [He He0].
    destruct (slice_cut bytes_data s (e + 2)) as (Hcut & Hl1 & Hl2); try lia.
    exists (firstn (Z.to_nat s) bytes_data), (slice bytes_data s (e + 2)),
      (slice_from bytes_data (e + 2)).
    repeat split; auto.
    rewrite <- Hs, <- He. apply server_scan_some; lia.
  - intros [Hno | Hno]; apply find_absent in Hno;
      apply (scans_none bytes_data); auto.
  - intros chunk rest buf s0 Hne ->. cbn [read_until_frame].
    destruct chunk as [|b chunk]; [congruence|]. cbn [is_empty].
    destruct (scan_frame (buf ++ b :: chunk)); reflexivity.
Qed.

(** The bytes that the example scripts cut out are never empty, so that
    [cv2.imdecode] does not raise on them: it answers as the decoder does. *)
Lemma scan_frame_decodes {C : Type} `{OpenCV C} (bs jpeg : list byte) :
  scan_frame bs = Some jpeg -> cv2_imdecode jpeg = ret (imdecode jpeg).
Proof.
  rewrite scan_frame_some. intros (Hs & Hlt & ->).
  assert (Hfe : first_marker EOI bs (find bs EOI))
    by (apply find_first; [lia | reflexivity]).
  pose proof (marker_at_end _ _ _ (proj1 Hfe)) as Hend.
  cbn [List.length EOI] in Hend.
  destruct (slice_cut bs (find bs SOI) (find bs EOI + 2)) as (_ & _ & Hlen);
    try lia.
  unfold cv2_imdecode.
  destruct (slice bs (find bs SOI) (find bs EOI + 2)); [cbn in Hlen; lia|].
  reflexivity.
Qed.

(** A buffer that opens with a stray end marker: a start marker lies before
    an end marker (indices 2 and 5), yet the example scripts cut nothing
    out, because [find] gives the end marker at index 0. *)
Lemma scan_frame_stray_end_marker :
  ~ extracts_iff_marker_pair scan_frame [xff; xd9; xff; xd8; x00; xff; xd9].
Proof.
  intros [_ Hback].
  destruct Hback as [jpeg Hj]; [|discriminate Hj].
  exists 2, 5. repeat split; try lia.
  - exists [xff; xd9], [x00; xff; xd9]. now split.
  - exists [xff; xd9; xff; xd8; x00], []. now split.
Qed.

(** On the same kind of buffer the server script, which does not compare the
    two indices, cuts out an empty slice although no start marker lies
    before an end marker. *)
Lemma server_scan_stray_end_marker :
  server_scan [xff; xd9; xff; xd8] = Some ([], [xff; xd8]) /\
  ~ (exists s e, marker_at SOI [xff; xd9; xff; xd8] s /\
                 marker_at EOI [xff; xd9; xff; xd8] e /\ s < e).
Proof.
  split; [reflexivity|].
  intros (s & e & Hs & He & Hlt).
  assert (Hstart : find [xff; xd9; xff; xd8] SOI = 2) by reflexivity.
  apply find_first in Hstart; [|lia]. destruct Hstart as [_ Hlow].
  apply Hlow in Hs.
  pose proof (marker_at_end _ _ _ He) as Hend. cbn in Hend. lia.
Qed.

Lemma frame_extraction_first_markers_witness :
  scan_frame [x00; xff; xd8; x01; xff; xd9; x02] = Some [xff; xd8; x01; xff; xd9] /\
  exists pre jpg rest,
    server_scan [x00; xff; xd8; x01; xff; xd9; x02] = Some (jpg, rest) /\
    [x00; xff; xd8; x01; xff; xd9; x02] = pre ++ jpg ++ rest /\
    Z.of_nat (List.length pre) = 1 /\
    Z.of_nat (List.length jpg) = 4 + 2 - 1.
Proof.
  pose proof (@frame_extraction_first_markers Q (sample_cv [] [])
                [x00; xff; xd8; x01; xff; xd9; x02]) as (Hex & Hsrv & _).
  assert (Hs : first_marker SOI [x00; xff; xd8; x01; xff; xd9; x02] 1)
    by (apply find_first; [lia | reflexivity]).
  assert (He : first_marker EOI [x00; xff; xd8; x01; xff; xd9; x02] 4)
    by (apply find_first; [lia | reflexivity]).
  split.
  - apply Hex. exists 1, 4, [x00], [x02]. repeat split; try apply Hs; try apply He; lia.
  - apply (Hsrv 1 4 Hs He). lia.
Defined.

(** ** FrameSource: errors (C9) *)

Lemma no_frame_in_tail (buf chunk : list byte) (chunks : list (list byte)) :
  no_frame_in buf (chunk :: chunks) ->
  scan_frame (buf ++ chunk) = None /\ no_frame_in (buf ++ chunk) chunks.
Proof.
  intros Hno. split.
  - specialize (Hno 1%nat). cbn in Hno. now rewrite app_nil_r in Hno.
  - intros k. specialize (Hno (S k)). cbn in Hno. now rewrite <- app_assoc.
Qed.

Section ReadLoop.
Context {C : Type} `{OpenCV C}.

Lemma read_until_frame_cases (reads : list read_result) (buf : list byte)
  (s0 : state) :
  (exists image,
     read_until_frame reads buf s0 = ([StreamClose], s0, Returned image)) \/
  (exists e, In (ReadRaises e) reads /\
             read_until_frame reads buf s0 = ([], s0, Raised e)).
Proof.
  revert buf. induction reads as [|r reads IH]; intros buf.
  - left. now exists None.
  - destruct r as [chunk | e].
    + cbn [read_until_frame]. destruct chunk as [|b chunk]; cbn [is_empty].
      * left. now exists None.
      * destruct (scan_frame (buf ++ b :: chunk)) as [jpeg|].
        -- left. now exists (imdecode jpeg).
        -- destruct (IH (buf ++ b :: chunk)) as [Hret | (e & Hin & Hraise)].
           ++ now left.
           ++ right. exists e. split; [now right | exact Hraise].
    + right. exists e. split; [now left | reflexivity].
Qed.

Lemma read_until_frame_end (chunks : list (list byte)) (buf : list byte)
  (s0 : state) :
  no_frame_in buf chunks ->
  read_until_frame (map Chunk chunks) buf s0 = ([StreamClose], s0, Returned None).
Proof.
  revert buf. induction chunks as [|chunk chunks IH]; intros buf Hno.
  - reflexivity.
  - cbn [map read_until_frame]. destruct chunk as [|b chunk]; [reflexivity|].
    cbn [is_empty]. apply no_frame_in_tail in Hno. destruct Hno as [-> Hno].
    now apply IH.
Qed.

Lemma read_until_frame_error (chunks : list (list byte)) (e : exn)
  (rest : list read_result) (buf : list byte) (s0 : state) :
  Forall (fun chunk => chunk <> []) chunks ->
  no_frame_in buf chunks ->
  read_until_frame (map Chunk chunks ++ ReadRaises e :: rest) buf s0 =
  ([], s0, Raised e).
Proof.
  revert buf. induction chunks as [|chunk chunks IH]; intros buf Hne Hno.
  - reflexivity.
  - inversion Hne as [|? ? Hc Hcs]; subst.
    cbn [map app read_until_frame]. destruct chunk as [|b chunk]; [congruence|].
    cbn [is_empty]. apply no_frame_in_tail in Hno. destruct Hno as [-> Hno].
    now apply IH.
Qed.

End ReadLoop.

(** C9, as the code has it.  [get_frame_from_stream] lets no error of class
    [Exception] out: when [urlopen] or a read raises one, it prints the cause
    and returns [None]; when the stream ends before a frame is complete it
    returns [None] as well, closing the stream without printing anything. *)
Theorem get_frame_from_stream_absorbs_errors {C : Type} `{OpenCV C}
  (c : connection) (s0 : state) :
  ((forall e, raised_by c e -> is_Exception e = true) ->
   exists t image, get_frame_from_stream c s0 = (t, s0, Returned image)) /\
  (forall e, c = OpenRaises e -> is_Exception e = true ->
   get_frame_from_stream c s0 =
   ([Printed (MsgFrameError e)], s0, Returned None)) /\
  (forall chunks e rest,
     c = Opened (map Chunk chunks ++ ReadRaises e :: rest) ->
     is_Exception e = true ->
     Forall (fun chunk => chunk <> []) chunks -> no_frame_in [] chunks ->
     get_frame_from_stream c s0 =
     ([StreamOpen; Printed (MsgFrameError e)], s0, Returned None)) /\
  (forall chunks,
     c = Opened (map Chunk chunks) -> no_frame_in [] chunks ->
     get_frame_from_stream c s0 =
     ([StreamOpen; StreamClose], s0, Returned None)).
Proof.
  split; [|split; [|split]].
  - intros Hexc. destruct c as [e | reads].
    + exists [Printed (MsgFrameError e)], None.
      unfold get_frame_from_stream, try_, raise. cbn [handle].
      rewrite (Hexc e eq_refl). reflexivity.
    + unfold get_frame_from_stream, try_, bind, emit.
      destruct (read_until_frame_cases reads [] s0)
        as [(image & ->) | (e & Hin & ->)].
      * now exists [StreamOpen; StreamClose], image.
      * exists [StreamOpen; Printed (MsgFrameError e)], None.
        cbn [handle]. rewrite (Hexc e Hin). reflexivity.
  - intros e -> He. unfold get_frame_from_stream, try_, raise. cbn [handle].
    rewrite He. reflexivity.
  - intros chunks e rest -> He Hne Hno.
    unfold get_frame_from_stream, try_, bind, emit.
    rewrite (read_until_frame_error chunks e rest [] s0 Hne Hno).
    cbn [handle app]. rewrite He. reflexivity.
  - intros chunks -> Hno. unfold get_frame_from_stream, try_, bind, emit.
    rewrite (read_until_frame_end chunks [] s0 Hno). reflexivity.
Qed.

(** A stream that ends at once: [None] comes back, and no cause is printed. *)
Lemma end_of_stream_prints_nothing :
  ~ (result (@get_frame_from_stream Q (sample_cv [] []) (Opened []) initial_state)
       = Returned None /\
     logs_cause
       (trace (@get_frame_from_stream Q (sample_cv [] []) (Opened []) initial_state))).
Proof.
  intros [_ [e Hin]]. cbn in Hin.
  destruct Hin as [Hin | [Hin | []]]; discriminate Hin.
Qed.

Lemma get_frame_from_stream_absorbs_errors_witness :
  (exists t image,
     @get_frame_from_stream Q (sample_cv [] [])
       (Opened [Chunk [xff; xd8]; ReadRaises SocketTimeout]) initial_state =
     (t, initial_state, Returned image)) /\
  @get_frame_from_stream Q (sample_cv [] []) (OpenRaises URLError) initial_state =
  ([Printed (MsgFrameError URLError)], initial_state, Returned None).
Proof.
  split.
  - apply (@get_frame_from_stream_absorbs_errors Q (sample_cv [] [])).
    intros e [Hin | [Hin | []]]; [discriminate Hin|].
    injection Hin as <-. reflexivity.
  - apply (@get_frame_from_stream_absorbs_errors Q (sample_cv [] [])
             (OpenRaises URLError) initial_state); reflexivity.
Defined.

(** ** FrameSource: a frame behind a stray end marker (C1) *)

Lemma starts_with_app (m xs more : list byte) :
  starts_with m xs = true -> starts_with m (xs ++ more) = true.
Proof.
  rewrite !starts_with_prefix. intros [post ->]. exists (post ++ more).
  now rewrite app_assoc.
Qed.

Lemma starts_with_within (m xs more : list byte) :
  (List.length m <= List.length xs)%nat ->
  starts_with m (xs ++ more) = true -> starts_with m xs = true.
Proof.
  revert xs. induction m as [|a m IH]; intros xs Hlen; [reflexivity|].
  destruct xs as [|x xs]; [cbn in Hlen; lia|].
  cbn [app starts_with]. rewrite !andb_true_iff. intros [Hax Hm].
  split; [exact Hax|]. apply IH; [cbn in Hlen; lia | exact Hm].
Qed.

(** Bytes that arrive later do not move an occurrence of a marker... *)
Lemma marker_at_app (m bs more : list byte) (i : Z) :
  marker_at m bs i -> marker_at m (bs ++ more) i.
Proof.
  intros (pre & post & -> & Hi). exists pre, (post ++ more). split.
  - now rewrite <- !app_assoc.
  - exact Hi.
Qed.

(** ...and do not add one inside the bytes already there. *)
Lemma marker_at_within (m bs more : list byte) (i : Z) :
  marker_at m (bs ++ more) i ->
  i + Z.of_nat (List.length m) <= Z.of_nat (List.length bs) ->
  marker_at m bs i.
Proof.
  intros Hm Hend. pose proof (marker_at_nonneg _ _ _ Hm) as Hi.
  rewrite <- (Z2Nat.id i Hi) in Hm |- *.
  apply marker_at_skipn in Hm. destruct Hm as [_ Hm].
  apply marker_at_skipn. split; [lia|].
  rewrite skipn_app in Hm.
  replace (Z.to_nat i - List.length bs)%nat with 0%nat in Hm by lia.
  cbn [skipn] in Hm.
  apply (starts_with_within m _ more); [|exact Hm].
  rewrite length_skipn. lia.
Qed.

(** Once the first end marker of the buffer lies before every start marker,
    the scan of the example scripts cuts nothing out any more, whatever
    bytes arrive: [find] keeps giving that end marker, and the buffer is
    never trimmed. *)
Lemma scan_frame_blocked (buf more : list byte) (e : Z) :
  first_marker EOI buf e ->
  (forall s, marker_at SOI buf s -> e < s) ->
  scan_frame (buf ++ more) = None.
Proof.
  intros [He Hfirst] Hlate.
  destruct (scan_frame (buf ++ more)) as [jpeg|] eqn:Hscan; [|reflexivity].
  exfalso. apply scan_frame_some in Hscan. destruct Hscan as (Hs0 & Hlt & _).
  destruct (find_range EOI (buf ++ more)) as [Hno | He0].
  - apply (proj1 (find_absent EOI (buf ++ more)) Hno e).
    now apply marker_at_app.
  - assert (Hfe : first_marker EOI (buf ++ more) (find (buf ++ more) EOI))
      by now apply find_first.
    assert (Hfs : first_marker SOI (buf ++ more) (find (buf ++ more) SOI))
      by now apply find_first.
    pose proof (proj2 Hfe e (marker_at_app _ _ more _ He)) as Hle.
    pose proof (marker_at_end _ _ _ He) as Hend. cbn [List.length EOI] in Hend.
    assert (Hin : marker_at SOI buf (find (buf ++ more) SOI)).
    { apply (marker_at_within SOI buf more); [apply Hfs|].
      cbn [List.length SOI]. lia. }
    apply Hlate in Hin. lia.
Qed.

Lemma no_frame_after_stray_end_marker (first : list byte)
  (chunks : list (list byte)) (e : Z) :
  first_marker EOI first e ->
  (forall s, marker_at SOI first s -> e < s) ->
  no_frame_in [] (first :: chunks).
Proof.
  intros He Hlate [|k].
  - reflexivity.
  - cbn [firstn List.concat app]. now apply (scan_frame_blocked first _ e).
Qed.

(** C1 on a stream whose first read ends a frame that began before the
    connection: the buffer then opens with an end marker.  When the next
    read delivers a whole JPEG, a start marker lies before an end marker in
    the buffer (indices 2 and 5), yet nothing is cut out and the call
    returns [None]; the same JPEG alone is cut out and decoded.  However
    many reads follow and whatever they deliver, the call returns no frame:
    the end marker is searched from the beginning of a buffer that is never
    trimmed. *)
Theorem frame_lost_behind_stray_end_marker {C : Type} `{OpenCV C}
  (chunks : list (list byte)) (s0 : state) :
  (exists s e,
     marker_at SOI (stray_end_chunk ++ jpeg_chunk) s /\
     marker_at EOI (stray_end_chunk ++ jpeg_chunk) e /\ s < e) /\
  scan_frame (stray_end_chunk ++ jpeg_chunk) = None /\
  get_frame_from_stream (Opened [Chunk stray_end_chunk; Chunk jpeg_chunk]) s0 =
  ([StreamOpen; StreamClose], s0, Returned None) /\
  get_frame_from_stream (Opened [Chunk jpeg_chunk]) s0 =
  ([StreamOpen; StreamClose], s0, Returned (imdecode jpeg_chunk)) /\
  get_frame_from_stream (Opened (map Chunk (stray_end_chunk :: chunks))) s0 =
  ([StreamOpen; StreamClose], s0, Returned None).
Proof.
  split; [|split; [reflexivity | split; [reflexivity | split;
                                                      [reflexivity|]]]].
  - exists 2, 5. split; [|split; [|lia]].
    + exists [xff; xd9], [x00; xff; xd9]. now split.
    + exists [xff; xd9; xff; xd8; x00], []. now split.
  - unfold get_frame_from_stream, try_, bind, emit.
    rewrite (read_until_frame_end (stray_end_chunk :: chunks) [] s0);
      [reflexivity|].
    apply (no_frame_after_stray_end_marker stray_end_chunk chunks 0).
    + apply find_first; [lia | reflexivity].
    + intros s Hs. pose proof (marker_at_nonneg _ _ _ Hs) as Hs0.
      destruct (Z.eq_dec s 0) as [-> | Hne]; [|lia].
      destruct Hs as (pre & post & Heq & Hlen).
      destruct pre; [discriminate Heq | discriminate Hlen].
Qed.

(** In the server script the same buffer makes the scan cut out an empty
    slice, on which [cv2.imdecode] raises: the connection attempt ends with
    the sleep of 5 seconds, and the frame is lost as well. *)
Lemma server_attempt_stray_end_marker {C : Type} `{OpenCV C}
  (rest : list ServerLoop.server_read) (s0 : state) :
  ServerLoop.attempt None
    ({| ServerLoop.the_read := Chunk (stray_end_chunk ++ jpeg_chunk);
        ServerLoop.answer := Responds ok_response;
        ServerLoop.nap := None |} :: rest) s0 =
  ([StreamOpen; Sleep 5], s0, Returned tt).
Proof. reflexivity. Qed.

(** ** Reporter (C8) *)

(** The clause any error of class [Exception] ends in. *)
Lemma log_clauses_catch (e : exn) (s : state) :
  is_Exception e = true ->
  exists m, handle log_clauses e s = ([Printed m], s, Returned false) /\
    m = (if is_requests_Timeout e then MsgLogTimeout
         else if is_requests_ConnectionError e then MsgLogConnection
         else MsgLogError e).
Proof.
  intros He. cbn [handle log_clauses].
  destruct (is_requests_Timeout e); [eexists; split; reflexivity|].
  destruct (is_requests_ConnectionError e); [eexists; split; reflexivity|].
  rewrite He. eexists; split; reflexivity.
Qed.

(** What the body of [log_detection] does, by the answer of the server. *)
Lemma post_and_classify_cases (data : AnalyticsEvent) (net : post_result)
  (s : state) :
  match net with
  | PostRaises e => post_and_classify data net s = ([Post data], s, Raised e)
  | Responds r =>
      if status_code r =? 200 then
        match json_body r with
        | Some (JObject fields) =>
            post_and_classify data net s =
            ([Post data;
              Printed (MsgLogged (match lookup "id" fields with
                                  | Some v => v
                                  | None => "unknown"%string
                                  end))], s, Returned true)
        | Some JOther =>
            post_and_classify data net s = ([Post data], s, Raised AttributeError)
        | None =>
            post_and_classify data net s = ([Post data], s, Raised ValueError)
        end
      else
        exists m, post_and_classify data net s =
          ([Post data; Printed (MsgHttpFailed (status_code r)); Printed m],
           s, Returned false)
  end.
Proof.
  destruct net as [r | e]; [|reflexivity].
  unfold post_and_classify, requests_post, bind, emit, ret.
  destruct (status_code r =? 200) eqn:E.
  - unfold response_json. destruct (json_body r) as [[fields|]|]; reflexivity.
  - unfold try_, response_json.
    destruct (json_body r) as [[fields|]|]; cbn; eexists; reflexivity.
Qed.

Lemma example_log_detection_contract (data : AnalyticsEvent) :
  example_reporter_contract
    (fun net => try_ (post_and_classify data net) log_clauses).
Proof.
  intros net s0. pose proof (post_and_classify_cases data net s0) as Hc.
  unfold try_, printed, result, trace.
  split; [|split; [|split; [|split; [|split; [|split]]]]].
  - intros Hexc. destruct net as [r | e].
    + destruct (status_code r =? 200).
      * destruct (json_body r) as [[fields|]|]; rewrite Hc; cbn; eauto.
      * destruct Hc as [m ->]. eauto.
    + rewrite Hc.
      destruct (log_clauses_catch e s0 (Hexc e eq_refl)) as (m & -> & _).
      eauto.
  - intros r fields -> Hok Hjson.
    rewrite (proj2 (Z.eqb_eq _ _) Hok), Hjson in Hc. rewrite Hc.
    split; [reflexivity | cbn; auto].
  - intros r -> Hok Hjson. rewrite (proj2 (Z.eqb_eq _ _) Hok) in Hc.
    destruct (json_body r) as [[fields|]|]; [now destruct (Hjson fields)| |];
      rewrite Hc; (split; [reflexivity | cbn; eexists; eauto]).
  - intros r -> Hstatus. rewrite (proj2 (Z.eqb_neq _ _) Hstatus) in Hc.
    destruct Hc as [m ->]. split; [reflexivity | cbn; auto].
  - intros ->. rewrite Hc. split; [reflexivity | cbn; auto].
  - intros ->. rewrite Hc. split; [reflexivity | cbn; auto].
  - intros e -> He Ht Hn. rewrite Hc. cbn [handle log_clauses].
    rewrite Ht, Hn, He. split; [reflexivity | cbn; auto].
Qed.

Lemma server_log_detection_contract (count : Z) (conf : Q) :
  server_reporter_contract (fun net => ServerScript.log_detection net count conf).
Proof.
  intros net s0.
  unfold ServerScript.log_detection, try_, requests_post, bind, emit, ret, raise,
    printed, trace.
  split; [|split; [|split]].
  - intros Hexc. destruct net as [r | e].
    + destruct (status_code r =? 200); cbn; eauto.
    + cbn [handle]. rewrite (Hexc e eq_refl). cbn. eauto.
  - intros r -> Hr. rewrite (proj2 (Z.eqb_eq _ _) Hr). cbn. auto.
  - intros r -> Hr. rewrite (proj2 (Z.eqb_neq _ _) Hr). cbn. auto.
  - intros e -> He. cbn [handle]. rewrite He. cbn. auto.
Qed.

(** C8, as the code has it.  No error of class [Exception] leaves
    [log_detection].  In the example scripts a 200 answer whose body is a
    JSON object gives [True] (the id printed is ["unknown"] when the object
    has none); any other status gives [False] after the status is printed; a
    timeout and a connection error give [False] after their own message;
    any other exception gives [False] after the exception is printed, and
    this is also where a 200 answer ends whose body is not a JSON object.
    The server script returns nothing; it prints the success line on status
    200, the status otherwise, and the exception when one is raised. *)
Theorem log_detection_outcomes (count : Z) (conf level : Q) :
  example_reporter_contract
    (fun net => FaceDetector.log_detection net count conf) /\
  example_reporter_contract
    (fun net => MotionDetector.log_detection net level count) /\
  server_reporter_contract
    (fun net => ServerScript.log_detection net count conf).
Proof.
  split; [|split].
  - apply example_log_detection_contract.
  - apply example_log_detection_contract.
  - apply server_log_detection_contract.
Qed.

Lemma ok_without_json_is_failure :
  result (FaceDetector.log_detection (Responds ok_without_json) 1 (8 # 10)
            initial_state) = Returned false /\
  ~ ok_is_success (fun net => FaceDetector.log_detection net 1 (8 # 10)).
Proof.
  split; [reflexivity|].
  intros Hok. specialize (Hok ok_without_json initial_state eq_refl).
  discriminate Hok.
Qed.

Lemma log_detection_outcomes_witness :
  result (FaceDetector.log_detection
            (Responds {| status_code := 200; json_body := Some (JObject []);
                         text := "{}" |}) 1 (8 # 10) initial_state)
  = Returned true /\
  result (FaceDetector.log_detection
            (Responds {| status_code := 500; json_body := None;
                         text := "oops" |}) 1 (8 # 10) initial_state)
  = Returned false /\
  result (MotionDetector.log_detection (PostRaises RequestsTimeout) 6000 2
            initial_state)
  = Returned false /\
  exists t, ServerScript.log_detection (PostRaises OtherException) 1 (8 # 10)
              initial_state = (t, initial_state, Returned tt).
Proof.
  pose proof (log_detection_outcomes 1 (8 # 10) 6000) as (Hface & _ & Hsrv).
  pose proof (log_detection_outcomes 2 (8 # 10) 6000) as (_ & Hmotion & _).
  split; [|split; [|split]].
  - destruct (Hface (Responds {| status_code := 200;
                                 json_body := Some (JObject []);
                                 text := "{}" |}) initial_state)
      as (_ & Hack & _).
    exact (proj1 (Hack _ [] eq_refl eq_refl eq_refl)).
  - destruct (Hface (Responds {| status_code := 500; json_body := None;
                                 text := "oops" |}) initial_state)
      as (_ & _ & _ & Hrej & _).
    refine (proj1 (Hrej _ eq_refl _)). cbn. discriminate.
  - destruct (Hmotion (PostRaises RequestsTimeout) initial_state)
      as (_ & _ & _ & _ & Htimeout & _).
    exact (proj1 (Htimeout eq_refl)).
  - destruct (Hsrv (PostRaises OtherException) initial_state) as (Hret & _).
    apply Hret. intros e He. injection He as <-. reflexivity.
Defined.

(** ** Face detector: the confidence heuristic (C2) *)

Lemma py_min_Qmin (a b : Q) : py_min a b = Qmin a b.
Proof.
  unfold py_min, Qmin, GenericMinMax.gmin. rewrite <- Qcompare_antisym.
  destruct (a ?= b)%Q; reflexivity.
Qed.

Lemma int32_fits (z : Z) :
  -2147483648 <= z <= 2147483647 -> int32 z = z.
Proof. intros Hz. unfold int32. rewrite Z.mod_small; lia. Qed.

(** The areas of boxes that fit are computed without wrapping. *)
Lemma int32_areas_fit (faces : list Rect) :
  Forall area_fits faces -> map int32_area faces = map box_area faces.
Proof.
  induction 1 as [|r faces Hr _ IH]; [reflexivity|].
  cbn [map]. rewrite IH. unfold int32_area, box_area.
  now rewrite (int32_fits _ Hr).
Qed.

(** A box inside a frame of at most 2147483647 pixels fits. *)
Lemma box_inside_frame_fits (image : Image) (r : Rect) :
  0 <= rect_w r <= shape1 image -> 0 <= rect_h r <= shape0 image ->
  shape0 image * shape1 image <= 2147483647 ->
  area_fits r.
Proof. intros Hw Hh Harea. unfold area_fits. nia. Qed.

Section FaceConfidence.
Context {C : Type} `{OpenCV C}.

(** The two ways [detect_faces] ends. *)
Lemma detect_faces_cases (image : Image) (s0 : state) :
  match detectMultiScale (cvtColor_gray image) with
  | Some faces =>
      FaceDetector.detect_faces image s0 =
      ([], s0,
       Returned
         (Z.of_nat (List.length faces),
          match faces with
          | [] => 0%Q
          | _ :: _ =>
              py_min (9 # 10)
                ((5 # 10) +
                 (FaceDetector.mean (map int32_area faces) /
                  inject_Z (shape0 image * shape1 image)) * 2)%Q
          end,
          faces))
  | None =>
      FaceDetector.detect_faces image s0 =
      ([Printed (MsgDetectError CvError)], s0, Returned (0, 0%Q, []))
  end.
Proof.
  unfold FaceDetector.detect_faces, try_, bind, cv.
  destruct (detectMultiScale (cvtColor_gray image)) as [faces|]; [|reflexivity].
  destruct faces as [|r faces]; reflexivity.
Qed.

End FaceConfidence.

Lemma full_frame_ratio (a : Z) :
  (0 < a)%Z ->
  ((5 # 10) + (FaceDetector.mean [inject_Z a] / inject_Z a) * 2 == 5 # 2)%Q.
Proof.
  intros Ha. unfold FaceDetector.mean. cbn [fold_right List.length Z.of_nat].
  assert (Hnz : ~ (inject_Z a == 0)%Q).
  { unfold Qeq, inject_Z. cbn. lia. }
  field. exact Hnz.
Qed.

(** C2.  When the classifier answers [faces] on a frame, [detect_faces]
    returns their number and a confidence that is [0] for no box and, for
    one box or more on a frame of positive area,
    [min(0.9, 0.5 + 2 * mean(w * h) / (rows * columns))]; one box as wide and
    as high as the frame gives exactly [0.9].  The script multiplies [w] by
    [h] on [int32] values: the formula is that of the areas as long as they
    are within the range of an [int32], at most 2147483647 pixels, as they
    are for every box inside a frame of that many pixels at most. *)
Theorem face_confidence {C : Type} `{OpenCV C} (image : Image)
  (faces : list Rect) (s0 : state) :
  detectMultiScale (cvtColor_gray image) = Some faces ->
  exists conf : Q,
    FaceDetector.detect_faces image s0 =
    ([], s0, Returned (Z.of_nat (List.length faces), conf, faces)) /\
    (faces = [] -> conf = 0%Q) /\
    (faces <> [] ->
     0 < shape0 image * shape1 image ->
     Forall area_fits faces ->
     (conf == Qmin (9 # 10)
               ((5 # 10) +
                2 * FaceDetector.mean (map box_area faces) /
                inject_Z (shape0 image * shape1 image)))%Q) /\
    (forall r,
       faces = [r] ->
       rect_w r = shape1 image -> rect_h r = shape0 image ->
       0 < shape0 image * shape1 image <= 2147483647 ->
       (conf == 9 # 10)%Q).
Proof.
  intros Hfaces. pose proof (detect_faces_cases image s0) as Hc.
  rewrite Hfaces in Hc. eexists. split; [exact Hc|].
  split; [|split].
  - intros ->. reflexivity.
  - intros Hne _ Hfit. destruct faces as [|r faces]; [congruence|].
    rewrite (int32_areas_fit _ Hfit).
    rewrite py_min_Qmin. apply Q.min_compat; [reflexivity|].
    unfold Qdiv. ring.
  - intros r -> Hw Hh Hpos. rewrite py_min_Qmin.
    cbn [map]. unfold int32_area.
    rewrite Hw, Hh, (Z.mul_comm (shape1 image)), int32_fits by lia.
    rewrite (Q.min_compat _ _ (Qeq_refl (9 # 10)) _ _
               (full_frame_ratio _ (proj1 Hpos))).
    reflexivity.
Qed.

Lemma face_confidence_witness :
  exists conf : Q,
    @FaceDetector.detect_faces Q
      (sample_cv [{| rect_x := 0; rect_y := 0; rect_w := 640; rect_h := 480 |}] [])
      {| shape0 := 480; shape1 := 640; pixels := [] |} initial_state =
    ([], initial_state, Returned (1, conf, [{| rect_x := 0; rect_y := 0; rect_w := 640; rect_h := 480 |}])) /\
    (conf == Qmin (9 # 10)
               ((5 # 10) +
                2 * FaceDetector.mean
                      (map box_area
                         [{| rect_x := 0; rect_y := 0; rect_w := 640; rect_h := 480 |}]) /
                inject_Z (480 * 640)))%Q /\
    (conf == 9 # 10)%Q.
Proof.
  destruct (@face_confidence Q
              (sample_cv [{| rect_x := 0; rect_y := 0; rect_w := 640; rect_h := 480 |}] [])
              {| shape0 := 480; shape1 := 640; pixels := [] |}
              [{| rect_x := 0; rect_y := 0; rect_w := 640; rect_h := 480 |}]
              initial_state eq_refl)
    as (conf & Hrun & _ & Hformula & Hfull).
  exists conf. split; [exact Hrun|]. split.
  - apply Hformula.
    + discriminate.
    + reflexivity.
    + constructor; [|constructor]. unfold area_fits. cbn. lia.
  - apply (Hfull _ eq_refl eq_refl eq_refl). cbn. lia.
Defined.

(** Beyond that range the product wraps around: a box of 50000 by 50000
    pixels that covers its frame has the [int32] area -1794967296, and the
    confidence is negative. *)
Lemma face_confidence_int32_wraps :
  let box := {| rect_x := 0; rect_y := 0; rect_w := 50000; rect_h := 50000 |} in
  exists conf : Q,
    @FaceDetector.detect_faces Q (sample_cv [box] [])
      {| shape0 := 50000; shape1 := 50000; pixels := [] |} initial_state =
    ([], initial_state, Returned (1, conf, [box])) /\
    (conf == - (18280739 # 19531250))%Q /\ ~ area_fits box.
Proof.
  cbv zeta. eexists. split; [reflexivity|]. split.
  - vm_compute. reflexivity.
  - unfold area_fits. cbn. lia.
Qed.

(** ** Motion detector: the previous frame (C4, C5) *)

Section MotionDetection.
Context {C : Type} `{OpenCV C}.

(** The ways [detect_motion] ends. *)
Lemma detect_motion_cases (frame : Image) (s0 : state) :
  MotionDetector.detect_motion frame s0 =
  match previous_frame s0 with
  | None =>
      ([], with_previous_frame s0 (blurred frame), Returned (false, 0%Q, []))
  | Some previous =>
      match compared previous (blurred frame) with
      | Some contours =>
          let '(motion_level, significant_contours) :=
            MotionDetector.significant contours 0%Q [] in
          ([], with_previous_frame s0 (blurred frame),
           Returned (Qgt_bool motion_level MotionDetector.MOTION_THRESHOLD,
                     motion_level, significant_contours))
      | None =>
          ([Printed (MsgDetectError CvError)], s0, Returned (false, 0%Q, []))
      end
  end.
Proof.
  unfold MotionDetector.detect_motion, compared, blurred, try_, bind, get, cv.
  destruct (previous_frame s0) as [previous|]; [|reflexivity].
  destruct (MotionDetector.absdiff previous _) as [frame_delta|]; [|reflexivity].
  cbn. destruct (dilate _ _) as [thresh|]; [|reflexivity].
  cbn. destruct (findContours thresh) as [contours|]; [|reflexivity].
  cbn. destruct (MotionDetector.significant contours 0%Q []) as [level sig].
  reflexivity.
Qed.

End MotionDetection.

(** C4.  With no previous frame stored, [detect_motion] returns
    [(False, 0, [])] on every frame, prints nothing, and stores the blurred
    grayscale of the frame as the previous frame. *)
Theorem first_frame_never_signals_motion {C : Type} `{OpenCV C}
  (frame : Image) (s0 : state) :
  previous_frame s0 = None ->
  MotionDetector.detect_motion frame s0 =
  ([], with_previous_frame s0 (blurred frame), Returned (false, 0%Q, [])) /\
  previous_frame (final (MotionDetector.detect_motion frame s0)) =
  Some (GaussianBlur (cvtColor_gray frame) MotionDetector.BLUR_SIZE).
Proof.
  intros Hnone. rewrite detect_motion_cases, Hnone. split; reflexivity.
Qed.

Lemma first_frame_never_signals_motion_witness :
  result (@MotionDetector.detect_motion Q (sample_cv [] [6000%Q])
            {| shape0 := 2; shape1 := 2; pixels := [] |} initial_state)
  = Returned (false, 0%Q, []).
Proof.
  exact (f_equal snd
           (proj1 (@first_frame_never_signals_motion Q (sample_cv [] [6000%Q])
                     {| shape0 := 2; shape1 := 2; pixels := [] |}
                     initial_state eq_refl))).
Defined.

(** When every OpenCV call of the comparison succeeds, the previous frame
    becomes the blurred grayscale of the current frame. *)
Lemma previous_frame_updated_after_comparison {C : Type} `{OpenCV C}
  (frame : Image) (s0 : state) (previous : Gray) (contours : list C) :
  previous_frame s0 = Some previous ->
  compared previous (blurred frame) = Some contours ->
  previous_frame (final (MotionDetector.detect_motion frame s0)) =
  Some (blurred frame).
Proof.
  intros Hp Hc. rewrite detect_motion_cases, Hp, Hc.
  destruct (MotionDetector.significant contours 0%Q []). reflexivity.
Qed.

(** When one of them raises, the [except] clause returns before line 115:
    the state is left as it was. *)
Lemma previous_frame_kept_after_error {C : Type} `{OpenCV C}
  (frame : Image) (s0 : state) (previous : Gray) :
  previous_frame s0 = Some previous ->
  compared previous (blurred frame) = None ->
  MotionDetector.detect_motion frame s0 =
  ([Printed (MsgDetectError CvError)], s0, Returned (false, 0%Q, [])).
Proof.
  intros Hp Hc. now rewrite detect_motion_cases, Hp, Hc.
Qed.

(** C5 on a frame whose size differs from the stored one: [cv2.absdiff]
    raises, [detect_motion] prints the error and returns [(False, 0, [])],
    and the stored previous frame is still the old one, not the blurred
    grayscale of the current frame. *)
Theorem previous_frame_kept_after_size_change :
  let s1 := with_previous_frame initial_state stored_2x2 in
  @MotionDetector.detect_motion Q (sample_cv [] []) frame_2x3 s1 =
  ([Printed (MsgDetectError CvError)], s1, Returned (false, 0%Q, [])) /\
  previous_frame
    (final (@MotionDetector.detect_motion Q (sample_cv [] []) frame_2x3 s1)) =
  Some stored_2x2 /\
  Some stored_2x2 <> Some (@blurred Q (sample_cv [] []) frame_2x3).
Proof.
  cbv zeta. split; [reflexivity | split; [reflexivity | discriminate]].
Qed.

(** ** DetectionLoop: error counting (C3) *)

(** How a call of [get_frame_from_stream] can end: the state is untouched,
    nothing is posted, and only an error outside [Exception] gets out. *)
Lemma get_frame_from_stream_shape {C : Type} `{OpenCV C} (c : connection)
  (s : state) :
  exists t r, get_frame_from_stream c s = (t, s, r) /\ posts t = [] /\
    forall e, r = Raised e -> is_Exception e = false.
Proof.
  unfold get_frame_from_stream, try_, bind, emit, raise.
  destruct c as [e | reads].
  - cbn [handle]. destruct (is_Exception e) eqn:E.
    + exists [Printed (MsgFrameError e)], (Returned None).
      repeat split. intros e' He'. discriminate He'.
    + exists [], (Raised e). repeat split. intros e' He'. now injection He' as <-.
  - destruct (read_until_frame_cases reads [] s) as [(image & ->) | (e & _ & ->)].
    + exists [StreamOpen; StreamClose], (Returned image).
      repeat split. intros e' He'. discriminate He'.
    + cbn [handle]. destruct (is_Exception e) eqn:E.
      * exists [StreamOpen; Printed (MsgFrameError e)], (Returned None).
        repeat split. intros e' He'. discriminate He'.
      * exists [StreamOpen], (Raised e). repeat split.
        intros e' He'. now injection He' as <-.
Qed.

Lemma count_error_run (m : Z -> message) (s : state) :
  let n := consecutive_errors s + 1 in
  count_error m s =
  if n >=? max_consecutive_errors
  then ([Printed (m n); Printed (MsgTooManyErrors n)],
        with_consecutive_errors s n, Returned Break)
  else ([Printed (m n)], with_consecutive_errors s n, Returned Continue).
Proof.
  cbv zeta. unfold count_error, set_consecutive_errors, bind, get, put, emit.
  cbn. destruct (consecutive_errors s + 1 >=? max_consecutive_errors); reflexivity.
Qed.

Lemma face_loop_body_pass {C : Type} `{OpenCV C} (it : iteration) :
  FaceLoop.loop_body it =
  pass FaceLoop.process_frame FaceDetector.DETECTION_INTERVAL it.
Proof. reflexivity. Qed.

Lemma motion_loop_body_pass {C : Type} `{OpenCV C} (it : iteration) :
  MotionLoop.loop_body it =
  pass MotionLoop.process_frame MotionDetector.DETECTION_INTERVAL it.
Proof. reflexivity. Qed.

Lemma posts_app (t1 t2 : list event) : posts (t1 ++ t2) = posts t1 ++ posts t2.
Proof. apply filter_app. Qed.

(** The [except] clauses of the loop body take every exception, post
    nothing and never lower the error counter. *)
Lemma loop_clauses_run (e : exn) (s : state) :
  exists t s' c,
    handle loop_clauses e s = (t, s', Returned c) /\
    posts t = [] /\
    consecutive_errors s <= consecutive_errors s' /\
    (c = Continue -> consecutive_errors s' < max_consecutive_errors) /\
    last_motion_log_time s' = last_motion_log_time s.
Proof.
  cbn [handle loop_clauses].
  destruct (is_KeyboardInterrupt e) eqn:Ek.
  - exists [Printed MsgStoppedByUser], s, Break. repeat split; try lia. discriminate.
  - assert (He : is_Exception e = true) by (destruct e; try reflexivity; discriminate Ek).
    rewrite He. unfold bind. rewrite count_error_run.
    destruct (consecutive_errors s + 1 >=? max_consecutive_errors) eqn:E.
    + do 3 eexists. split; [reflexivity|]. cbn. repeat split; try lia. discriminate.
    + do 3 eexists. split; [reflexivity|]. cbn. repeat split; lia.
Qed.

(** A pass in which no frame is acquired: nothing is posted, the counter
    grows, and the pass goes on only below the ceiling. *)
Lemma failed_pass {C : Type} `{OpenCV C}
  (process : Image -> iteration -> M control) (interval : Z) (it : iteration)
  (s : state) (t0 : list event) :
  get_frame_from_stream (conn it) s = (t0, s, Returned None) ->
  posts t0 = [] ->
  exists t s' c,
    pass process interval it s = (t, s', Returned c) /\
    posts t = [] /\
    consecutive_errors s + 1 <= consecutive_errors s' /\
    (c = Continue -> consecutive_errors s' < max_consecutive_errors) /\
    (sleep_raises it = None ->
     s' = with_consecutive_errors s (consecutive_errors s + 1) /\
     c = if consecutive_errors s + 1 >=? max_consecutive_errors
         then Break else Continue).
Proof.
  intros Hfetch Hposts. unfold pass, try_, bind. rewrite Hfetch.
  rewrite count_error_run.
  destruct (consecutive_errors s + 1 >=? max_consecutive_errors) eqn:E.
  - cbn. do 3 eexists. split; [reflexivity|].
    rewrite posts_app, Hposts.
    repeat split; cbn; try lia; try discriminate.
  - unfold end_of_pass, time_sleep, bind, emit.
    destruct (sleep_raises it) as [e|].
    + unfold raise.
      destruct (loop_clauses_run e
                  (with_consecutive_errors s (consecutive_errors s + 1)))
        as (t & s' & c & -> & Hp & Hle & Hc & _).
      do 3 eexists. split; [reflexivity|].
      rewrite !posts_app, Hposts, Hp. cbn in *.
      repeat split; try lia; try assumption; discriminate.
    + cbn. do 3 eexists. split; [reflexivity|].
      rewrite posts_app, Hposts. cbn.
      repeat split; try lia.
Qed.

Lemma acquired_pass {C : Type} `{OpenCV C}
  (process : Image -> iteration -> M control) (interval : Z) (it : iteration)
  (s : state) (t0 : list event) (image : Image) :
  resets_counter process ->
  get_frame_from_stream (conn it) s = (t0, s, Returned (Some image)) ->
  sleep_raises it = None ->
  consecutive_errors (final (pass process interval it s)) = 0.
Proof.
  intros Hreset Hfetch Hsleep. unfold pass, try_, bind. rewrite Hfetch.
  destruct (Hreset image it s) as (t & s' & r & -> & Hzero & Hexc).
  destruct r as [c | e].
  - unfold end_of_pass, time_sleep, bind, emit. rewrite Hsleep.
    destruct c; cbn; exact Hzero.
  - specialize (Hexc e eq_refl). cbn [handle loop_clauses].
    destruct e; try discriminate Hexc. cbn. exact Hzero.
Qed.

(** [log_detection] of the example scripts posts once, leaves the state, and
    lets out no error of class [Exception]. *)
Lemma example_log_shape (data : AnalyticsEvent) (net : post_result) (s : state) :
  exists t r,
    try_ (post_and_classify data net) log_clauses s = (t, s, r) /\
    posts t = [Post data] /\
    forall e, r = Raised e -> is_Exception e = false /\ net = PostRaises e.
Proof.
  pose proof (post_and_classify_cases data net s) as Hc. unfold try_.
  assert (Hraise : forall e,
    post_and_classify data net s = ([Post data], s, Raised e) ->
    exists t r,
      (let '(t0, s', o) := post_and_classify data net s in
       match o with
       | Raised e0 =>
           let '(t', s'', r0) := handle log_clauses e0 s' in (t0 ++ t', s'', r0)
       | Returned a => (t0, s', Returned a)
       end) = (t, s, r) /\
      posts t = [Post data] /\
      forall e0, r = Raised e0 -> is_Exception e0 = false /\ e0 = e).
  { intros e ->. destruct (is_Exception e) eqn:E.
    - destruct (log_clauses_catch e s E) as (m & -> & _).
      do 2 eexists. split; [reflexivity|]. split; [reflexivity|]. discriminate.
    - assert (e = KeyboardInterrupt) as -> by (destruct e; try discriminate E; reflexivity).
      do 2 eexists. split; [reflexivity|]. split; [reflexivity|].
      intros e0 He0. now injection He0 as <-. }
  destruct net as [r | e].
  - destruct (status_code r =? 200).
    + destruct (json_body r) as [[fields|]|].
      * rewrite Hc. do 2 eexists. split; [reflexivity|].
        split; [reflexivity|]. discriminate.
      * destruct (Hraise _ Hc) as (t & r0 & Hrun & Hp & Hexc).
        exists t, r0. split; [exact Hrun | split; [exact Hp|]].
        intros e Hr. destruct (Hexc e Hr) as [He ->]. discriminate He.
      * destruct (Hraise _ Hc) as (t & r0 & Hrun & Hp & Hexc).
        exists t, r0. split; [exact Hrun | split; [exact Hp|]].
        intros e Hr. destruct (Hexc e Hr) as [He ->]. discriminate He.
    + destruct Hc as [m ->]. do 2 eexists. split; [reflexivity|].
      split; [reflexivity|]. discriminate.
  - destruct (Hraise _ Hc) as (t & r0 & Hrun & Hp & Hexc).
    exists t, r0. split; [exact Hrun | split; [exact Hp|]].
    intros e0 Hr. destruct (Hexc e0 Hr) as [He ->]. now split.
Qed.

(** ** The face loop: the report rule (C7, C10) *)

Lemma detect_faces_state {C : Type} `{OpenCV C} (image : Image) (s s1 : state)
  (answer : Z * Q * list Rect) :
  result (FaceDetector.detect_faces image s) = Returned answer ->
  exists t, FaceDetector.detect_faces image s1 = (t, s1, Returned answer) /\
            posts t = [].
Proof.
  pose proof (detect_faces_cases image s) as Hs.
  pose proof (detect_faces_cases image s1) as Hs1.
  destruct (detectMultiScale (cvtColor_gray image)) as [faces|];
    rewrite Hs, Hs1; cbn [result snd]; intros Ha; injection Ha as <-;
    eexists; split; reflexivity.
Qed.

(** What the branch of an acquired frame does in the face loop. *)
Lemma face_process_run {C : Type} `{OpenCV C} (image : Image) (it : iteration)
  (s : state) (face_count : Z) (conf : Q) (faces : list Rect) :
  result (FaceDetector.detect_faces image s) =
  Returned (face_count, conf, faces) ->
  exists t r,
    FaceLoop.process_frame image it s = (t, with_consecutive_errors s 0, r) /\
    posts t =
    (if FaceLoop.should_report face_count conf (now it)
     then [Post {| detectionType := Face; detectedCount := face_count;
                   confidence := conf |}]
     else []) /\
    forall e, r = Raised e -> is_Exception e = false.
Proof.
  intros Hd.
  destruct (detect_faces_state image s (with_consecutive_errors s 0) _ Hd)
    as (t0 & Hrun & Hp0).
  unfold FaceLoop.process_frame, set_consecutive_errors, bind, get, put.
  cbn [app]. fold (with_consecutive_errors s 0). rewrite Hrun.
  destruct (FaceLoop.should_report face_count conf (now it)).
  - unfold FaceDetector.log_detection.
    destruct (example_log_shape
                {| detectionType := Face; detectedCount := face_count;
                   confidence := conf |} (net it) (with_consecutive_errors s 0))
      as (t & r & -> & Hp & Hexc).
    destruct r as [b | e].
    + do 2 eexists. split; [reflexivity|]. cbn [app].
      rewrite !posts_app, Hp0, Hp. split; [reflexivity | discriminate].
    + do 2 eexists. split; [reflexivity|]. cbn [app].
      rewrite !posts_app, Hp0, Hp. split; [reflexivity|].
      intros e0 He0. injection He0 as <-. now apply (Hexc e).
  - destruct (face_count >? 0); do 2 eexists; (split; [reflexivity|]);
      cbn [app]; rewrite !posts_app, Hp0; (split; [reflexivity | discriminate]).
Qed.

(** In a pass that acquires a frame, the reports are those of the branch
    that processes it. *)
Lemma acquired_pass_posts {C : Type} `{OpenCV C}
  (process : Image -> iteration -> M control) (interval : Z) (it : iteration)
  (s s' : state) (t0 t : list event) (image : Image) (r : outcome control) :
  get_frame_from_stream (conn it) s = (t0, s, Returned (Some image)) ->
  posts t0 = [] ->
  process image it s = (t, s', r) ->
  posts (trace (pass process interval it s)) = posts t /\
  last_motion_log_time (final (pass process interval it s)) =
  last_motion_log_time s'.
Proof.
  intros Hfetch Hp0 Hproc. unfold pass, try_, bind. rewrite Hfetch, Hproc.
  destruct r as [c | e].
  - destruct c.
    + unfold end_of_pass, time_sleep, bind, emit.
      destruct (sleep_raises it) as [e|].
      * unfold raise. destruct (loop_clauses_run e s')
          as (t1 & s1 & c1 & -> & Hp1 & _ & _ & Hlast).
        cbn. rewrite !posts_app, Hp0, Hp1. cbn. rewrite !app_nil_r. auto.
      * cbn. rewrite !posts_app, Hp0. cbn. rewrite !app_nil_r. auto.
    + cbn. rewrite !posts_app, Hp0. cbn. rewrite !app_nil_r. auto.
  - destruct (loop_clauses_run e s') as (t1 & s1 & c1 & -> & Hp1 & _ & _ & Hlast).
    cbn. rewrite !posts_app, Hp0, Hp1. cbn. rewrite !app_nil_r. auto.
Qed.

Lemma fetch_triple {C : Type} `{OpenCV C} (c : connection) (s : state)
  (image : option Image) :
  result (get_frame_from_stream c s) = Returned image ->
  exists t0, get_frame_from_stream c s = (t0, s, Returned image) /\ posts t0 = [].
Proof.
  destruct (get_frame_from_stream_shape c s) as (t0 & r & Hrun & Hp0 & _).
  rewrite Hrun. cbn [result snd]. intros ->. now exists t0.
Qed.

Lemma py_int_floor (x : Q) : (0 <= x)%Q -> py_int x = Qfloor x.
Proof.
  destruct x as [n d]. unfold Qle, py_int, Qfloor. cbn. intros Hn.
  apply Z.quot_div_nonneg; lia.
Qed.

Lemma should_report_rule (face_count : Z) (conf t : Q) :
  (0 <= t)%Q ->
  FaceLoop.should_report face_count conf t = true <-> face_rule face_count conf t.
Proof.
  intros Ht. unfold FaceLoop.should_report, face_rule, Qge_bool.
  rewrite (py_int_floor t Ht), andb_true_iff, orb_true_iff, Qle_bool_iff,
    Z.eqb_eq, Z.gtb_ltb, Z.ltb_lt.
  tauto.
Qed.

(** C7.  In a pass of the face loop that acquires a frame, one report is
    posted when the confidence of the detector is at least 0.7 and either a
    face was counted or [floor(now) mod 30 = 0]; no report is posted
    otherwise.  The report carries the count and the confidence. *)
Theorem face_loop_reports_iff_rule {C : Type} `{OpenCV C} (it : iteration)
  (s : state) (image : Image) (face_count : Z) (conf : Q) (faces : list Rect) :
  (0 <= now it)%Q ->
  result (get_frame_from_stream (conn it) s) = Returned (Some image) ->
  result (FaceDetector.detect_faces image s) =
  Returned (face_count, conf, faces) ->
  (posts (trace (FaceLoop.loop_body it s)) <> [] <->
   face_rule face_count conf (now it)) /\
  (face_rule face_count conf (now it) ->
   posts (trace (FaceLoop.loop_body it s)) =
   [Post {| detectionType := Face; detectedCount := face_count;
            confidence := conf |}]).
Proof.
  intros Hnow Hfetch Hdetect.
  destruct (fetch_triple _ _ _ Hfetch) as (t0 & Hrun & Hp0).
  destruct (face_process_run image it s face_count conf faces Hdetect)
    as (t & r & Hproc & Hposts & _).
  rewrite face_loop_body_pass.
  destruct (acquired_pass_posts _ FaceDetector.DETECTION_INTERVAL it s _ t0 t
              image r Hrun Hp0 Hproc) as [-> _].
  rewrite Hposts, <- (should_report_rule face_count conf (now it) Hnow).
  destruct (FaceLoop.should_report face_count conf (now it)).
  - split; [split; [reflexivity | discriminate] | reflexivity].
  - split; [split; [congruence | discriminate] | discriminate].
Qed.

Lemma face_loop_reports_iff_rule_witness :
  posts (trace (@FaceLoop.loop_body Q (sample_cv [full_frame_face] [])
                  (sample_pass 1000 (Responds ok_response)) initial_state))
  <> [].
Proof.
  refine (proj2 (proj1 (@face_loop_reports_iff_rule Q
                          (sample_cv [full_frame_face] [])
                          (sample_pass 1000 (Responds ok_response))
                          initial_state _ _ _ _ _ eq_refl eq_refl)) _).
  - discriminate.
  - split; [discriminate | left; reflexivity].
Defined.

(** C10.  In a pass of the face loop that acquires a frame, a report is
    posted only when the classifier found at least one face: with no face,
    or after an error of the classifier, the confidence is [0], below the
    threshold, whatever the clock says. *)
Theorem face_loop_reports_only_faces {C : Type} `{OpenCV C} (it : iteration)
  (s : state) (image : Image) :
  result (get_frame_from_stream (conn it) s) = Returned (Some image) ->
  posts (trace (FaceLoop.loop_body it s)) <> [] ->
  exists faces conf,
    detectMultiScale (cvtColor_gray image) = Some faces /\
    0 < Z.of_nat (List.length faces) /\
    posts (trace (FaceLoop.loop_body it s)) =
    [Post {| detectionType := Face;
             detectedCount := Z.of_nat (List.length faces);
             confidence := conf |}].
Proof.
  intros Hfetch Hsent.
  destruct (fetch_triple _ _ _ Hfetch) as (t0 & Hrun & Hp0).
  pose proof (detect_faces_cases image s) as Hd.
  assert (Hcase : forall fc conf faces,
    result (FaceDetector.detect_faces image s) = Returned (fc, conf, faces) ->
    posts (trace (FaceLoop.loop_body it s)) =
    if FaceLoop.should_report fc conf (now it)
    then [Post {| detectionType := Face; detectedCount := fc;
                  confidence := conf |}]
    else []).
  { intros fc conf faces Hdetect.
    destruct (face_process_run image it s fc conf faces Hdetect)
      as (t & r & Hproc & Hposts & _).
    rewrite face_loop_body_pass.
    destruct (acquired_pass_posts _ FaceDetector.DETECTION_INTERVAL it s _ t0 t
                image r Hrun Hp0 Hproc) as [-> _].
    exact Hposts. }
  destruct (detectMultiScale (cvtColor_gray image)) as [[|r faces]|].
  - exfalso. apply Hsent. rewrite (Hcase 0 0%Q []) by now rewrite Hd.
    unfold FaceLoop.should_report. now rewrite andb_false_r.
  - eexists (r :: faces), _. split; [reflexivity|]. split; [cbn; lia|].
    rewrite (Hcase _ _ _ (f_equal snd Hd)) in Hsent |- *.
    destruct (FaceLoop.should_report _ _ _); [reflexivity | congruence].
  - exfalso. apply Hsent. rewrite (Hcase 0 0%Q []) by now rewrite Hd.
    unfold FaceLoop.should_report. now rewrite andb_false_r.
Qed.

Lemma face_loop_reports_only_faces_witness :
  exists (faces : list Rect) (conf : Q),
    faces <> [] /\
    posts (trace (@FaceLoop.loop_body Q (sample_cv [full_frame_face] [])
                    (sample_pass 1001 (PostRaises RequestsTimeout))
                    initial_state)) =
    [Post {| detectionType := Face;
             detectedCount := Z.of_nat (List.length faces);
             confidence := conf |}].
Proof.
  destruct (@face_loop_reports_only_faces Q (sample_cv [full_frame_face] [])
              (sample_pass 1001 (PostRaises RequestsTimeout))
              initial_state _ eq_refl)
    as (faces & conf & Hfaces & Hlen & Hposts).
  - discriminate.
  - exists faces, conf. split; [|exact Hposts].
    intros ->. cbn in Hlen. lia.
Defined.

(** ** The motion loop: the cooldown (C6) *)

(** [detect_motion] always returns, posts nothing, and touches no variable
    of the loop; its answer does not depend on the error counter. *)
Lemma detect_motion_shape {C : Type} `{OpenCV C} (image : Image) (s : state) :
  exists t0 s1 answer,
    MotionDetector.detect_motion image s = (t0, s1, Returned answer) /\
    posts t0 = [] /\
    last_motion_log_time s1 = last_motion_log_time s /\
    consecutive_errors s1 = consecutive_errors s /\
    forall n,
      MotionDetector.detect_motion image (with_consecutive_errors s n) =
      (t0, with_consecutive_errors s1 n, Returned answer).
Proof.
  pose proof (detect_motion_cases image s) as Hs.
  assert (Hn : forall n,
    MotionDetector.detect_motion image (with_consecutive_errors s n) = _)
    by (intros n; apply detect_motion_cases).
  cbn [previous_frame with_consecutive_errors] in Hn.
  destruct (previous_frame s) as [previous|].
  - destruct (compared previous (blurred image)) as [contours|].
    + destruct (MotionDetector.significant contours 0%Q []) as [level sig].
      do 3 eexists. split; [exact Hs|]. repeat split. exact Hn.
    + do 3 eexists. split; [exact Hs|]. repeat split. exact Hn.
  - do 3 eexists. split; [exact Hs|]. repeat split. exact Hn.
Qed.

(** What the branch of an acquired frame does in the motion loop. *)
Lemma motion_process_run {C : Type} `{OpenCV C} (image : Image)
  (it : iteration) (s : state) (significant : bool) (level : Q)
  (contours : list C) :
  result (MotionDetector.detect_motion image s) =
  Returned (significant, level, contours) ->
  exists t s' r,
    MotionLoop.process_frame image it s = (t, s', r) /\
    consecutive_errors s' = 0 /\
    (forall e, r = Raised e -> is_Exception e = false) /\
    (if significant &&
        Qge_bool (now it - last_motion_log_time s) motion_cooldown
     then posts t = [Post (motion_report level)] /\
          (uninterrupted (net it) -> last_motion_log_time s' = now it)
     else posts t = [] /\
          last_motion_log_time s' = last_motion_log_time s).
Proof.
  intros Hd.
  destruct (detect_motion_shape image s)
    as (t0 & s1 & answer & Hrun & Hp0 & Hlast & Hce & Hn).
  rewrite Hrun in Hd. cbn [result snd] in Hd. injection Hd as ->.
  unfold MotionLoop.process_frame, set_consecutive_errors, bind, get, put.
  cbn [app]. fold (with_consecutive_errors s 0). rewrite Hn.
  destruct significant; cbn [andb].
  - cbn [last_motion_log_time with_consecutive_errors]. rewrite Hlast.
    destruct (Qge_bool (now it - last_motion_log_time s) motion_cooldown).
    + unfold MotionDetector.log_detection.
      destruct (example_log_shape (motion_report level) (net it)
                  (with_consecutive_errors s1 0))
        as (t & r & Hlog & Hp & Hexc).
      unfold motion_report in Hlog. rewrite Hlog.
      destruct r as [b | e].
      * unfold set_last_motion_log_time, set_motion_detected_time, bind, get, put.
        cbn. do 3 eexists. split; [reflexivity|].
        rewrite !posts_app, Hp0, Hp. cbn.
        repeat split; try discriminate; auto.
      * do 3 eexists. split; [reflexivity|]. cbn [app].
        rewrite !posts_app, Hp0, Hp. cbn.
        destruct (Hexc e eq_refl) as [He Hnet].
        repeat split; try discriminate; auto.
        -- intros e0 He0. now injection He0 as <-.
        -- intros Hun. rewrite (Hun e Hnet) in He. discriminate He.
    + do 3 eexists. split; [reflexivity|]. cbn.
      rewrite !posts_app, Hp0. cbn. repeat split; try discriminate; auto.
  - destruct (py_int (now it) mod 60 =? 0); do 3 eexists;
      (split; [reflexivity|]); cbn; rewrite !posts_app, Hp0; cbn;
      repeat split; try discriminate; auto.
Qed.

Lemma motion_reports_iff (significant : bool) (t last : Q) :
  motion_reports significant t last = true <-> motion_rule significant t last.
Proof.
  unfold motion_reports, motion_rule, Qge_bool.
  now rewrite andb_true_iff, Qle_bool_iff.
Qed.

(** A pass of the motion loop that acquires a frame. *)
Lemma motion_pass_run {C : Type} `{OpenCV C} (it : iteration) (s : state)
  (image : Image) (significant : bool) (level : Q) (contours : list C) :
  result (get_frame_from_stream (conn it) s) = Returned (Some image) ->
  result (MotionDetector.detect_motion image s) =
  Returned (significant, level, contours) ->
  posts (trace (MotionLoop.loop_body it s)) =
  (if motion_reports significant (now it) (last_motion_log_time s)
   then [Post (motion_report level)] else []) /\
  (motion_reports significant (now it) (last_motion_log_time s) = false ->
   last_motion_log_time (final (MotionLoop.loop_body it s)) =
   last_motion_log_time s) /\
  (motion_reports significant (now it) (last_motion_log_time s) = true ->
   uninterrupted (net it) ->
   last_motion_log_time (final (MotionLoop.loop_body it s)) = now it).
Proof.
  intros Hfetch Hdetect.
  destruct (fetch_triple _ _ _ Hfetch) as (t0 & Hrun & Hp0).
  destruct (motion_process_run image it s significant level contours Hdetect)
    as (t & s' & r & Hproc & _ & _ & Hrule).
  rewrite motion_loop_body_pass.
  destruct (acquired_pass_posts _ MotionDetector.DETECTION_INTERVAL it s s' t0 t
              image r Hrun Hp0 Hproc) as [-> ->].
  unfold motion_reports.
  destruct (significant &&
            Qge_bool (now it - last_motion_log_time s) motion_cooldown);
    destruct Hrule as [-> Hlast]; repeat split; auto; discriminate.
Qed.

Lemma motion_rule_closed (t last : Q) :
  (t - last < motion_cooldown)%Q -> motion_reports true t last = false.
Proof.
  intros Hlt. destruct (motion_reports true t last) eqn:E; [|reflexivity].
  apply motion_reports_iff in E. destruct E as [_ Hle].
  exfalso. exact (Qlt_not_le _ _ Hlt Hle).
Qed.

Lemma motion_rule_open (t last : Q) :
  (motion_cooldown <= t - last)%Q -> motion_reports true t last = true.
Proof.
  intros Hle. apply motion_reports_iff. now split.
Qed.

(** C6.  In a pass of the motion loop that acquires a frame, a report is
    posted exactly when the result is significant and the time since the
    last report is at least the cooldown of 5 seconds; a result that is not
    significant posts nothing; the time of the last report stays when
    nothing is posted and becomes [now] when a report was posted.  Hence,
    after a reported result, a significant result less than the cooldown
    later posts nothing and leaves the time of the last report, and a
    significant result at least the cooldown after the reported one posts
    again, be it the next result or the one after a suppressed result. *)
Theorem motion_report_cooldown {C : Type} `{OpenCV C} (it : iteration)
  (s : state) (image : Image) (significant : bool) (level : Q)
  (contours : list C) :
  result (get_frame_from_stream (conn it) s) = Returned (Some image) ->
  result (MotionDetector.detect_motion image s) =
  Returned (significant, level, contours) ->
  let s1 := final (MotionLoop.loop_body it s) in
  (posts (trace (MotionLoop.loop_body it s)) <> [] <->
   motion_rule significant (now it) (last_motion_log_time s)) /\
  (motion_rule significant (now it) (last_motion_log_time s) ->
   posts (trace (MotionLoop.loop_body it s)) = [Post (motion_report level)]) /\
  (significant = false -> posts (trace (MotionLoop.loop_body it s)) = []) /\
  (posts (trace (MotionLoop.loop_body it s)) = [] ->
   last_motion_log_time s1 = last_motion_log_time s) /\
  (posts (trace (MotionLoop.loop_body it s)) <> [] ->
   uninterrupted (net it) -> last_motion_log_time s1 = now it) /\
  (forall it2 image2 level2 contours2,
     motion_rule significant (now it) (last_motion_log_time s) ->
     uninterrupted (net it) ->
     result (get_frame_from_stream (conn it2) s1) = Returned (Some image2) ->
     result (MotionDetector.detect_motion image2 s1) =
     Returned (true, level2, contours2) ->
     let s2 := final (MotionLoop.loop_body it2 s1) in
     ((now it2 - now it < motion_cooldown)%Q ->
      posts (trace (MotionLoop.loop_body it2 s1)) = [] /\
      last_motion_log_time s2 = now it) /\
     ((motion_cooldown <= now it2 - now it)%Q ->
      posts (trace (MotionLoop.loop_body it2 s1)) =
      [Post (motion_report level2)]) /\
     (forall it3 image3 level3 contours3,
        (now it2 - now it < motion_cooldown)%Q ->
        result (get_frame_from_stream (conn it3) s2) =
        Returned (Some image3) ->
        result (MotionDetector.detect_motion image3 s2) =
        Returned (true, level3, contours3) ->
        (motion_cooldown <= now it3 - now it)%Q ->
        posts (trace (MotionLoop.loop_body it3 s2)) =
        [Post (motion_report level3)])).
Proof.
  intros Hfetch Hdetect s1.
  destruct (motion_pass_run it s image significant level contours Hfetch Hdetect)
    as (Hposts & Hkeep & Hmove).
  pose proof (motion_reports_iff significant (now it) (last_motion_log_time s))
    as Hiff.
  assert (Hfirst : motion_rule significant (now it) (last_motion_log_time s) ->
                   uninterrupted (net it) -> last_motion_log_time s1 = now it).
  { intros Hg Hun. apply Hmove; [now apply Hiff | exact Hun]. }
  split; [|split; [|split; [|split; [|split]]]].
  - rewrite Hposts, <- Hiff.
    destruct (motion_reports _ _ _); split; congruence.
  - intros Hg. apply Hiff in Hg. now rewrite Hposts, Hg.
  - intros ->. now rewrite Hposts.
  - intros Hnone. apply Hkeep. rewrite Hposts in Hnone.
    destruct (motion_reports _ _ _); [discriminate Hnone | reflexivity].
  - intros Hsome Hun. apply Hmove; [|exact Hun]. rewrite Hposts in Hsome.
    destruct (motion_reports _ _ _); [reflexivity | congruence].
  - intros it2 image2 level2 contours2 Hg Hun Hfetch2 Hdetect2 s2.
    specialize (Hfirst Hg Hun).
    destruct (motion_pass_run it2 s1 image2 true level2 contours2 Hfetch2 Hdetect2)
      as (Hposts2 & Hkeep2 & _).
    rewrite Hfirst in Hposts2, Hkeep2.
    split; [|split].
    + intros Hlt. rewrite (motion_rule_closed _ _ Hlt) in Hposts2, Hkeep2.
      split; [exact Hposts2|]. unfold s2. rewrite Hkeep2; auto.
    + intros Hle. now rewrite (motion_rule_open _ _ Hle) in Hposts2.
    + intros it3 image3 level3 contours3 Hlt Hfetch3 Hdetect3 Hle.
      rewrite (motion_rule_closed _ _ Hlt) in Hkeep2.
      destruct (motion_pass_run it3 s2 image3 true level3 contours3
                  Hfetch3 Hdetect3) as (Hposts3 & _ & _).
      unfold s2 in Hposts3 at 2. rewrite (Hkeep2 eq_refl) in Hposts3.
      now rewrite (motion_rule_open _ _ Hle) in Hposts3.
Qed.

Lemma motion_report_cooldown_witness :
  exists level,
    posts (trace (@MotionLoop.loop_body Q (sample_cv [] [6000%Q])
                    (sample_pass 1000 (Responds ok_response))
                    (with_previous_frame initial_state stored_480x640))) =
    [Post (motion_report level)].
Proof.
  eexists.
  refine (proj1 (proj2 (@motion_report_cooldown Q (sample_cv [] [6000%Q])
                          (sample_pass 1000 (Responds ok_response))
                          (with_previous_frame initial_state stored_480x640)
                          _ _ _ _ eq_refl eq_refl)) _).
  split; [reflexivity | discriminate].
Defined.

(** ** DetectionLoop: the ceiling of consecutive errors (C3) *)

Lemma while_true_break (body : iteration -> M control) (it : iteration)
  (rest : list iteration) (s : state) :
  result (body it s) = Returned Break ->
  while_true body (it :: rest) s =
  (trace (body it s) ++ [Printed MsgLoopEnded], final (body it s),
   Returned Stopped).
Proof.
  cbn [while_true]. unfold bind.
  destruct (body it s) as [[t s'] r]. cbn [result trace final fst snd].
  intros ->. reflexivity.
Qed.

(** Below the ceiling, enough failing passes stop the loop, whatever
    follows them, and nothing is posted. *)
Lemma failing_passes_stop {C : Type} `{OpenCV C}
  (process : Image -> iteration -> M control) (interval : Z)
  (fails : list iteration) :
  Forall fetch_fails fails ->
  forall s,
    consecutive_errors s < max_consecutive_errors ->
    max_consecutive_errors - consecutive_errors s
      <= Z.of_nat (List.length fails) ->
    exists t s',
      posts t = [] /\
      forall rest,
        while_true (pass process interval) (fails ++ rest) s =
        (t, s', Returned Stopped).
Proof.
  induction 1 as [|it fails Hit Hall IH]; intros s Hlt Hlen.
  - unfold max_consecutive_errors in *. cbn [List.length] in Hlen. lia.
  - destruct (fetch_triple _ _ _ (Hit s)) as (t0 & Hrun & Hp0).
    destruct (failed_pass process interval it s t0 Hrun Hp0)
      as (t & s' & c & Hpass & Hp & Hgrow & Hbelow & _).
    destruct c.
    + destruct (IH s') as (t1 & s1 & Hp1 & Hrest).
      * now apply Hbelow.
      * unfold max_consecutive_errors in *. cbn [List.length] in Hlen. lia.
      * exists (t ++ t1), s1. split.
        -- now rewrite posts_app, Hp, Hp1.
        -- intros rest. cbn [app while_true]. unfold bind.
           now rewrite Hpass, Hrest.
    + exists (t ++ [Printed MsgLoopEnded]), s'. split.
      * now rewrite posts_app, Hp.
      * intros rest. cbn [app while_true]. unfold bind. now rewrite Hpass.
Qed.

Lemma pass_counts_errors {C : Type} `{OpenCV C}
  (process : Image -> iteration -> M control) (interval : Z) :
  resets_counter process ->
  counts_errors (pass process interval)
    (fun its => set_consecutive_errors 0 ;; while_true (pass process interval) its).
Proof.
  intros Hreset. split; [|split; [|split]].
  - intros it s Hfetch.
    destruct (fetch_triple _ _ _ Hfetch) as (t0 & Hrun & Hp0).
    destruct (failed_pass process interval it s t0 Hrun Hp0)
      as (t & s' & c & -> & Hp & Hgrow & _ & Hquiet).
    split; [exact Hgrow | split; [exact Hp|]].
    intros Hsleep. destruct (Hquiet Hsleep) as [-> ->]. now split.
  - intros it s image Hfetch Hsleep.
    destruct (fetch_triple _ _ _ Hfetch) as (t0 & Hrun & Hp0).
    now apply (acquired_pass process interval it s t0 image).
  - intros it rest s. apply while_true_break.
  - intros fails rest s Hall Hlen.
    destruct (failing_passes_stop process interval fails Hall
                (with_consecutive_errors s 0))
      as (t & s' & Hp & Hrest).
    + reflexivity.
    + unfold max_consecutive_errors in *.
      cbn [consecutive_errors with_consecutive_errors]. lia.
    + unfold set_consecutive_errors, bind, get, put. cbn [app].
      fold (with_consecutive_errors s 0).
      rewrite (Hrest rest). pose proof (Hrest []) as Hnil.
      rewrite app_nil_r in Hnil. rewrite Hnil. cbn. now repeat split.
Qed.

Lemma face_process_resets {C : Type} `{OpenCV C} :
  resets_counter FaceLoop.process_frame.
Proof.
  intros image it s.
  assert (Hd : exists answer,
    result (FaceDetector.detect_faces image s) = Returned answer).
  { pose proof (detect_faces_cases image s) as Hc.
    destruct (detectMultiScale (cvtColor_gray image));
      rewrite Hc; eexists; reflexivity. }
  destruct Hd as ([[face_count conf] faces] & Hd).
  destruct (face_process_run image it s face_count conf faces Hd)
    as (t & r & Hrun & _ & Hexc).
  exists t, (with_consecutive_errors s 0), r. now repeat split.
Qed.

Lemma motion_process_resets {C : Type} `{OpenCV C} :
  resets_counter MotionLoop.process_frame.
Proof.
  intros image it s.
  destruct (detect_motion_shape image s)
    as (t0 & s1 & [[significant level] contours] & Hrun & _).
  destruct (motion_process_run image it s significant level contours)
    as (t & s' & r & Hproc & Hzero & Hexc & _).
  - now rewrite Hrun.
  - exists t, s', r. now repeat split.
Qed.

(** C3.  In both example loops: a pass in which no frame is acquired raises
    the counter of consecutive errors by one and posts nothing; a pass in
    which a frame is acquired leaves it at zero; the pass breaks out of the
    loop as soon as the counter is at [max_consecutive_errors = 10], and the
    loop then ends without another fetch; a run that starts with ten or more
    passes without a frame stops and never posts a report, whatever the
    passes after them would be. *)
Theorem detection_loop_error_ceiling {C : Type} `{OpenCV C} :
  counts_errors FaceLoop.loop_body FaceLoop.run_detection_loop /\
  counts_errors MotionLoop.loop_body MotionLoop.run_detection_loop.
Proof.
  split.
  - exact (pass_counts_errors FaceLoop.process_frame
             FaceDetector.DETECTION_INTERVAL face_process_resets).
  - pose proof (pass_counts_errors MotionLoop.process_frame
                  MotionDetector.DETECTION_INTERVAL motion_process_resets)
      as (Hfail & Hok & Hbreak & Hrun).
    split; [exact Hfail | split; [exact Hok | split; [exact Hbreak|]]].
    intros fails rest s Hall Hlen.
    destruct (failing_passes_stop MotionLoop.process_frame
                MotionDetector.DETECTION_INTERVAL fails Hall
                (with_consecutive_errors
                   {| previous_frame := previous_frame s;
                      motion_detected_time := motion_detected_time s;
                      consecutive_errors := 0;
                      last_motion_log_time := 0 |} 0))
      as (t & s' & Hp & Hrest).
    + reflexivity.
    + unfold max_consecutive_errors in *.
      cbn [consecutive_errors with_consecutive_errors]. lia.
    + unfold MotionLoop.run_detection_loop, set_consecutive_errors,
        set_last_motion_log_time, bind, get, put.
      cbn [app previous_frame motion_detected_time consecutive_errors
           last_motion_log_time].
      change MotionLoop.loop_body
        with (pass MotionLoop.process_frame MotionDetector.DETECTION_INTERVAL).
      unfold with_consecutive_errors in Hrest.
      cbn [previous_frame motion_detected_time consecutive_errors
           last_motion_log_time] in Hrest.
      rewrite (Hrest rest). pose proof (Hrest []) as Hnil.
      rewrite app_nil_r in Hnil. rewrite Hnil. cbn. now repeat split.
Qed.

Lemma detection_loop_error_ceiling_witness :
  result (@FaceLoop.run_detection_loop Q (sample_cv [full_frame_face] [])
            (repeat failing_pass 10 ++ [failing_pass]) initial_state)
  = Returned Stopped /\
  posts (trace (@FaceLoop.run_detection_loop Q (sample_cv [full_frame_face] [])
                  (repeat failing_pass 10 ++ [failing_pass]) initial_state))
  = [].
Proof.
  destruct (@detection_loop_error_ceiling Q (sample_cv [full_frame_face] []))
    as [(_ & _ & _ & Hrun) _].
  destruct (Hrun (repeat failing_pass 10) [failing_pass] initial_state)
    as (Hstop & Hposts & _).
  - repeat constructor.
  - unfold max_consecutive_errors. cbn. lia.
  - split; [exact Hstop | exact Hposts].
Defined.

(* ================================================================== *)
(** * Part III: further properties of the scripts                     *)
(* ================================================================== *)

(** ** The bytes handed to the decoder *)

Lemma marker_at_inside (m pre mid post : list byte) (i : Z) :
  marker_at m mid i ->
  marker_at m (pre ++ mid ++ post) (Z.of_nat (List.length pre) + i).
Proof.
  intros (p & q & -> & <-). exists (pre ++ p), (q ++ post). split.
  - now rewrite <- !app_assoc.
  - rewrite length_app. lia.
Qed.

Lemma marker_at_suffix (m bs : list byte) (i : Z) :
  marker_at m bs i ->
  exists tail, skipn (Z.to_nat i) bs = m ++ tail.
Proof.
  intros Hm. pose proof (marker_at_nonneg _ _ _ Hm) as Hi.
  rewrite <- (Z2Nat.id i Hi) in Hm. apply marker_at_skipn in Hm.
  destruct Hm as [_ Hm]. now apply starts_with_prefix.
Qed.

(** Two occurrences of the markers cannot overlap: an end marker that
    follows a start marker begins at least two bytes later. *)
Lemma end_marker_after_start (bs : list byte) (s e : Z) :
  marker_at SOI bs s -> marker_at EOI bs e -> s < e -> s + 2 <= e.
Proof.
  intros Hs He Hlt.
  destruct (Z.eq_dec e (s + 1)) as [Heq|]; [|lia].
  exfalso. pose proof (marker_at_nonneg _ _ _ Hs) as Hs0.
  destruct (marker_at_suffix _ _ _ Hs) as [t1 H1].
  destruct (marker_at_suffix _ _ _ He) as [t2 H2].
  replace (Z.to_nat e) with (1 + Z.to_nat s)%nat in H2 by lia.
  rewrite <- skipn_skipn, H1 in H2. cbn in H2. discriminate H2.
Qed.

(** The bytes from a start marker to a later end marker. *)
Lemma slice_between_markers (bs : list byte) (s e : Z) :
  marker_at SOI bs s -> marker_at EOI bs e -> s < e ->
  exists body, slice bs s (e + 2) = SOI ++ body ++ EOI.
Proof.
  intros Hs He Hlt.
  pose proof (end_marker_after_start bs s e Hs He Hlt) as Hgap.
  pose proof (marker_at_nonneg _ _ _ Hs) as Hs0.
  destruct (marker_at_suffix _ _ _ Hs) as [t1 H1].
  destruct (marker_at_suffix _ _ _ He) as [t2 H2].
  set (n := Z.to_nat (e - s - 2)).
  replace (Z.to_nat e) with (n + 2 + Z.to_nat s)%nat in H2 by lia.
  rewrite <- skipn_skipn, H1 in H2.
  rewrite <- skipn_skipn in H2. cbn [SOI app skipn] in H2.
  assert (Hn : (n < List.length t1)%nat).
  { destruct (Nat.lt_ge_cases n (List.length t1)) as [|Hge]; [assumption|].
    rewrite skipn_all2 in H2 by exact Hge. discriminate H2. }
  exists (firstn n t1). unfold slice. rewrite H1.
  replace (Z.to_nat (e + 2 - s)) with (S (S (n + 2))) by lia.
  cbn [SOI app firstn]. do 2 f_equal.
  rewrite <- (firstn_skipn n t1) at 1. rewrite H2.
  rewrite firstn_app, firstn_length_le by lia.
  rewrite firstn_all2 by (rewrite firstn_length_le; lia).
  replace (n + 2 - n)%nat with 2%nat by lia. reflexivity.
Qed.

(** X1.  The bytes that the example scripts cut out of the buffer begin
    with the start marker, end with the end marker, and hold no other end
    marker: the frame stops at the first [FF D9] of the buffer. *)
Theorem scan_frame_delimited (bs jpeg : list byte) :
  scan_frame bs = Some jpeg ->
  (exists body, jpeg = SOI ++ body ++ EOI) /\
  forall i, marker_at EOI jpeg i -> i = Z.of_nat (List.length jpeg) - 2.
Proof.
  intros Hscan. apply scan_frame_some in Hscan. destruct Hscan as (Hs & Hlt & ->).
  set (s := find bs SOI) in *. set (e := find bs EOI) in *.
  assert (Hfs : first_marker SOI bs s) by (apply find_first; auto).
  assert (Hfe : first_marker EOI bs e) by (apply find_first; [lia | auto]).
  pose proof (marker_at_end _ _ _ (proj1 Hfe)) as Hend. cbn [List.length EOI] in Hend.
  destruct (slice_cut bs s (e + 2)) as (Hcut & Hl1 & Hl2); try lia.
  split.
  - apply slice_between_markers; [apply Hfs | apply Hfe | exact Hlt].
  - intros i Hi.
    pose proof (marker_at_end _ _ _ Hi) as Hiend. cbn [List.length EOI] in Hiend.
    apply (marker_at_inside EOI (firstn (Z.to_nat s) bs) _ (slice_from bs (e + 2)))
      in Hi.
    rewrite <- Hcut in Hi. apply Hfe in Hi. lia.
Qed.

Lemma scan_frame_delimited_witness :
  exists body, [xff; xd8; x01; xff; xd9] = SOI ++ body ++ EOI.
Proof.
  exact (proj1 (scan_frame_delimited [x00; xff; xd8; x01; xff; xd9; x02]
                  [xff; xd8; x01; xff; xd9] eq_refl)).
Defined.

(** ** FrameSource: reads and the connection *)

Lemma read_until_frame_completed {C : Type} `{OpenCV C}
  (chunks : list (list byte)) (last : list byte) (rest : list read_result)
  (buf jpeg : list byte) (s0 : state) :
  Forall (fun chunk => chunk <> []) chunks -> last <> [] ->
  no_frame_in buf chunks ->
  scan_frame (buf ++ List.concat chunks ++ last) = Some jpeg ->
  read_until_frame (map Chunk chunks ++ Chunk last :: rest) buf s0 =
  ([StreamClose], s0, Returned (imdecode jpeg)).
Proof.
  revert buf. induction chunks as [|chunk chunks IH]; intros buf Hne Hlast Hno Hscan.
  - cbn [map app read_until_frame List.concat] in *.
    destruct last as [|b last]; [congruence|]. cbn [is_empty].
    now rewrite Hscan.
  - inversion Hne as [|? ? Hc Hcs]; subst.
    cbn [map app read_until_frame]. destruct chunk as [|b chunk]; [congruence|].
    cbn [is_empty]. apply no_frame_in_tail in Hno. destruct Hno as [-> Hno].
    apply IH; auto. cbn [List.concat] in Hscan.
    now rewrite <- !app_assoc in Hscan |- *.
Qed.

(** X2.  The frame that [get_frame_from_stream] returns depends on the
    bytes received, not on how the reads cut them: when the bytes of the
    first reads hold no complete frame and the next read completes one, the
    call returns the decoding of that frame, closes the stream, and never
    performs the reads that would follow. *)
Theorem frame_completed_by_a_read {C : Type} `{OpenCV C}
  (chunks : list (list byte)) (last : list byte) (rest : list read_result)
  (jpeg : list byte) (s0 : state) :
  Forall (fun chunk => chunk <> []) chunks -> last <> [] ->
  no_frame_in [] chunks ->
  scan_frame (List.concat chunks ++ last) = Some jpeg ->
  get_frame_from_stream (Opened (map Chunk chunks ++ Chunk last :: rest)) s0 =
  ([StreamOpen; StreamClose], s0, Returned (imdecode jpeg)).
Proof.
  intros Hne Hlast Hno Hscan.
  unfold get_frame_from_stream, try_, bind, emit.
  now rewrite (read_until_frame_completed chunks last rest [] jpeg s0).
Qed.

Lemma frame_completed_by_a_read_witness :
  @get_frame_from_stream Q (sample_cv [] [])
    (Opened [Chunk [x00; xff]; Chunk [xd8; x01; xff]; Chunk [xd9; x02];
             ReadRaises SocketTimeout]) initial_state =
  ([StreamOpen; StreamClose], initial_state,
   Returned (Some {| shape0 := 480; shape1 := 640;
                     pixels := [xff; xd8; x01; xff; xd9] |})).
Proof.
  refine (@frame_completed_by_a_read Q (sample_cv [] [])
            [[x00; xff]; [xd8; x01; xff]] [xd9; x02] [ReadRaises SocketTimeout]
            [xff; xd8; x01; xff; xd9] initial_state _ _ _ eq_refl).
  - repeat constructor; discriminate.
  - discriminate.
  - intros [|[|[|k]]]; reflexivity.
Defined.

(** X3.  A call on an opened stream either ends by a frame or by the end of
    the stream, and then closes the stream exactly once, or ends by a read
    that raises, and then never closes it: the [except] clause returns
    without [stream.close()]. *)
Theorem stream_closed_unless_read_raises {C : Type} `{OpenCV C}
  (reads : list read_result) (s0 : state) :
  (exists image,
     get_frame_from_stream (Opened reads) s0 =
     ([StreamOpen; StreamClose], s0, Returned image)) \/
  (exists e,
     In (ReadRaises e) reads /\
     ~ In StreamClose (trace (get_frame_from_stream (Opened reads) s0)) /\
     (is_Exception e = true ->
      get_frame_from_stream (Opened reads) s0 =
      ([StreamOpen; Printed (MsgFrameError e)], s0, Returned None))).
Proof.
  unfold get_frame_from_stream, try_, bind, emit.
  destruct (read_until_frame_cases reads [] s0) as [(image & ->) | (e & Hin & ->)].
  - left. now exists image.
  - right. exists e. split; [exact Hin|]. cbn [handle app].
    destruct (is_Exception e); cbn.
    + split; [|reflexivity]. intros [Hc | [Hc | []]]; discriminate Hc.
    + split; [|discriminate]. intros [Hc | []]; discriminate Hc.
Qed.

(** ** Face detector: the range of the confidence *)

Lemma sum_nonneg (xs : list Q) :
  Forall (fun x => 0 <= x)%Q xs -> (0 <= fold_right Qplus 0 xs)%Q.
Proof.
  induction 1 as [|x xs Hx Hxs IH]; cbn [fold_right].
  - apply Qle_refl.
  - replace 0%Q with (0 + 0)%Q by reflexivity. now apply Qplus_le_compat.
Qed.

Lemma mean_nonneg (xs : list Q) :
  Forall (fun x => 0 <= x)%Q xs -> (0 <= FaceDetector.mean xs)%Q.
Proof.
  intros Hxs. unfold FaceDetector.mean, Qdiv.
  apply Qmult_le_0_compat; [now apply sum_nonneg|].
  apply Qinv_le_0_compat. unfold Qle, inject_Z. cbn. lia.
Qed.

Lemma ratio_nonneg (m a : Q) : (0 <= m)%Q -> (0 < a)%Q -> (0 <= m / a)%Q.
Proof.
  intros Hm Ha. unfold Qdiv. apply Qmult_le_0_compat; [exact Hm|].
  apply Qinv_le_0_compat. now apply Qlt_le_weak.
Qed.

Lemma inject_Z_pos (a : Z) : 0 < a -> (0 < inject_Z a)%Q.
Proof. intros Ha. unfold Qlt, inject_Z. cbn. lia. Qed.

(** X4.  The confidence that [detect_faces] returns never exceeds 0.9; it
    is 0 when no face is counted; and when faces are counted on a frame of
    positive area, with boxes whose area is not negative and within the
    range of an [int32] (so that the product of the script does not wrap
    around), it is at least 0.5. *)
Theorem face_confidence_range {C : Type} `{OpenCV C} (image : Image)
  (s : state) (face_count : Z) (conf : Q) (faces : list Rect) :
  result (FaceDetector.detect_faces image s) =
  Returned (face_count, conf, faces) ->
  face_count = Z.of_nat (List.length faces) /\
  (conf <= 9 # 10)%Q /\
  (face_count = 0 -> conf = 0%Q) /\
  (0 < face_count ->
   0 < shape0 image * shape1 image ->
   Forall (fun r => 0 <= rect_w r * rect_h r <= 2147483647) faces ->
   (5 # 10 <= conf)%Q).
Proof.
  pose proof (detect_faces_cases image s) as Hc.
  destruct (detectMultiScale (cvtColor_gray image)) as [[|r found]|];
    rewrite Hc; cbn [result snd]; intros Heq; injection Heq as <- <- <-.
  - repeat split; try discriminate; try reflexivity; try (cbn; lia).
  - split; [reflexivity|]. rewrite py_min_Qmin. split; [apply Q.le_min_l|].
    split; [cbn; lia|]. intros _ Harea Hboxes.
    apply Q.min_glb; [discriminate|].
    assert (Hratio : (0 <= FaceDetector.mean (map int32_area (r :: found)) /
                          inject_Z (shape0 image * shape1 image))%Q).
    { apply ratio_nonneg; [|now apply inject_Z_pos].
      apply mean_nonneg. apply Forall_map.
      eapply Forall_impl; [|exact Hboxes].
      intros b Hb. cbv beta in Hb. unfold int32_area.
      rewrite int32_fits by lia.
      unfold Qle, inject_Z. cbn [Qnum Qden]. lia. }
    set (x := (FaceDetector.mean _ / _)%Q) in *. lra.
  - repeat split; try discriminate; try reflexivity; try (cbn; lia).
Qed.

Lemma face_confidence_range_witness :
  exists conf : Q,
    result (@FaceDetector.detect_faces Q (sample_cv [full_frame_face] [])
              {| shape0 := 480; shape1 := 640; pixels := [] |} initial_state)
    = Returned (1, conf, [full_frame_face]) /\
    (5 # 10 <= conf)%Q.
Proof.
  eexists. split; [reflexivity|].
  refine (proj2 (proj2 (proj2
           (@face_confidence_range Q (sample_cv [full_frame_face] [])
              {| shape0 := 480; shape1 := 640; pixels := [] |} initial_state
              _ _ _ eq_refl))) _ _ _).
  - reflexivity.
  - reflexivity.
  - constructor; [|constructor]. cbn. lia.
Defined.

(** ** The face loop: what it takes to be reported *)

Lemma confidence_clears_threshold (m a : Q) :
  (0 < a)%Q ->
  Qge_bool (py_min (9 # 10) ((5 # 10) + (m / a) * 2))
    FaceDetector.CONFIDENCE_THRESHOLD = true <->
  (a <= 10 * m)%Q.
Proof.
  intros Ha. unfold Qge_bool, FaceDetector.CONFIDENCE_THRESHOLD.
  rewrite Qle_bool_iff, py_min_Qmin, Q.min_glb_iff.
  assert (Hx : (a * (m / a) == m)%Q).
  { apply Qmult_div_r. intros Hz. rewrite Hz in Ha. discriminate Ha. }
  set (x := (m / a)%Q) in *. split.
  - intros [_ Hle]. rewrite <- Hx.
    assert (H0 : (0 <= a * (x - (1 # 10)))%Q).
    { apply Qmult_le_0_compat; lra. }
    lra.
  - intros Hle. split; [discriminate|].
    assert (H0 : (0 <= x - (1 # 10))%Q).
    { apply (Qmult_le_l _ _ a Ha). rewrite <- Hx in Hle. lra. }
    lra.
Qed.

(** The reports of a pass of the face loop that acquires a frame. *)
Lemma face_pass_posts {C : Type} `{OpenCV C} (it : iteration) (s : state)
  (image : Image) (face_count : Z) (conf : Q) (faces : list Rect) :
  result (get_frame_from_stream (conn it) s) = Returned (Some image) ->
  result (FaceDetector.detect_faces image s) =
  Returned (face_count, conf, faces) ->
  posts (trace (FaceLoop.loop_body it s)) =
  if FaceLoop.should_report face_count conf (now it)
  then [Post {| detectionType := Face; detectedCount := face_count;
                confidence := conf |}]
  else [].
Proof.
  intros Hfetch Hdetect.
  destruct (fetch_triple _ _ _ Hfetch) as (t0 & Hrun & Hp0).
  destruct (face_process_run image it s face_count conf faces Hdetect)
    as (t & r & Hproc & Hposts & _).
  rewrite face_loop_body_pass.
  destruct (acquired_pass_posts _ FaceDetector.DETECTION_INTERVAL it s _ t0 t
              image r Hrun Hp0 Hproc) as [-> _].
  exact Hposts.
Qed.

(** X5.  In a pass of the face loop that acquires a frame of positive
    area, on which the areas of the boxes of the classifier are within the
    range of an [int32] (so that the product of the script does not wrap
    around), a report is posted exactly when the classifier found faces
    whose mean box area is at least one tenth of the area of the frame: this
    is what the threshold 0.7 on [0.5 + 2 * mean / area] amounts to, and the
    clock plays no part. *)
Theorem face_reported_iff_tenth_of_frame {C : Type} `{OpenCV C}
  (it : iteration) (s : state) (image : Image) :
  result (get_frame_from_stream (conn it) s) = Returned (Some image) ->
  0 < shape0 image * shape1 image ->
  (forall faces,
     detectMultiScale (cvtColor_gray image) = Some faces ->
     Forall area_fits faces) ->
  (posts (trace (FaceLoop.loop_body it s)) <> [] <->
   exists faces,
     detectMultiScale (cvtColor_gray image) = Some faces /\
     faces <> [] /\
     (inject_Z (shape0 image * shape1 image) <=
      10 * FaceDetector.mean (map box_area faces))%Q).
Proof.
  intros Hfetch Harea Hfit.
  pose proof (detect_faces_cases image s) as Hd.
  pose proof (fun fc conf faces =>
                face_pass_posts it s image fc conf faces Hfetch) as Hposts.
  destruct (detectMultiScale (cvtColor_gray image)) as [[|r faces]|].
  - rewrite (Hposts 0 0%Q []) by now rewrite Hd.
    unfold FaceLoop.should_report. rewrite andb_false_r. split; [congruence|].
    intros (faces & Heq & Hne & _). injection Heq as <-. congruence.
  - rewrite (Hposts _ _ _ (f_equal snd Hd)).
    unfold FaceLoop.should_report. cbn [List.length].
    replace (Z.of_nat (S (List.length faces)) >? 0) with true
      by (symmetry; apply Z.gtb_lt; lia).
    cbn [orb andb].
    rewrite (int32_areas_fit _ (Hfit _ eq_refl)).
    pose proof (confidence_clears_threshold
                  (FaceDetector.mean (map box_area (r :: faces)))
                  (inject_Z (shape0 image * shape1 image))
                  (inject_Z_pos _ Harea)) as Hiff.
    destruct (Qge_bool _ _).
    + split; [|discriminate]. intros _. exists (r :: faces).
      split; [reflexivity|]. split; [discriminate|]. now apply Hiff.
    + split; [congruence|]. intros (found & Heq & _ & Hle).
      injection Heq as <-. apply Hiff in Hle. discriminate Hle.
  - rewrite (Hposts 0 0%Q []) by now rewrite Hd.
    unfold FaceLoop.should_report. rewrite andb_false_r. split; [congruence|].
    intros (faces & Heq & _). discriminate Heq.
Qed.

Lemma face_reported_iff_tenth_of_frame_witness :
  posts (trace (@FaceLoop.loop_body Q (sample_cv [full_frame_face] [])
                  (sample_pass 1001 (Responds ok_response)) initial_state))
  <> [].
Proof.
  refine (proj2 (@face_reported_iff_tenth_of_frame Q
                   (sample_cv [full_frame_face] [])
                   (sample_pass 1001 (Responds ok_response)) initial_state
                   _ eq_refl _ _) _).
  - reflexivity.
  - intros faces Hfaces. injection Hfaces as <-.
    constructor; [|constructor]. unfold area_fits. cbn. lia.
  - exists [full_frame_face]. split; [reflexivity|].
    split; [discriminate|]. discriminate.
Defined.

(** In a pass that acquires a frame, the effects of the branch that
    processes it are part of the effects of the pass. *)
Lemma acquired_pass_trace {C : Type} `{OpenCV C}
  (process : Image -> iteration -> M control) (interval : Z) (it : iteration)
  (s s' : state) (t0 t : list event) (image : Image) (r : outcome control) :
  get_frame_from_stream (conn it) s = (t0, s, Returned (Some image)) ->
  process image it s = (t, s', r) ->
  exists tail, trace (pass process interval it s) = t0 ++ t ++ tail.
Proof.
  intros Hfetch Hproc. unfold pass, try_, bind. rewrite Hfetch, Hproc.
  destruct r as [c | e].
  - destruct c.
    + unfold end_of_pass, time_sleep, bind, emit.
      destruct (sleep_raises it) as [e|].
      * unfold raise. destruct (loop_clauses_run e s')
          as (t1 & s1 & c1 & -> & _).
        cbn. eexists. rewrite <- ?app_assoc. reflexivity.
      * cbn. eexists. rewrite <- ?app_assoc. reflexivity.
    + cbn. eexists. rewrite <- ?app_assoc. reflexivity.
  - destruct (loop_clauses_run e s') as (t1 & s1 & c1 & -> & _).
    cbn. eexists. rewrite <- ?app_assoc. reflexivity.
Qed.

Lemma face_process_notice {C : Type} `{OpenCV C} (image : Image)
  (it : iteration) (s : state) (face_count : Z) (conf : Q) (faces : list Rect) :
  result (FaceDetector.detect_faces image s) =
  Returned (face_count, conf, faces) ->
  FaceLoop.should_report face_count conf (now it) = false ->
  0 < face_count ->
  In (Printed (MsgLowConfidence face_count))
     (trace (FaceLoop.process_frame image it s)).
Proof.
  intros Hd Hno Hpos.
  destruct (detect_faces_state image s (with_consecutive_errors s 0) _ Hd)
    as (t0 & Hrun & _).
  unfold FaceLoop.process_frame, set_consecutive_errors, bind, get, put.
  cbn [app]. fold (with_consecutive_errors s 0). rewrite Hrun, Hno.
  replace (face_count >? 0) with true by (symmetry; apply Z.gtb_lt; lia).
  cbn. apply in_or_app. right. now left.
Qed.

(** X6.  In a pass of the face loop that acquires a frame on which the
    classifier finds faces, the faces never pass in silence: either a report
    is posted, or the line that says the confidence is too low is printed
    with their number. *)
Theorem faces_reported_or_noticed {C : Type} `{OpenCV C} (it : iteration)
  (s : state) (image : Image) (faces : list Rect) :
  result (get_frame_from_stream (conn it) s) = Returned (Some image) ->
  detectMultiScale (cvtColor_gray image) = Some faces ->
  faces <> [] ->
  posts (trace (FaceLoop.loop_body it s)) <> [] \/
  In (Printed (MsgLowConfidence (Z.of_nat (List.length faces))))
     (trace (FaceLoop.loop_body it s)).
Proof.
  intros Hfetch Hfaces Hne.
  pose proof (detect_faces_cases image s) as Hd. rewrite Hfaces in Hd.
  apply (f_equal snd) in Hd. cbn [snd] in Hd. fold (result (FaceDetector.detect_faces image s)) in Hd.
  rewrite (face_pass_posts it s image _ _ _ Hfetch Hd).
  destruct (FaceLoop.should_report _ _ (now it)) eqn:Hgo;
    [left; discriminate | right].
  destruct (fetch_triple _ _ _ Hfetch) as (t0 & Hrun & _).
  destruct (FaceLoop.process_frame image it s) as [[t s'] r] eqn:Hproc.
  rewrite face_loop_body_pass.
  destruct (acquired_pass_trace FaceLoop.process_frame
              FaceDetector.DETECTION_INTERVAL it s s' t0 t image r Hrun Hproc)
    as [tail ->].
  apply in_or_app. right. apply in_or_app. left.
  pose proof (face_process_notice image it s _ _ _ Hd Hgo) as Hin.
  rewrite Hproc in Hin. apply Hin.
  destruct faces; [congruence | cbn; lia].
Qed.

Lemma faces_reported_or_noticed_witness :
  posts (trace (@FaceLoop.loop_body Q
                  (sample_cv [{| rect_x := 0; rect_y := 0;
                                 rect_w := 40; rect_h := 40 |}] [])
                  (sample_pass 1001 (Responds ok_response)) initial_state))
  <> [] \/
  In (Printed (MsgLowConfidence 1))
     (trace (@FaceLoop.loop_body Q
               (sample_cv [{| rect_x := 0; rect_y := 0;
                              rect_w := 40; rect_h := 40 |}] [])
               (sample_pass 1001 (Responds ok_response)) initial_state)).
Proof.
  refine (@faces_reported_or_noticed Q
            (sample_cv [{| rect_x := 0; rect_y := 0;
                           rect_w := 40; rect_h := 40 |}] [])
            (sample_pass 1001 (Responds ok_response)) initial_state
            _ [{| rect_x := 0; rect_y := 0; rect_w := 40; rect_h := 40 |}]
            eq_refl eq_refl _).
  discriminate.
Defined.

(** ** The reports of a whole run *)

(** The reports of a pass are those of the branch that processes the
    frame, when there is one. *)
Lemma pass_posts_forall {C : Type} `{OpenCV C} (P : event -> Prop)
  (process : Image -> iteration -> M control) (interval : Z) :
  (forall image it s, Forall P (posts (trace (process image it s)))) ->
  forall it s, Forall P (posts (trace (pass process interval it s))).
Proof.
  intros Hprocess it s.
  destruct (get_frame_from_stream_shape (conn it) s)
    as (t0 & r0 & Hrun & Hp0 & _).
  destruct r0 as [[image|] | e].
  - destruct (process image it s) as [[t s'] r] eqn:Hproc.
    destruct (acquired_pass_posts process interval it s s' t0 t image r
                Hrun Hp0 Hproc) as [-> _].
    specialize (Hprocess image it s). now rewrite Hproc in Hprocess.
  - destruct (failed_pass process interval it s t0 Hrun Hp0)
      as (t & s' & c & -> & Hp & _). cbn [trace fst]. rewrite Hp. constructor.
  - unfold pass, try_, bind. rewrite Hrun.
    destruct (loop_clauses_run e s) as (t1 & s1 & c1 & -> & Hp1 & _).
    cbn [trace fst]. rewrite posts_app, Hp0, Hp1. constructor.
Qed.

Lemma while_true_posts_forall (P : event -> Prop)
  (body : iteration -> M control) :
  (forall it s, Forall P (posts (trace (body it s)))) ->
  forall its s, Forall P (posts (trace (while_true body its s))).
Proof.
  intros Hbody its. induction its as [|it its IH]; intros s.
  - constructor.
  - cbn [while_true]. unfold bind. specialize (Hbody it s).
    destruct (body it s) as [[t s'] r]. cbn [trace fst] in Hbody.
    destruct r as [[|] | e].
    + specialize (IH s'). destruct (while_true body its s') as [[t1 s1] r1].
      cbn [trace fst] in *. rewrite posts_app. now apply Forall_app.
    + cbn. rewrite posts_app. apply Forall_app. split; [exact Hbody | constructor].
    + exact Hbody.
Qed.

Lemma detect_faces_answer {C : Type} `{OpenCV C} (image : Image) (s : state)
  (face_count : Z) (conf : Q) (faces : list Rect) :
  result (FaceDetector.detect_faces image s) =
  Returned (face_count, conf, faces) ->
  (face_count = 0 /\ conf = 0%Q) \/
  (1 <= face_count /\ exists x, conf = py_min (9 # 10) x).
Proof.
  pose proof (detect_faces_cases image s) as Hc.
  destruct (detectMultiScale (cvtColor_gray image)) as [[|r found]|];
    rewrite Hc; cbn [result snd]; intros Heq; injection Heq as <- <- <-.
  - now left.
  - right. split; [cbn [List.length]; lia | eauto].
  - now left.
Qed.

Lemma face_process_posts_ok {C : Type} `{OpenCV C} (image : Image)
  (it : iteration) (s : state) :
  Forall face_report_ok (posts (trace (FaceLoop.process_frame image it s))).
Proof.
  assert (Hd : exists answer,
    result (FaceDetector.detect_faces image s) = Returned answer).
  { pose proof (detect_faces_cases image s) as Hc.
    destruct (detectMultiScale (cvtColor_gray image));
      rewrite Hc; eexists; reflexivity. }
  destruct Hd as ([[face_count conf] faces] & Hd).
  destruct (face_process_run image it s face_count conf faces Hd)
    as (t & r & Hrun & Hposts & _).
  rewrite Hrun. cbn [trace fst]. rewrite Hposts.
  destruct (FaceLoop.should_report face_count conf (now it)) eqn:Hgo;
    [|constructor].
  constructor; [|constructor]. cbn.
  unfold FaceLoop.should_report, Qge_bool in Hgo.
  apply andb_true_iff in Hgo. destruct Hgo as [_ Hconf].
  apply Qle_bool_iff in Hconf.
  destruct (detect_faces_answer image s _ _ _ Hd) as [[_ ->] | [Hcount [x ->]]].
  - exfalso. apply Hconf. reflexivity.
  - repeat split; auto. rewrite py_min_Qmin. apply Q.le_min_l.
Qed.

(** X7.  Whatever the camera, the clock and the server do, every report
    that a run of the face loop posts is a face report that counts at least
    one face and carries a confidence between 0.7 and 0.9. *)
Theorem face_loop_reports_well_formed {C : Type} `{OpenCV C}
  (its : list iteration) (s : state) :
  Forall face_report_ok (posts (trace (FaceLoop.run_detection_loop its s))).
Proof.
  unfold FaceLoop.run_detection_loop, set_consecutive_errors, bind, get, put.
  cbn [app].
  pose proof (while_true_posts_forall face_report_ok FaceLoop.loop_body
                (pass_posts_forall face_report_ok FaceLoop.process_frame
                   FaceDetector.DETECTION_INTERVAL face_process_posts_ok)
                its (with_consecutive_errors s 0)) as Hall.
  unfold with_consecutive_errors in Hall.
  destruct (while_true FaceLoop.loop_body its _) as [[t s'] r].
  exact Hall.
Qed.

(** ** Motion detector: the motion level *)

Lemma Qgt_bool_lt (a b : Q) : Qgt_bool a b = true <-> (b < a)%Q.
Proof.
  unfold Qgt_bool. rewrite negb_true_iff. split.
  - intros Hle. apply Qnot_le_lt. intros Hab.
    apply Qle_bool_iff in Hab. congruence.
  - intros Hlt. destruct (Qle_bool a b) eqn:E; [|reflexivity].
    apply Qle_bool_iff in E. exfalso. exact (Qlt_not_le _ _ Hlt E).
Qed.

Section Significant.
Context {C : Type} `{OpenCV C}.

(** The loop over the contours keeps those of area above
    [MIN_CONTOUR_AREA], in order, and adds their areas up. *)
Lemma significant_spec (contours : list C) (level0 : Q) (sig0 : list C) :
  MotionDetector.significant contours level0 sig0 =
  (fold_left Qplus
     (map contourArea
        (filter (fun c => Qgt_bool (contourArea c) MotionDetector.MIN_CONTOUR_AREA)
           contours)) level0,
   sig0 ++ filter (fun c => Qgt_bool (contourArea c) MotionDetector.MIN_CONTOUR_AREA)
             contours).
Proof.
  revert level0 sig0. induction contours as [|c contours IH]; intros level0 sig0.
  - cbn. now rewrite app_nil_r.
  - cbn [MotionDetector.significant filter].
    destruct (Qgt_bool (contourArea c) MotionDetector.MIN_CONTOUR_AREA).
    + rewrite IH. cbn [map fold_left]. now rewrite <- app_assoc.
    + apply IH.
Qed.

Lemma fold_left_Qplus_ge (xs : list Q) (a : Q) :
  Forall (fun x => 0 <= x)%Q xs -> (a <= fold_left Qplus xs a)%Q.
Proof.
  intros Hxs. revert a. induction Hxs as [|x xs Hx _ IH]; intros a.
  - apply Qle_refl.
  - cbn [fold_left]. apply Qle_trans with (a + x)%Q; [lra | apply IH].
Qed.

End Significant.

(** X13.  Whatever way [detect_motion] ends, the contours it returns all
    have an area above 500, the motion level it returns is the sum of their
    areas (so it is never negative), motion is signalled exactly when the
    level is above 5000, and never with an empty list of contours. *)
Theorem motion_level_sums_significant_areas {C : Type} `{OpenCV C}
  (frame : Image) (s : state) (detected : bool) (level : Q)
  (contours : list C) :
  result (MotionDetector.detect_motion frame s) =
  Returned (detected, level, contours) ->
  Forall (fun c => MotionDetector.MIN_CONTOUR_AREA < contourArea c)%Q contours /\
  level = fold_left Qplus (map contourArea contours) 0%Q /\
  (0 <= level)%Q /\
  (detected = true <-> (MotionDetector.MOTION_THRESHOLD < level)%Q) /\
  (detected = true -> contours <> []).
Proof.
  rewrite detect_motion_cases.
  assert (Hquiet :
    (false, 0%Q, @nil C) = (detected, level, contours) ->
    Forall (fun c => MotionDetector.MIN_CONTOUR_AREA < contourArea c)%Q contours /\
    level = fold_left Qplus (map contourArea contours) 0%Q /\
    (0 <= level)%Q /\
    (detected = true <-> (MotionDetector.MOTION_THRESHOLD < level)%Q) /\
    (detected = true -> contours <> [])).
  { intros Heq. injection Heq as <- <- <-.
    repeat split; try constructor; try discriminate. }
  destruct (previous_frame s) as [previous|];
    [|cbn [result snd]; intros Heq; apply Hquiet; congruence].
  destruct (compared previous (blurred frame)) as [found|];
    [|cbn [result snd]; intros Heq; apply Hquiet; congruence].
  rewrite significant_spec. cbn [app result snd].
  intros Heq. injection Heq as <- <- <-.
  set (big := filter _ found).
  assert (Hbig : Forall (fun c => MotionDetector.MIN_CONTOUR_AREA < contourArea c)%Q big).
  { apply Forall_forall. intros c Hc. apply filter_In in Hc.
    now apply Qgt_bool_lt. }
  assert (Hpos : (0 <= fold_left Qplus (map contourArea big) 0)%Q).
  { apply fold_left_Qplus_ge. apply Forall_map.
    eapply Forall_impl; [|exact Hbig]. intros c Hc. cbv beta in Hc.
    unfold MotionDetector.MIN_CONTOUR_AREA in Hc. lra. }
  repeat split; auto.
  - now apply Qgt_bool_lt.
  - now apply Qgt_bool_lt.
  - intros Hd Hnil. apply Qgt_bool_lt in Hd. rewrite Hnil in Hd.
    cbn in Hd. discriminate Hd.
Qed.

Lemma motion_level_sums_significant_areas_witness :
  exists level contours,
    result (@MotionDetector.detect_motion Q (sample_cv [] [6000%Q; 100%Q])
              {| shape0 := 480; shape1 := 640; pixels := jpeg_chunk |}
              (with_previous_frame initial_state stored_480x640))
    = Returned (true, level, contours) /\
    contours <> [].
Proof.
  do 2 eexists. split; [reflexivity|].
  refine (proj2 (proj2 (proj2 (proj2
           (@motion_level_sums_significant_areas Q (sample_cv [] [6000%Q; 100%Q])
              {| shape0 := 480; shape1 := 640; pixels := jpeg_chunk |}
              (with_previous_frame initial_state stored_480x640)
              _ _ _ eq_refl)))) eq_refl).
Defined.

Lemma detect_motion_signal {C : Type} `{OpenCV C} (frame : Image) (s : state)
  (level : Q) (contours : list C) :
  result (MotionDetector.detect_motion frame s) =
  Returned (true, level, contours) ->
  (MotionDetector.MOTION_THRESHOLD < level)%Q.
Proof.
  rewrite detect_motion_cases.
  destruct (previous_frame s) as [previous|]; [|discriminate].
  destruct (compared previous (blurred frame)) as [found|]; [|discriminate].
  destruct (MotionDetector.significant found 0%Q []) as [l sig].
  cbn [result snd]. intros Heq. injection Heq as Heq <- _.
  now apply Qgt_bool_lt.
Qed.

Lemma motion_process_posts_ok {C : Type} `{OpenCV C} (image : Image)
  (it : iteration) (s : state) :
  Forall motion_report_ok (posts (trace (MotionLoop.process_frame image it s))).
Proof.
  destruct (detect_motion_shape image s)
    as (t0 & s1 & [[detected level] contours] & Hrun & _).
  assert (Hd : result (MotionDetector.detect_motion image s) =
               Returned (detected, level, contours)) by now rewrite Hrun.
  destruct (motion_process_run image it s detected level contours Hd)
    as (t & s' & r & Hproc & _ & _ & Hposts).
  rewrite Hproc. cbn [trace fst].
  destruct detected; cbn [andb] in Hposts.
  - destruct (Qge_bool _ _); destruct Hposts as [-> _]; [|constructor].
    constructor; [|constructor]. cbn.
    pose proof (detect_motion_signal image s level contours Hd) as Hlevel.
    unfold MotionDetector.MOTION_THRESHOLD in *.
    rewrite py_min_Qmin. repeat split.
    + apply Q.min_glb_lt; [reflexivity|].
      apply Qlt_shift_div_l; [reflexivity | lra].
    + apply Q.le_min_l.
  - destruct Hposts as [-> _]. constructor.
Qed.

(** X8.  Whatever the camera, the clock and the server do, every report
    that a run of the motion loop posts is a motion report with count 1 and
    a confidence above 0.1 and at most 0.95. *)
Theorem motion_loop_reports_well_formed {C : Type} `{OpenCV C}
  (its : list iteration) (s : state) :
  Forall motion_report_ok (posts (trace (MotionLoop.run_detection_loop its s))).
Proof.
  unfold MotionLoop.run_detection_loop, set_consecutive_errors,
    set_last_motion_log_time, bind, get, put.
  cbn [app previous_frame motion_detected_time consecutive_errors
       last_motion_log_time].
  pose proof (while_true_posts_forall motion_report_ok MotionLoop.loop_body
                (pass_posts_forall motion_report_ok MotionLoop.process_frame
                   MotionDetector.DETECTION_INTERVAL motion_process_posts_ok)
                its) as Hall.
  match goal with
  | |- context [while_true MotionLoop.loop_body its ?s0] =>
      specialize (Hall s0); destruct (while_true MotionLoop.loop_body its s0)
        as [[t s'] r]
  end.
  exact Hall.
Qed.

(** ** DetectionLoop: the counter and the interrupt *)

(** The [except] clauses raise the counter by one at most, and stop the
    loop on an interrupt without touching it. *)
Lemma loop_clauses_count (e : exn) (s : state) :
  exists t s' c,
    handle loop_clauses e s = (t, s', Returned c) /\
    consecutive_errors s <= consecutive_errors s' <= consecutive_errors s + 1 /\
    (c = Continue -> consecutive_errors s' < max_consecutive_errors) /\
    (is_KeyboardInterrupt e = true ->
     t = [Printed MsgStoppedByUser] /\ s' = s /\ c = Break).
Proof.
  cbn [handle loop_clauses].
  destruct (is_KeyboardInterrupt e) eqn:Ek.
  - exists [Printed MsgStoppedByUser], s, Break.
    repeat split; try lia; discriminate.
  - assert (He : is_Exception e = true)
      by (destruct e; try reflexivity; discriminate Ek).
    rewrite He. unfold bind. rewrite count_error_run.
    destruct (consecutive_errors s + 1 >=? max_consecutive_errors) eqn:E.
    + do 3 eexists. split; [reflexivity|]. cbn.
      repeat split; try lia; discriminate.
    + do 3 eexists. split; [reflexivity|]. cbn.
      repeat split; try lia; discriminate.
Qed.

(** A pass started below the ceiling returns, with the counter between 0
    and the ceiling, and below it when the loop goes on. *)
Lemma pass_counter_bound {C : Type} `{OpenCV C}
  (process : Image -> iteration -> M control) (interval : Z) :
  resets_counter process ->
  forall it s,
    0 <= consecutive_errors s < max_consecutive_errors ->
    exists t s' c,
      pass process interval it s = (t, s', Returned c) /\
      0 <= consecutive_errors s' <= max_consecutive_errors /\
      (c = Continue -> consecutive_errors s' < max_consecutive_errors).
Proof.
  intros Hreset it s Hs.
  destruct (get_frame_from_stream_shape (conn it) s)
    as (t0 & r0 & Hrun & _ & _).
  unfold pass, try_, bind. rewrite Hrun.
  unfold max_consecutive_errors in *.
  destruct r0 as [[image|] | e].
  - destruct (Hreset image it s) as (t & s' & r & -> & Hzero & _).
    destruct r as [[|] | e].
    + unfold end_of_pass, time_sleep, bind, emit.
      destruct (sleep_raises it) as [e|].
      * unfold raise. destruct (loop_clauses_count e s')
          as (t1 & s1 & c1 & -> & Hc & Hgo & _).
        do 3 eexists. split; [reflexivity|].
        unfold max_consecutive_errors in *. split; [lia | exact Hgo].
      * cbn. do 3 eexists. split; [reflexivity|]. split; lia.
    + cbn. do 3 eexists. split; [reflexivity|]. split; [lia | discriminate].
    + destruct (loop_clauses_count e s') as (t1 & s1 & c1 & -> & Hc & Hgo & _).
      do 3 eexists. split; [reflexivity|].
      unfold max_consecutive_errors in *. split; [lia | exact Hgo].
  - rewrite count_error_run. unfold max_consecutive_errors.
    destruct (consecutive_errors s + 1 >=? 10) eqn:E.
    + cbn. do 3 eexists. split; [reflexivity|]. cbn. split; [lia | discriminate].
    + unfold end_of_pass, time_sleep, bind, emit.
      destruct (sleep_raises it) as [e|].
      * unfold raise.
        destruct (loop_clauses_count e
                    (with_consecutive_errors s (consecutive_errors s + 1)))
          as (t1 & s1 & c1 & -> & Hc & Hgo & _).
        do 3 eexists. split; [reflexivity|]. cbn in Hc.
        unfold max_consecutive_errors in *. split; [lia | exact Hgo].
      * cbn. do 3 eexists. split; [reflexivity|]. cbn. split; lia.
  - destruct (loop_clauses_count e s) as (t1 & s1 & c1 & -> & Hc & Hgo & _).
    do 3 eexists. split; [reflexivity|].
    unfold max_consecutive_errors in *. split; [lia | exact Hgo].
Qed.

Lemma while_true_counter_bound (body : iteration -> M control) :
  (forall it s,
     0 <= consecutive_errors s < max_consecutive_errors ->
     exists t s' c,
       body it s = (t, s', Returned c) /\
       0 <= consecutive_errors s' <= max_consecutive_errors /\
       (c = Continue -> consecutive_errors s' < max_consecutive_errors)) ->
  forall its s,
    0 <= consecutive_errors s < max_consecutive_errors ->
    0 <= consecutive_errors (final (while_true body its s))
      <= max_consecutive_errors /\
    (result (while_true body its s) = Returned Running ->
     consecutive_errors (final (while_true body its s))
       < max_consecutive_errors).
Proof.
  intros Hbody its. induction its as [|it its IH]; intros s Hs.
  - cbn. split; [lia | intros _; lia].
  - cbn [while_true]. unfold bind.
    destruct (Hbody it s Hs) as (t & s' & c & -> & Hbound & Hgo).
    destruct c.
    + specialize (IH s' (conj (proj1 Hbound) (Hgo eq_refl))).
      destruct (while_true body its s') as [[t1 s1] r1]. exact IH.
    + cbn. split; [exact Hbound | discriminate].
Qed.

(** X9.  In both example loops the counter of consecutive errors never
    leaves the range from 0 to the ceiling of 10, whatever happens during
    the run, and the loop is still running only while the counter is below
    the ceiling. *)
Theorem error_counter_stays_within_ceiling {C : Type} `{OpenCV C}
  (its : list iteration) (s : state) :
  (0 <= consecutive_errors (final (FaceLoop.run_detection_loop its s))
     <= max_consecutive_errors /\
   (result (FaceLoop.run_detection_loop its s) = Returned Running ->
    consecutive_errors (final (FaceLoop.run_detection_loop its s))
      < max_consecutive_errors)) /\
  (0 <= consecutive_errors (final (MotionLoop.run_detection_loop its s))
     <= max_consecutive_errors /\
   (result (MotionLoop.run_detection_loop its s) = Returned Running ->
    consecutive_errors (final (MotionLoop.run_detection_loop its s))
      < max_consecutive_errors)).
Proof.
  split.
  - unfold FaceLoop.run_detection_loop, set_consecutive_errors, bind, get, put.
    cbn [app].
    pose proof (while_true_counter_bound FaceLoop.loop_body
                  (pass_counter_bound FaceLoop.process_frame
                     FaceDetector.DETECTION_INTERVAL face_process_resets)
                  its) as Hall.
    match goal with
    | |- context [while_true FaceLoop.loop_body its ?s0] =>
        specialize (Hall s0); destruct (while_true FaceLoop.loop_body its s0)
          as [[t s'] r]
    end.
    apply Hall. cbn. unfold max_consecutive_errors. lia.
  - unfold MotionLoop.run_detection_loop, set_consecutive_errors,
      set_last_motion_log_time, bind, get, put.
    cbn [app previous_frame motion_detected_time consecutive_errors
         last_motion_log_time].
    pose proof (while_true_counter_bound MotionLoop.loop_body
                  (pass_counter_bound MotionLoop.process_frame
                     MotionDetector.DETECTION_INTERVAL motion_process_resets)
                  its) as Hall.
    match goal with
    | |- context [while_true MotionLoop.loop_body its ?s0] =>
        specialize (Hall s0); destruct (while_true MotionLoop.loop_body its s0)
          as [[t s'] r]
    end.
    apply Hall. cbn. unfold max_consecutive_errors. lia.
Qed.

Lemma pass_fetch_interrupted {C : Type} `{OpenCV C}
  (process : Image -> iteration -> M control) (interval : Z) (it : iteration)
  (s : state) :
  result (get_frame_from_stream (conn it) s) = Raised KeyboardInterrupt ->
  exists t0,
    posts t0 = [] /\
    pass process interval it s =
    (t0 ++ [Printed MsgStoppedByUser], s, Returned Break).
Proof.
  destruct (get_frame_from_stream_shape (conn it) s)
    as (t0 & r0 & Hrun & Hp0 & _).
  rewrite Hrun. cbn [result snd]. intros ->. exists t0. split; [exact Hp0|].
  unfold pass, try_, bind. now rewrite Hrun.
Qed.

Lemma pass_sleep_interrupted {C : Type} `{OpenCV C}
  (process : Image -> iteration -> M control) (interval : Z) (it : iteration)
  (s : state) :
  resets_counter process ->
  sleep_raises it = Some KeyboardInterrupt ->
  exists t s', pass process interval it s = (t, s', Returned Break).
Proof.
  intros Hreset Hsleep.
  destruct (get_frame_from_stream_shape (conn it) s)
    as (t0 & r0 & Hrun & _ & Hexc).
  unfold pass, try_, bind. rewrite Hrun.
  assert (Hki : forall e, is_Exception e = false -> e = KeyboardInterrupt)
    by (intros e He; destruct e; try discriminate He; reflexivity).
  destruct r0 as [[image|] | e].
  - destruct (Hreset image it s) as (t & s' & r & -> & _ & Hr).
    destruct r as [[|] | e].
    + unfold end_of_pass, time_sleep, bind, emit. rewrite Hsleep.
      cbn. eauto.
    + cbn. eauto.
    + rewrite (Hki e (Hr e eq_refl)). cbn. eauto.
  - rewrite count_error_run.
    destruct (consecutive_errors s + 1 >=? max_consecutive_errors).
    + cbn. eauto.
    + unfold end_of_pass, time_sleep, bind, emit. rewrite Hsleep. cbn. eauto.
  - rewrite (Hki e (Hexc e eq_refl)). cbn. eauto.
Qed.

Lemma pass_stops_on_interrupt {C : Type} `{OpenCV C}
  (process : Image -> iteration -> M control) (interval : Z) :
  resets_counter process -> stops_on_interrupt (pass process interval).
Proof.
  intros Hreset it rest s. split.
  - intros Hfetch.
    destruct (pass_fetch_interrupted process interval it s Hfetch)
      as (t0 & Hp0 & Hpass).
    cbn [while_true]. unfold bind. rewrite Hpass. cbn.
    repeat split.
    + rewrite !posts_app, Hp0. reflexivity.
    + apply in_or_app. left. apply in_or_app. right. now left.
  - intros Hsleep.
    destruct (pass_sleep_interrupted process interval it s Hreset Hsleep)
      as (t & s' & Hpass).
    cbn [while_true]. unfold bind. rewrite Hpass. cbn. now split.
Qed.

(** X10.  In both example loops an interrupt by the user ends the loop at
    once.  When it arrives while the frame is fetched, the loop stops with
    the state untouched and nothing posted; when it arrives during the sleep
    that closes a pass, the loop stops after that pass; in both cases the
    passes that would follow are never run. *)
Theorem interrupt_stops_loop {C : Type} `{OpenCV C} :
  stops_on_interrupt FaceLoop.loop_body /\
  stops_on_interrupt MotionLoop.loop_body.
Proof.
  split.
  - exact (pass_stops_on_interrupt FaceLoop.process_frame
             FaceDetector.DETECTION_INTERVAL face_process_resets).
  - exact (pass_stops_on_interrupt MotionLoop.process_frame
             MotionDetector.DETECTION_INTERVAL motion_process_resets).
Qed.

Lemma interrupt_stops_loop_witness :
  result (while_true (@MotionLoop.loop_body Q (sample_cv [] []))
            [{| conn := OpenRaises KeyboardInterrupt; now := 1000;
                net := Responds ok_response; sleep_raises := None |};
             failing_pass] initial_state)
  = Returned Stopped.
Proof.
  destruct (@interrupt_stops_loop Q (sample_cv [] [])) as [_ Hmotion].
  destruct (Hmotion {| conn := OpenRaises KeyboardInterrupt; now := 1000;
                       net := Responds ok_response; sleep_raises := None |}
              [failing_pass] initial_state) as [Hfetch _].
  exact (proj1 (Hfetch eq_refl)).
Defined.

(** ** The motion loop: the spacing of the reports of a run *)

(** The branch of an acquired frame either posts nothing and keeps the time
    of the last report, or posts when the cooldown has passed and, unless
    the report is interrupted, takes the clock as the new time. *)
Lemma motion_process_spacing {C : Type} `{OpenCV C} (image : Image)
  (it : iteration) (s : state) :
  exists t s' r,
    MotionLoop.process_frame image it s = (t, s', r) /\
    (forall e, r = Raised e -> is_Exception e = false) /\
    ((posts t = [] /\ last_motion_log_time s' = last_motion_log_time s) \/
     (posts t <> [] /\
      (motion_cooldown <= now it - last_motion_log_time s)%Q /\
      (forall c, r = Returned c -> last_motion_log_time s' = now it))).
Proof.
  destruct (detect_motion_shape image s)
    as (t0 & s1 & [[detected level] contours] & Hrun & Hp0 & Hlast & Hce & Hn).
  unfold MotionLoop.process_frame, set_consecutive_errors, bind, get, put.
  cbn [app]. fold (with_consecutive_errors s 0). rewrite Hn.
  destruct detected.
  - cbn [last_motion_log_time with_consecutive_errors]. rewrite Hlast.
    destruct (Qge_bool (now it - last_motion_log_time s) motion_cooldown) eqn:Hgo.
    + apply Qle_bool_iff in Hgo.
      unfold MotionDetector.log_detection.
      destruct (example_log_shape (motion_report level) (net it)
                  (with_consecutive_errors s1 0))
        as (t & r & Hlog & Hp & Hexc).
      unfold motion_report in Hlog. rewrite Hlog.
      destruct r as [b | e].
      * unfold set_last_motion_log_time, set_motion_detected_time, bind, get, put.
        cbn. do 3 eexists. split; [reflexivity|]. split; [discriminate|].
        right. rewrite !posts_app, Hp0, Hp. cbn.
        split; [discriminate | split; [exact Hgo | reflexivity]].
      * do 3 eexists. split; [reflexivity|].
        split; [intros e0 He0; injection He0 as <-; apply (Hexc e eq_refl)|].
        right. cbn [app]. rewrite !posts_app, Hp0, Hp. cbn.
        split; [discriminate | split; [exact Hgo | discriminate]].
    + do 3 eexists. split; [reflexivity|]. split; [discriminate|].
      left. cbn. rewrite !posts_app, Hp0. cbn. auto.
  - destruct (py_int (now it) mod 60 =? 0); do 3 eexists;
      (split; [reflexivity|]); (split; [discriminate|]); left; cbn;
      rewrite !posts_app, Hp0; cbn; auto.
Qed.

(** A pass whose branch raises ends the loop. *)
Lemma acquired_pass_result {C : Type} `{OpenCV C}
  (process : Image -> iteration -> M control) (interval : Z) (it : iteration)
  (s s' : state) (t0 t : list event) (image : Image) (e : exn) :
  get_frame_from_stream (conn it) s = (t0, s, Returned (Some image)) ->
  process image it s = (t, s', Raised e) ->
  is_Exception e = false ->
  result (pass process interval it s) = Returned Break.
Proof.
  intros Hfetch Hproc He. unfold pass, try_, bind. rewrite Hfetch, Hproc.
  destruct e; try discriminate He. reflexivity.
Qed.

(** A pass that acquires no frame posts nothing and keeps the time of the
    last report. *)
Lemma frameless_pass_quiet {C : Type} `{OpenCV C}
  (process : Image -> iteration -> M control) (interval : Z) (it : iteration)
  (s : state) (t0 : list event) (r0 : outcome (option Image)) :
  get_frame_from_stream (conn it) s = (t0, s, r0) -> posts t0 = [] ->
  (forall image, r0 <> Returned (Some image)) ->
  posts (trace (pass process interval it s)) = [] /\
  last_motion_log_time (final (pass process interval it s)) =
  last_motion_log_time s.
Proof.
  intros Hrun Hp0 Hnone. unfold pass, try_, bind. rewrite Hrun.
  destruct r0 as [[image|] | e]; [now destruct (Hnone image) | |].
  - rewrite count_error_run.
    destruct (consecutive_errors s + 1 >=? max_consecutive_errors).
    + cbn. rewrite !posts_app, Hp0. now split.
    + unfold end_of_pass, time_sleep, bind, emit.
      destruct (sleep_raises it) as [e|].
      * unfold raise.
        destruct (loop_clauses_run e
                    (with_consecutive_errors s (consecutive_errors s + 1)))
          as (t1 & s1 & c1 & -> & Hp1 & _ & _ & Hlast).
        cbn. rewrite !posts_app, Hp0, Hp1. now split.
      * cbn. rewrite !posts_app, Hp0. now split.
  - destruct (loop_clauses_run e s) as (t1 & s1 & c1 & -> & Hp1 & _ & _ & Hlast).
    cbn. rewrite !posts_app, Hp0, Hp1. now split.
Qed.

Lemma motion_pass_spacing {C : Type} `{OpenCV C} (it : iteration) (s : state) :
  (posts (trace (MotionLoop.loop_body it s)) = [] /\
   last_motion_log_time (final (MotionLoop.loop_body it s)) =
   last_motion_log_time s) \/
  (posts (trace (MotionLoop.loop_body it s)) <> [] /\
   (motion_cooldown <= now it - last_motion_log_time s)%Q /\
   (result (MotionLoop.loop_body it s) = Returned Continue ->
    last_motion_log_time (final (MotionLoop.loop_body it s)) = now it)).
Proof.
  rewrite motion_loop_body_pass.
  destruct (get_frame_from_stream_shape (conn it) s)
    as (t0 & r0 & Hrun & Hp0 & _).
  destruct r0 as [[image|] | e].
  - destruct (motion_process_spacing image it s)
      as (t & s' & r & Hproc & Hexc & Hcases).
    destruct (acquired_pass_posts _ MotionDetector.DETECTION_INTERVAL it s s'
                t0 t image r Hrun Hp0 Hproc) as [-> ->].
    destruct Hcases as [[Hnone Hlast] | (Hsome & Hgo & Hlast)]; [now left|].
    right. split; [exact Hsome | split; [exact Hgo|]].
    intros Hres. destruct r as [c | e].
    + now apply (Hlast c).
    + rewrite (acquired_pass_result _ _ it s s' t0 t image e Hrun Hproc
                 (Hexc e eq_refl)) in Hres. discriminate Hres.
  - left. apply (frameless_pass_quiet _ _ it s t0 (Returned None) Hrun Hp0).
    discriminate.
  - left. apply (frameless_pass_quiet _ _ it s t0 (Raised e) Hrun Hp0).
    discriminate.
Qed.

(** X12.  In a run of the motion loop, whatever the camera, the server and
    the sleeps do, the clock readings of the passes that post a report are
    each at least the cooldown of 5 seconds after the one before, and the
    first at least 5 seconds after the time of the last report the run
    starts with. *)
Theorem motion_reports_spaced_by_cooldown {C : Type} `{OpenCV C}
  (its : list iteration) (s : state) :
  spaced_from (last_motion_log_time s)
    (report_times MotionLoop.loop_body its s).
Proof.
  revert s. induction its as [|it its IH]; intros s; [exact I|].
  cbn [report_times].
  destruct (motion_pass_spacing it s) as [[Hnone Hlast] | (Hsome & Hgo & Hlast)].
  - rewrite Hnone. cbn [app].
    destruct (result (MotionLoop.loop_body it s)) as [[|] | e]; try exact I.
    rewrite <- Hlast. apply IH.
  - destruct (posts (trace (MotionLoop.loop_body it s))) as [|ev evs];
      [congruence|].
    destruct (result (MotionLoop.loop_body it s)) as [[|] | e];
      cbn [app spaced_from]; try (split; [exact Hgo | exact I]).
    split; [exact Hgo|]. rewrite <- (Hlast eq_refl). apply IH.
Qed.

(** Three passes with significant motion at seconds 1000, 1002 and 1006:
    the first and the third are reported. *)
Lemma report_times_of_three_passes :
  report_times (@MotionLoop.loop_body Q (sample_cv [] [6000%Q]))
    [sample_pass 1000 (Responds ok_response);
     sample_pass 1002 (Responds ok_response);
     sample_pass 1006 (Responds ok_response)]
    (with_previous_frame initial_state stored_480x640)
  = [1000%Q; 1006%Q].
Proof. reflexivity. Qed.

(** ** Motion detector: after a change of frame size *)

Lemma absdiff_needs_same_size (a b : Gray) :
  ~ same_size a b -> MotionDetector.absdiff a b = None.
Proof.
  intros Hsize. unfold MotionDetector.absdiff.
  destruct ((rows a =? rows b) && (cols a =? cols b)) eqn:E; [|reflexivity].
  apply andb_true_iff in E. destruct E as [Hr Hc].
  apply Z.eqb_eq in Hr, Hc. now destruct Hsize.
Qed.

(** X14.  Once the stored previous frame has a size that the incoming
    frames do not have, the detector is blind for good: on every frame of a
    sequence of any length, [detect_motion] answers [(False, 0, [])], and the
    stored frame, like the rest of the state, stays what it was. *)
Theorem detector_blind_after_size_change {C : Type} `{OpenCV C}
  (frames : list Image) (s : state) (previous : Gray) :
  previous_frame s = Some previous ->
  Forall (fun frame => ~ same_size previous (blurred frame)) frames ->
  result (detect_all frames s) =
  Returned (map (fun _ => (false, 0%Q, [])) frames) /\
  final (detect_all frames s) = s.
Proof.
  intros Hprev Hsizes. induction Hsizes as [|frame frames Hsize _ IH].
  - now split.
  - cbn [detect_all map]. unfold bind.
    rewrite (previous_frame_kept_after_error frame s previous Hprev).
    + destruct (detect_all frames s) as [[t s'] r]. cbn in IH.
      destruct IH as [-> ->]. now split.
    + unfold compared. now rewrite (absdiff_needs_same_size _ _ Hsize).
Qed.

Lemma detector_blind_after_size_change_witness :
  result (@detect_all Q (sample_cv [] [6000%Q]) [frame_2x3; frame_2x3]
            (with_previous_frame initial_state stored_2x2))
  = Returned [(false, 0%Q, []); (false, 0%Q, [])].
Proof.
  refine (proj1 (@detector_blind_after_size_change Q (sample_cv [] [6000%Q])
                   [frame_2x3; frame_2x3]
                   (with_previous_frame initial_state stored_2x2)
                   stored_2x2 eq_refl _)).
  repeat constructor; intros [_ Hcols]; discriminate Hcols.
Defined.

(** ** The server script: the buffer across reads *)

(** A start marker that follows an end marker begins at least two bytes
    later. *)
Lemma start_marker_after_end (bs : list byte) (s e : Z) :
  marker_at SOI bs s -> marker_at EOI bs e -> e < s -> e + 2 <= s.
Proof.
  intros Hs He Hlt.
  destruct (Z.eq_dec s (e + 1)) as [Heq|]; [|lia].
  exfalso. pose proof (marker_at_nonneg _ _ _ He) as He0.
  destruct (marker_at_suffix _ _ _ Hs) as [t1 H1].
  destruct (marker_at_suffix _ _ _ He) as [t2 H2].
  replace (Z.to_nat s) with (1 + Z.to_nat e)%nat in H1 by lia.
  rewrite <- skipn_skipn, H2 in H1. cbn in H1. discriminate H1.
Qed.

Lemma markers_differ (bs : list byte) (i : Z) :
  marker_at SOI bs i -> marker_at EOI bs i -> False.
Proof.
  intros Hs He.
  destruct (marker_at_suffix _ _ _ Hs) as [t1 H1].
  destruct (marker_at_suffix _ _ _ He) as [t2 H2].
  rewrite H1 in H2. discriminate H2.
Qed.

(** What the scan of the server script cuts out and what it keeps. *)
Lemma server_scan_shape (bs jpg rest : list byte) :
  server_scan bs = Some (jpg, rest) ->
  exists s e pre,
    first_marker SOI bs s /\ first_marker EOI bs e /\
    bs = pre ++ EOI ++ rest /\ Z.of_nat (List.length pre) = e /\
    (s < e -> exists body, jpg = SOI ++ body ++ EOI) /\
    (e < s -> jpg = []) /\
    (List.length jpg + List.length rest <= List.length bs)%nat.
Proof.
  unfold server_scan.
  destruct (find_range SOI bs) as [Hs|Hs], (find_range EOI bs) as [He|He];
    destruct (find bs SOI =? -1) eqn:E1, (find bs EOI =? -1) eqn:E2;
    cbn [negb andb]; try lia; try discriminate.
  intros Heq. injection Heq as <- <-.
  set (s := find bs SOI) in *. set (e := find bs EOI) in *.
  assert (Hfs : first_marker SOI bs s) by (apply find_first; auto).
  assert (Hfe : first_marker EOI bs e) by (apply find_first; auto).
  pose proof (marker_at_end _ _ _ (proj1 Hfe)) as Hend.
  cbn [List.length EOI] in Hend.
  destruct (proj1 Hfe) as (pre & post & Hbs & Hpre).
  exists s, e, pre. split; [exact Hfs | split; [exact Hfe|]].
  assert (Hrest : slice_from bs (e + 2) = post).
  { unfold slice_from. rewrite Hbs at 1.
    replace (Z.to_nat (e + 2)) with (List.length (pre ++ EOI))
      by (rewrite length_app; cbn [List.length EOI]; lia).
    rewrite app_assoc, skipn_app, skipn_all, Nat.sub_diag. reflexivity. }
  rewrite Hrest. split; [exact Hbs | split; [exact Hpre|]].
  split; [|split].
  - intros Hlt.
    apply slice_between_markers; [apply Hfs | apply Hfe | exact Hlt].
  - intros Hlt.
    pose proof (start_marker_after_end bs s e (proj1 Hfs) (proj1 Hfe) Hlt).
    unfold slice. replace (Z.to_nat (e + 2 - s)) with 0%nat by lia.
    reflexivity.
  - unfold slice. rewrite length_firstn, length_skipn.
    apply (f_equal (@List.length byte)) in Hbs.
    rewrite !length_app in Hbs. cbn [List.length EOI] in Hbs.
    destruct (Z_lt_le_dec e s) as [Hlt | Hle].
    + pose proof (start_marker_after_end bs s e (proj1 Hfs) (proj1 Hfe) Hlt).
      lia.
    + lia.
Qed.

(** X15.  When the server script cuts a frame out of its buffer, the new
    buffer is exactly what followed the first end marker, so it is shorter
    by two bytes at least; the bytes handed to the decoder run from the
    first start marker to that end marker when the start marker comes
    first, and are empty when the end marker comes first. *)
Theorem server_scan_consumes_first_end_marker (bs jpg rest : list byte) :
  server_scan bs = Some (jpg, rest) ->
  (exists s e pre,
     first_marker SOI bs s /\ first_marker EOI bs e /\
     bs = pre ++ EOI ++ rest /\ Z.of_nat (List.length pre) = e /\
     (s < e -> exists body, jpg = SOI ++ body ++ EOI) /\
     (e < s -> jpg = [])) /\
  (List.length rest + 2 <= List.length bs)%nat.
Proof.
  intros Hscan.
  destruct (server_scan_shape bs jpg rest Hscan)
    as (s & e & pre & Hs & He & Hbs & Hpre & Hframe & Hempty & _).
  split.
  - exists s, e, pre. repeat split; try apply Hs; try apply He; auto.
  - apply (f_equal (@List.length byte)) in Hbs.
    rewrite !length_app in Hbs. cbn [List.length EOI] in Hbs. lia.
Qed.

Lemma server_scan_consumes_first_end_marker_witness :
  exists s e pre,
    first_marker SOI [x00; xff; xd8; x01; xff; xd9; x02] s /\
    first_marker EOI [x00; xff; xd8; x01; xff; xd9; x02] e /\
    [x00; xff; xd8; x01; xff; xd9; x02] = pre ++ EOI ++ [x02] /\
    Z.of_nat (List.length pre) = e.
Proof.
  destruct (server_scan_consumes_first_end_marker
              [x00; xff; xd8; x01; xff; xd9; x02] [xff; xd8; x01; xff; xd9]
              [x02] eq_refl)
    as [(s & e & pre & Hs & He & Hbs & Hpre & _) _].
  exists s, e, pre.
  split; [exact Hs | split; [exact He | split; [exact Hbs | exact Hpre]]].
Defined.

Lemma server_frames_step (chunk : list byte) (chunks : list (list byte))
  (buf : list byte) :
  server_frames (chunk :: chunks) buf =
  match server_scan (buf ++ chunk) with
  | Some (jpg, rest) =>
      if is_empty jpg then ([jpg], rest)
      else (jpg :: fst (server_frames chunks rest),
            snd (server_frames chunks rest))
  | None => server_frames chunks (buf ++ chunk)
  end.
Proof.
  cbn [server_frames]. destruct (server_scan (buf ++ chunk)) as [[jpg rest]|];
    [|reflexivity].
  destruct (is_empty jpg); [reflexivity|].
  now destruct (server_frames chunks rest).
Qed.

(** X16.  Over the reads of one connection the server script cuts out at
    most one frame per read, never hands a byte on twice (the frames and the
    final buffer together are no longer than the bytes received), and every
    frame it hands on is either empty or runs from a start marker to an end
    marker. *)
Theorem server_frames_account_for_bytes (chunks : list (list byte))
  (buf : list byte) :
  (List.length (fst (server_frames chunks buf)) <= List.length chunks)%nat /\
  (List.length (List.concat (fst (server_frames chunks buf))) +
   List.length (snd (server_frames chunks buf))
   <= List.length buf + List.length (List.concat chunks))%nat /\
  Forall (fun jpg => jpg = [] \/ exists body, jpg = SOI ++ body ++ EOI)
    (fst (server_frames chunks buf)).
Proof.
  revert buf. induction chunks as [|chunk chunks IH]; intros buf.
  - cbn. repeat split; try lia. constructor.
  - rewrite server_frames_step.
    destruct (server_scan (buf ++ chunk)) as [[jpg rest]|] eqn:Hscan.
    + destruct (IH rest) as (Hcount & Hbytes & Hframes).
      destruct (server_scan_shape _ _ _ Hscan)
        as (s & e & pre & Hs & He & _ & _ & Hframe & Hempty & Hlen).
      rewrite length_app in Hlen.
      assert (Hjpg : jpg = [] \/ exists body, jpg = SOI ++ body ++ EOI).
      { destruct (Z_lt_le_dec s e) as [Hlt | Hle]; [right; now apply Hframe|].
        left. apply Hempty.
        destruct (Z.eq_dec s e) as [->|]; [|lia].
        destruct (markers_differ _ _ (proj1 Hs) (proj1 He)). }
      destruct (is_empty jpg);
        cbn [fst snd List.length List.concat]; rewrite ?length_app;
        cbn [List.length]; repeat split; try lia;
        constructor; solve [exact Hjpg | exact Hframes | constructor].
    + destruct (IH (buf ++ chunk)) as (Hcount & Hbytes & Hframes).
      rewrite length_app in Hbytes.
      cbn [List.length List.concat]. rewrite length_app.
      repeat split; try lia. exact Hframes.
Qed.

(** ** Reporter: one request per call *)

Lemma server_log_shape (net : post_result) (count : Z) (conf : Q) (s : state) :
  exists t r,
    ServerScript.log_detection net count conf s = (t, s, r) /\
    posts t = [Post {| detectionType := Face; detectedCount := count;
                       confidence := conf |}] /\
    forall e, r = Raised e -> is_Exception e = false /\ net = PostRaises e.
Proof.
  unfold ServerScript.log_detection, try_, requests_post, bind, emit, ret, raise.
  destruct net as [r | e].
  - destruct (status_code r =? 200); cbn; do 2 eexists;
      (split; [reflexivity|]); (split; [reflexivity|]); discriminate.
  - cbn [handle]. destruct (is_Exception e) eqn:E; cbn; do 2 eexists;
      (split; [reflexivity|]); (split; [reflexivity|]); try discriminate.
    intros e0 He0. injection He0 as <-. now split.
Qed.

(** X17.  Every call of [log_detection], in the three scripts, issues
    exactly one request to the analytics endpoint, whatever the answer or
    the failure, with the type, count and confidence it was given (the
    motion script derives the confidence from the motion level); it never
    tries again and never changes the state of the detector. *)
Theorem log_detection_posts_once (net : post_result) (count : Z)
  (conf level : Q) (s : state) :
  (posts (trace (FaceDetector.log_detection net count conf s)) =
   [Post {| detectionType := Face; detectedCount := count;
            confidence := conf |}] /\
   final (FaceDetector.log_detection net count conf s) = s) /\
  (posts (trace (MotionDetector.log_detection net level count s)) =
   [Post (motion_report level)] /\
   final (MotionDetector.log_detection net level count s) = s) /\
  (posts (trace (ServerScript.log_detection net count conf s)) =
   [Post {| detectionType := Face; detectedCount := count;
            confidence := conf |}] /\
   final (ServerScript.log_detection net count conf s) = s).
Proof.
  split; [|split].
  - unfold FaceDetector.log_detection.
    destruct (example_log_shape
                {| detectionType := Face; detectedCount := count;
                   confidence := conf |} net s) as (t & r & -> & Hp & _).
    now split.
  - unfold MotionDetector.log_detection.
    destruct (example_log_shape (motion_report level) net s)
      as (t & r & Hrun & Hp & _).
    unfold motion_report in Hrun. rewrite Hrun. now split.
  - destruct (server_log_shape net count conf s) as (t & r & -> & Hp & _).
    now split.
Qed.

(** ** The entry points *)

Lemma ten_failing_passes_stop {C : Type} `{OpenCV C}
  (process : Image -> iteration -> M control) (interval : Z)
  (fails rest : list iteration) (s : state) :
  Forall fetch_fails fails ->
  max_consecutive_errors <= Z.of_nat (List.length fails) ->
  consecutive_errors s = 0 ->
  exists t s',
    while_true (pass process interval) (fails ++ rest) s =
    (t, s', Returned Stopped) /\ posts t = [].
Proof.
  intros Hall Hlen Hzero.
  destruct (failing_passes_stop process interval fails Hall s)
    as (t & s' & Hp & Hrest).
  - rewrite Hzero. reflexivity.
  - rewrite Hzero. lia.
  - exists t, s'. split; [apply Hrest | exact Hp].
Qed.

(** X18.  With the viewer key the scripts ship with, [main] exits with
    status 1 before anything else happens, in both scripts, and so does the
    face script when its classifier is not loaded.  With a key of one's own
    (and the classifier loaded), a run that starts with ten or more passes
    without a frame makes the loop stop on the ceiling of errors, and [main]
    then returns in the ordinary way, not with an exit status of 1, and
    without a report. *)
Theorem main_exit_status {C : Type} `{OpenCV C} (key : string)
  (cascade_empty : bool) (its : list iteration) (s : state) :
  (key = PLACEHOLDER_KEY ->
   FaceMain.main key cascade_empty its s = ([], s, Returned (Exits 1)) /\
   MotionMain.main key its s = ([], s, Returned (Exits 1))) /\
  (key <> PLACEHOLDER_KEY -> cascade_empty = true ->
   FaceMain.main key cascade_empty its s = ([], s, Returned (Exits 1))) /\
  (key <> PLACEHOLDER_KEY -> cascade_empty = false ->
   forall fails rest,
     its = fails ++ rest ->
     Forall fetch_fails fails ->
     max_consecutive_errors <= Z.of_nat (List.length fails) ->
     (result (FaceMain.main key cascade_empty its s) = Returned (Returns Stopped) /\
      posts (trace (FaceMain.main key cascade_empty its s)) = []) /\
     (result (MotionMain.main key its s) = Returned (Returns Stopped) /\
      posts (trace (MotionMain.main key its s)) = [])).
Proof.
  split; [|split].
  - intros ->. now split.
  - intros Hkey ->. unfold FaceMain.main.
    rewrite (proj2 (String.eqb_neq _ _) Hkey). reflexivity.
  - intros Hkey -> fails rest -> Hall Hlen.
    unfold FaceMain.main, MotionMain.main.
    rewrite (proj2 (String.eqb_neq _ _) Hkey).
    split.
    + unfold FaceMain.init, FaceLoop.run_detection_loop,
        set_consecutive_errors, try_, bind, get, put, ret.
      cbn [app].
      destruct (ten_failing_passes_stop FaceLoop.process_frame
                  FaceDetector.DETECTION_INTERVAL fails rest
                  (with_consecutive_errors s 0) Hall Hlen eq_refl)
        as (t & s' & Hrun & Hp).
      unfold with_consecutive_errors in Hrun.
      change FaceLoop.loop_body
        with (pass FaceLoop.process_frame FaceDetector.DETECTION_INTERVAL).
      rewrite Hrun. cbn. rewrite app_nil_r. now split.
    + unfold MotionMain.init, MotionLoop.run_detection_loop,
        set_consecutive_errors, set_last_motion_log_time, try_, bind, get, put,
        ret.
      cbn [app previous_frame motion_detected_time consecutive_errors
           last_motion_log_time].
      change MotionLoop.loop_body
        with (pass MotionLoop.process_frame MotionDetector.DETECTION_INTERVAL).
      match goal with
      | |- context [while_true _ (fails ++ rest) ?s0] =>
          destruct (ten_failing_passes_stop MotionLoop.process_frame
                      MotionDetector.DETECTION_INTERVAL fails rest s0
                      Hall Hlen eq_refl) as (t & s' & Hrun & Hp)
      end.
      rewrite Hrun. cbn. rewrite app_nil_r. now split.
Qed.

Lemma main_exit_status_witness :
  @FaceMain.main Q (sample_cv [] []) PLACEHOLDER_KEY false
    (repeat failing_pass 10) initial_state
  = ([], initial_state, Returned (Exits 1)) /\
  result (@MotionMain.main Q (sample_cv [] []) "my-key"
            (repeat failing_pass 10 ++ []) initial_state)
  = Returned (Returns Stopped).
Proof.
  destruct (@main_exit_status Q (sample_cv [] []) PLACEHOLDER_KEY false
              (repeat failing_pass 10) initial_state) as (Hshipped & _ & _).
  destruct (@main_exit_status Q (sample_cv [] []) "my-key" false
              (repeat failing_pass 10 ++ []) initial_state) as (_ & _ & Hown).
  split.
  - exact (proj1 (Hshipped eq_refl)).
  - refine (proj1 (proj2 (Hown _ eq_refl (repeat failing_pass 10) [] eq_refl _ _))).
    + discriminate.
    + repeat constructor.
    + unfold max_consecutive_errors. cbn. lia.
Defined.

Lemma loop_clauses_previous_frame (e : exn) (s : state) :
  exists t s' c,
    handle loop_clauses e s = (t, s', Returned c) /\
    posts t = [] /\ previous_frame s' = previous_frame s.
Proof.
  cbn [handle loop_clauses].
  destruct (is_KeyboardInterrupt e) eqn:Ek.
  - now exists [Printed MsgStoppedByUser], s, Break.
  - assert (He : is_Exception e = true)
      by (destruct e; try reflexivity; discriminate Ek).
    rewrite He. unfold bind. rewrite count_error_run.
    destruct (consecutive_errors s + 1 >=? max_consecutive_errors);
      do 3 eexists; (split; [reflexivity|]); now split.
Qed.

(** A pass that acquires no frame posts nothing and leaves the stored
    previous frame alone. *)
Lemma frameless_pass_previous_frame {C : Type} `{OpenCV C}
  (process : Image -> iteration -> M control) (interval : Z) (it : iteration)
  (s : state) :
  fetch_fails it ->
  exists t s' c,
    pass process interval it s = (t, s', Returned c) /\
    posts t = [] /\ previous_frame s' = previous_frame s.
Proof.
  intros Hfail. destruct (fetch_triple _ _ _ (Hfail s)) as (t0 & Hrun & Hp0).
  unfold pass, try_, bind. rewrite Hrun, count_error_run.
  destruct (consecutive_errors s + 1 >=? max_consecutive_errors).
  - cbn. do 3 eexists. split; [reflexivity|].
    rewrite !posts_app, Hp0. now split.
  - unfold end_of_pass, time_sleep, bind, emit.
    destruct (sleep_raises it) as [e|].
    + unfold raise.
      destruct (loop_clauses_previous_frame e
                  (with_consecutive_errors s (consecutive_errors s + 1)))
        as (t1 & s1 & c1 & -> & Hp1 & Hprev).
      do 3 eexists. split; [reflexivity|].
      rewrite !posts_app, Hp0, Hp1. now split.
    + cbn. do 3 eexists. split; [reflexivity|].
      rewrite !posts_app, Hp0. now split.
Qed.

(** A pass of the motion loop with no previous frame stored posts
    nothing. *)
Lemma motion_first_pass_quiet {C : Type} `{OpenCV C} (it : iteration)
  (s : state) :
  previous_frame s = None ->
  posts (trace (MotionLoop.loop_body it s)) = [].
Proof.
  intros Hprev. rewrite motion_loop_body_pass.
  destruct (get_frame_from_stream_shape (conn it) s)
    as (t0 & r0 & Hrun & Hp0 & _).
  destruct r0 as [[image|] | e].
  - assert (Hd : result (MotionDetector.detect_motion image s) =
                 Returned (false, 0%Q, @nil C))
      by now rewrite detect_motion_cases, Hprev.
    destruct (motion_process_run image it s false 0%Q [] Hd)
      as (t & s' & r & Hproc & _ & _ & Hposts & _).
    destruct (acquired_pass_posts _ MotionDetector.DETECTION_INTERVAL it s s'
                t0 t image r Hrun Hp0 Hproc) as [-> _].
    exact Hposts.
  - apply (frameless_pass_quiet _ _ it s t0 (Returned None) Hrun Hp0).
    discriminate.
  - apply (frameless_pass_quiet _ _ it s t0 (Raised e) Hrun Hp0).
    discriminate.
Qed.

Lemma frameless_passes_then_first_frame {C : Type} `{OpenCV C}
  (fails : list iteration) (it : iteration) :
  Forall fetch_fails fails ->
  forall s,
    previous_frame s = None ->
    posts (trace (while_true MotionLoop.loop_body (fails ++ [it]) s)) = [].
Proof.
  induction 1 as [|f fails Hf _ IH]; intros s Hprev.
  - cbn [app while_true]. unfold bind.
    pose proof (motion_first_pass_quiet it s Hprev) as Hquiet.
    destruct (MotionLoop.loop_body it s) as [[t s'] r]. cbn [trace fst] in Hquiet.
    destruct r as [[|] | e]; unfold ret, emit, bind; cbn [while_true trace fst];
      unfold ret; cbn [trace fst]; rewrite ?posts_app, Hquiet; reflexivity.
  - cbn [app while_true]. unfold bind.
    destruct (frameless_pass_previous_frame MotionLoop.process_frame
                MotionDetector.DETECTION_INTERVAL f s Hf)
      as (t & s' & c & Hpass & Hp & Hkeep).
    change (pass MotionLoop.process_frame MotionDetector.DETECTION_INTERVAL f s)
      with (MotionLoop.loop_body f s) in Hpass.
    rewrite Hpass. destruct c.
    + specialize (IH s' (eq_trans Hkeep Hprev)).
      destruct (while_true MotionLoop.loop_body (fails ++ [it]) s')
        as [[t1 s1] r1].
      cbn [trace fst] in *. now rewrite posts_app, Hp, IH.
    + unfold emit, ret, bind. cbn [trace fst]. now rewrite !posts_app, Hp.
Qed.

(** X19.  The motion script never reports on the first frame of a run:
    started through [main] with a key of one's own, a run in which the first
    frame arrives after any number of passes without a frame posts no report
    up to and including the pass of that frame, whatever the frame shows. *)
Theorem first_frame_of_a_run_unreported {C : Type} `{OpenCV C}
  (key : string) (fails : list iteration) (it : iteration) (s : state) :
  key <> PLACEHOLDER_KEY ->
  Forall fetch_fails fails ->
  posts (trace (MotionMain.main key (fails ++ [it]) s)) = [].
Proof.
  intros Hkey Hfails. unfold MotionMain.main.
  rewrite (proj2 (String.eqb_neq _ _) Hkey).
  unfold MotionMain.init, MotionLoop.run_detection_loop,
    set_consecutive_errors, set_last_motion_log_time, try_, bind, get, put, ret.
  cbn [app previous_frame motion_detected_time consecutive_errors
       last_motion_log_time].
  match goal with
  | |- context [while_true _ (fails ++ [it]) ?s0] =>
      pose proof (frameless_passes_then_first_frame fails it Hfails s0 eq_refl)
        as Hquiet;
      destruct (while_true MotionLoop.loop_body (fails ++ [it]) s0)
        as [[t s'] r]
  end.
  cbn [trace fst] in Hquiet.
  destruct r as [status | e]; cbn; rewrite ?app_nil_r; try exact Hquiet.
  destruct (is_Exception e); cbn; rewrite ?app_nil_r; exact Hquiet.
Qed.

Lemma first_frame_of_a_run_unreported_witness :
  posts (trace (@MotionMain.main Q (sample_cv [] [6000%Q]) "my-key"
                  ([failing_pass] ++ [sample_pass 1000 (Responds ok_response)])
                  initial_state)) = [].
Proof.
  apply (@first_frame_of_a_run_unreported Q (sample_cv [] [6000%Q])).
  - discriminate.
  - repeat constructor.
Defined.

(** ** The loop of the server script *)

Section ServerLoopFacts.
Context {C : Type} `{OpenCV C}.

(** What is done with a frame: the state is left alone, the reports are
    well formed, and only an error of the classifier, of the sleep, or an
    interrupt of the report can end it. *)
Lemma process_jpg_shape (jpg : list byte) (rd : ServerLoop.server_read)
  (s : state) :
  exists t r,
    ServerLoop.process_jpg jpg rd s = (t, s, r) /\
    Forall server_report_ok (posts t).
Proof.
  unfold ServerLoop.process_jpg, cv2_imdecode, bind.
  destruct (is_empty jpg); [now exists [], (Raised CvError)|].
  cbn [ret app].
  destruct (imdecode jpg) as [img|]; [|now exists [], (Returned tt)].
  unfold bind, cv.
  destruct (detectMultiScale (cvtColor_gray img)) as [faces|];
    [|now exists [], (Raised CvError)].
  cbn [ret app].
  destruct (Z.of_nat (List.length faces) >? 0) eqn:Hcount.
  - destruct (server_log_shape (ServerLoop.answer rd)
                (Z.of_nat (List.length faces)) (8 # 10) s)
      as (t & r & -> & Hp & _).
    assert (Hok : Forall server_report_ok (posts t)).
    { rewrite Hp. constructor; [|constructor]. cbn.
      apply Z.gtb_lt in Hcount. repeat split; lia. }
    destruct r as [[] | e].
    + unfold time_sleep, bind, emit.
      destruct (ServerLoop.nap rd) as [e|]; cbn; do 2 eexists;
        (split; [reflexivity|]); rewrite !posts_app;
        apply Forall_app; (split; [exact Hok | constructor]).
    + do 2 eexists. split; [reflexivity | exact Hok].
  - unfold time_sleep, bind, emit, ret.
    destruct (ServerLoop.nap rd) as [e|]; cbn; do 2 eexists;
      (split; [reflexivity | constructor]).
Qed.

Lemma inner_loop_shape (reads : list ServerLoop.server_read) (buf : list byte)
  (s : state) :
  exists t r,
    ServerLoop.inner_loop reads buf s = (t, s, r) /\
    Forall server_report_ok (posts t).
Proof.
  revert buf. induction reads as [|rd reads IH]; intros buf.
  - now exists [], (Returned tt).
  - cbn [ServerLoop.inner_loop]. unfold bind, ServerLoop.stream_read.
    destruct (ServerLoop.the_read rd) as [chunk | e];
      [|now exists [], (Raised e)].
    cbn [ret app].
    destruct (server_scan (buf ++ chunk)) as [[jpg rest]|].
    + destruct (process_jpg_shape jpg rd s) as (t & r & -> & Hok).
      destruct r as [[] | e]; [|now exists t, (Raised e)].
      destruct (IH rest) as (t1 & r1 & -> & Hok1).
      exists (t ++ t1), r1. split; [reflexivity|].
      rewrite posts_app. now apply Forall_app.
    + destruct (IH (buf ++ chunk)) as (t1 & r1 & -> & Hok1). now exists t1, r1.
Qed.

End ServerLoopFacts.

(** X20.  Whatever the camera and the analytics server do, a connection
    attempt of the server script leaves the state alone, and every report it
    posts is a face report that counts at least one face and carries the
    fixed confidence 0.8. *)
Theorem server_reports_well_formed {C : Type} `{OpenCV C}
  (open_raises : option exn) (reads : list ServerLoop.server_read)
  (s : state) :
  final (ServerLoop.attempt open_raises reads s) = s /\
  Forall server_report_ok
    (posts (trace (ServerLoop.attempt open_raises reads s))).
Proof.
  unfold ServerLoop.attempt, try_, bind, emit, raise, time_sleep, ret.
  assert (Hopen : posts [StreamOpen] = []) by reflexivity.
  assert (Hsleep : posts [Sleep 5] = []) by reflexivity.
  destruct open_raises as [e|].
  - cbn [handle]. destruct (is_Exception e); cbn; split; auto; constructor.
  - destruct (inner_loop_shape reads [] s) as (t & r & -> & Hok).
    destruct r as [[] | e].
    + cbn [trace final fst snd]. split; [reflexivity|].
      now rewrite posts_app, Hopen.
    + cbn [handle]. unfold time_sleep, bind, emit, raise, ret.
      destruct (is_Exception e); cbn [trace final fst snd];
        (split; [reflexivity|]);
        rewrite ?posts_app, Hopen; cbn [app];
        rewrite ?posts_app, ?Hsleep, ?app_nil_r; exact Hok.
Qed.

(** X21.  No error of class [Exception] leaves a connection attempt of the
    server script: only an interrupt by the user does, since nothing catches
    it.  An error of [urlopen] or of the first read is followed by the sleep
    of 5 seconds that precedes the next attempt, and by nothing else. *)
Theorem server_attempt_backs_off {C : Type} `{OpenCV C}
  (open_raises : option exn) (reads : list ServerLoop.server_read)
  (s : state) :
  (forall e, result (ServerLoop.attempt open_raises reads s) = Raised e ->
             e = KeyboardInterrupt) /\
  (forall e, open_raises = Some e -> is_Exception e = true ->
             ServerLoop.attempt open_raises reads s =
             ([Sleep 5], s, Returned tt)) /\
  (forall e rd rest,
     open_raises = None -> reads = rd :: rest ->
     ServerLoop.the_read rd = ReadRaises e -> is_Exception e = true ->
     ServerLoop.attempt open_raises reads s =
     ([StreamOpen; Sleep 5], s, Returned tt)) /\
  (open_raises = Some KeyboardInterrupt ->
   ServerLoop.attempt open_raises reads s = ([], s, Raised KeyboardInterrupt)).
Proof.
  assert (Hki : forall e, is_Exception e = false -> e = KeyboardInterrupt)
    by (intros e He; destruct e; try discriminate He; reflexivity).
  split; [|split; [|split]].
  - intros e. unfold ServerLoop.attempt, try_, bind, emit, raise.
    destruct open_raises as [e0|].
    + cbn [handle]. destruct (is_Exception e0) eqn:E; cbn; [discriminate|].
      intros Heq. injection Heq as <-. now apply Hki.
    + destruct (inner_loop_shape reads [] s) as (t & r & -> & _).
      destruct r as [[] | e0]; [discriminate|].
      cbn [handle]. destruct (is_Exception e0) eqn:E; cbn; [discriminate|].
      intros Heq. injection Heq as <-. now apply Hki.
  - intros e -> He. unfold ServerLoop.attempt, try_, raise. cbn [handle].
    now rewrite He.
  - intros e rd rest -> -> Hread He.
    unfold ServerLoop.attempt, try_, bind, emit.
    cbn [ServerLoop.inner_loop]. unfold bind, ServerLoop.stream_read.
    rewrite Hread. unfold raise. cbn [handle app]. now rewrite He.
  - intros ->. reflexivity.
Qed.

Lemma server_attempt_backs_off_witness :
  @ServerLoop.attempt Q (sample_cv [] []) (Some URLError) [] initial_state =
  ([Sleep 5], initial_state, Returned tt).
Proof.
  exact (proj1 (proj2 (@server_attempt_backs_off Q (sample_cv [] [])
                         (Some URLError) [] initial_state))
           URLError eq_refl eq_refl).
Defined.

(** X22.  The server script has no test for the end of the stream: once
    the reads give nothing but [b''] and the buffer holds no frame to cut
    out, the inner loop goes on reading, however often, without a sleep, a
    report or an error, and with the state as it was. *)
Theorem server_loop_spins_at_end_of_stream {C : Type} `{OpenCV C}
  (reads : list ServerLoop.server_read) (buf : list byte) (s : state) :
  Forall (fun rd => ServerLoop.the_read rd = Chunk []) reads ->
  server_scan buf = None ->
  ServerLoop.inner_loop reads buf s = ([], s, Returned tt).
Proof.
  intros Hend Hscan. induction Hend as [|rd reads Hrd _ IH]; [reflexivity|].
  cbn [ServerLoop.inner_loop]. unfold bind, ServerLoop.stream_read.
  rewrite Hrd. cbn [ret app]. rewrite app_nil_r, Hscan, IH. reflexivity.
Qed.

Lemma server_loop_spins_at_end_of_stream_witness :
  @ServerLoop.inner_loop Q (sample_cv [full_frame_face] [])
    (repeat {| ServerLoop.the_read := Chunk [];
               ServerLoop.answer := Responds ok_response;
               ServerLoop.nap := None |} 5)
    [xff; xd8; x00] initial_state
  = ([], initial_state, Returned tt).
Proof.
  apply (@server_loop_spins_at_end_of_stream Q (sample_cv [full_frame_face] [])).
  - repeat constructor.
  - reflexivity.
Defined.

(** X23.  The server script reports every decoded frame on which the
    classifier finds a face, with no threshold on the confidence and no
    cooldown: it posts one report with the number of faces and confidence
    0.8, and posts nothing for a frame without a face. *)
Theorem server_reports_every_face {C : Type} `{OpenCV C} (jpg : list byte)
  (rd : ServerLoop.server_read) (s : state) (img : Image)
  (faces : list Rect) :
  imdecode jpg = Some img ->
  detectMultiScale (cvtColor_gray img) = Some faces ->
  posts (trace (ServerLoop.process_jpg jpg rd s)) =
  match faces with
  | [] => []
  | _ :: _ => [Post {| detectionType := Face;
                       detectedCount := Z.of_nat (List.length faces);
                       confidence := 8 # 10 |}]
  end.
Proof.
  intros Hdecode Hfaces. unfold ServerLoop.process_jpg, cv2_imdecode.
  destruct jpg as [|b jpg]; [rewrite imdecode_empty in Hdecode; discriminate|].
  cbn [is_empty]. unfold bind at 1. cbn [ret app].
  rewrite Hdecode. unfold bind, cv. rewrite Hfaces. cbn [ret app].
  destruct faces as [|r faces].
  - cbn [List.length Z.of_nat Z.gtb Z.compare]. unfold time_sleep, bind, emit, ret.
    destruct (ServerLoop.nap rd); reflexivity.
  - replace (Z.of_nat (List.length (r :: faces)) >? 0) with true
      by (symmetry; apply Z.gtb_lt; cbn [List.length]; lia).
    destruct (server_log_shape (ServerLoop.answer rd)
                (Z.of_nat (List.length (r :: faces))) (8 # 10) s)
      as (t & r0 & -> & Hp & _).
    destruct r0 as [[] | e]; [|exact Hp].
    unfold time_sleep, bind, emit.
    destruct (ServerLoop.nap rd); unfold raise, ret; cbn [trace fst];
      rewrite ?posts_app, Hp; reflexivity.
Qed.

Lemma server_reports_every_face_witness :
  posts (trace (@ServerLoop.process_jpg Q (sample_cv [full_frame_face] [])
                  jpeg_chunk
                  {| ServerLoop.the_read := Chunk jpeg_chunk;
                     ServerLoop.answer := Responds ok_response;
                     ServerLoop.nap := None |} initial_state))
  = [Post {| detectionType := Face; detectedCount := 1;
             confidence := 8 # 10 |}].
Proof.
  exact (@server_reports_every_face Q (sample_cv [full_frame_face] [])
           jpeg_chunk _ initial_state _ [full_frame_face] eq_refl eq_refl).
Defined.

(** ** DetectionLoop: an unexpected error *)

(** The branch of an acquired frame ends by [Continue] unless the report is
    interrupted. *)
Lemma face_process_returns {C : Type} `{OpenCV C} (image : Image)
  (it : iteration) (s : state) :
  uninterrupted (net it) ->
  exists t s',
    FaceLoop.process_frame image it s = (t, s', Returned Continue) /\
    consecutive_errors s' = 0.
Proof.
  intros Hnet.
  assert (Hd : exists answer,
    result (FaceDetector.detect_faces image s) = Returned answer).
  { pose proof (detect_faces_cases image s) as Hc.
    destruct (detectMultiScale (cvtColor_gray image));
      rewrite Hc; eexists; reflexivity. }
  destruct Hd as ([[face_count conf] faces] & Hd).
  destruct (detect_faces_state image s (with_consecutive_errors s 0) _ Hd)
    as (t0 & Hrun & _).
  unfold FaceLoop.process_frame, set_consecutive_errors, bind, get, put.
  cbn [app]. fold (with_consecutive_errors s 0). rewrite Hrun.
  destruct (FaceLoop.should_report face_count conf (now it)).
  - unfold FaceDetector.log_detection.
    destruct (example_log_shape
                {| detectionType := Face; detectedCount := face_count;
                   confidence := conf |} (net it) (with_consecutive_errors s 0))
      as (t & r & -> & _ & Hexc).
    destruct r as [b | e].
    + cbn. eauto.
    + destruct (Hexc e eq_refl) as [He Hraise].
      rewrite (Hnet e Hraise) in He. discriminate He.
  - destruct (face_count >? 0); cbn; eauto.
Qed.

Lemma motion_process_returns {C : Type} `{OpenCV C} (image : Image)
  (it : iteration) (s : state) :
  uninterrupted (net it) ->
  exists t s',
    MotionLoop.process_frame image it s = (t, s', Returned Continue) /\
    consecutive_errors s' = 0.
Proof.
  intros Hnet.
  destruct (detect_motion_shape image s)
    as (t0 & s1 & [[detected level] contours] & Hrun & _ & _ & _ & Hn).
  unfold MotionLoop.process_frame, set_consecutive_errors, bind, get, put.
  cbn [app]. fold (with_consecutive_errors s 0). rewrite Hn.
  destruct detected.
  - destruct (Qge_bool _ _).
    + unfold MotionDetector.log_detection.
      destruct (example_log_shape (motion_report level) (net it)
                  (with_consecutive_errors s1 0))
        as (t & r & Hlog & _ & Hexc).
      unfold motion_report in Hlog. rewrite Hlog.
      destruct r as [b | e].
      * unfold set_last_motion_log_time, set_motion_detected_time, bind, get, put.
        cbn. eauto.
      * destruct (Hexc e eq_refl) as [He Hraise].
        rewrite (Hnet e Hraise) in He. discriminate He.
    + cbn. eauto.
  - destruct (py_int (now it) mod 60 =? 0); cbn; eauto.
Qed.

Lemma pass_unexpected_error {C : Type} `{OpenCV C}
  (process : Image -> iteration -> M control) (interval : Z) (it : iteration)
  (s s' : state) (t0 t : list event) (image : Image) (e : exn) :
  get_frame_from_stream (conn it) s = (t0, s, Returned (Some image)) ->
  process image it s = (t, s', Returned Continue) ->
  consecutive_errors s' = 0 ->
  sleep_raises it = Some e -> is_Exception e = true ->
  pass process interval it s =
  ((t0 ++ t) ++ [Sleep interval; Printed (MsgUnexpected e); Sleep 5],
   with_consecutive_errors s' 1, Returned Continue).
Proof.
  intros Hfetch Hproc Hzero Hsleep He.
  unfold pass, try_, bind. rewrite Hfetch, Hproc.
  unfold end_of_pass, time_sleep, bind, emit, raise. rewrite Hsleep.
  cbn [handle loop_clauses].
  replace (is_KeyboardInterrupt e) with false
    by (destruct e; try reflexivity; discriminate He).
  rewrite He. unfold bind. rewrite count_error_run, Hzero.
  cbn. now rewrite <- !app_assoc.
Qed.

(** X11.  In both example loops, when an error of class [Exception]
    arrives during the sleep that closes a pass in which a frame was
    acquired and handled, the error is counted (the counter, just reset,
    becomes 1), it is printed, the script pauses for 5 seconds, and the loop
    goes on. *)
Theorem unexpected_error_counts_and_backs_off {C : Type} `{OpenCV C}
  (it : iteration) (s : state) (image : Image) (e : exn) :
  result (get_frame_from_stream (conn it) s) = Returned (Some image) ->
  uninterrupted (net it) ->
  sleep_raises it = Some e -> is_Exception e = true ->
  (result (FaceLoop.loop_body it s) = Returned Continue /\
   consecutive_errors (final (FaceLoop.loop_body it s)) = 1 /\
   exists t, trace (FaceLoop.loop_body it s) =
             t ++ [Sleep FaceDetector.DETECTION_INTERVAL;
                   Printed (MsgUnexpected e); Sleep 5]) /\
  (result (MotionLoop.loop_body it s) = Returned Continue /\
   consecutive_errors (final (MotionLoop.loop_body it s)) = 1 /\
   exists t, trace (MotionLoop.loop_body it s) =
             t ++ [Sleep MotionDetector.DETECTION_INTERVAL;
                   Printed (MsgUnexpected e); Sleep 5]).
Proof.
  intros Hfetch Hnet Hsleep He.
  destruct (fetch_triple _ _ _ Hfetch) as (t0 & Hrun & _).
  split.
  - destruct (face_process_returns image it s Hnet) as (t & s' & Hproc & Hzero).
    rewrite face_loop_body_pass.
    rewrite (pass_unexpected_error _ _ it s s' t0 t image e
               Hrun Hproc Hzero Hsleep He).
    split; [reflexivity | split; [reflexivity | eexists; reflexivity]].
  - destruct (motion_process_returns image it s Hnet) as (t & s' & Hproc & Hzero).
    rewrite motion_loop_body_pass.
    rewrite (pass_unexpected_error _ _ it s s' t0 t image e
               Hrun Hproc Hzero Hsleep He).
    split; [reflexivity | split; [reflexivity | eexists; reflexivity]].
Qed.

Lemma unexpected_error_counts_and_backs_off_witness :
  consecutive_errors
    (final (@FaceLoop.loop_body Q (sample_cv [] [])
              {| conn := Opened [Chunk jpeg_chunk]; now := 1000;
                 net := Responds ok_response;
                 sleep_raises := Some OtherException |} initial_state)) = 1.
Proof.
  refine (proj1 (proj2 (proj1
           (@unexpected_error_counts_and_backs_off Q (sample_cv [] [])
              {| conn := Opened [Chunk jpeg_chunk]; now := 1000;
                 net := Responds ok_response;
                 sleep_raises := Some OtherException |} initial_state
              _ OtherException eq_refl _ eq_refl eq_refl)))).
  intros e0 He0. discriminate He0.
Defined.
